(** * burrow_client.py: a shallow embedding of the Burrow reporting client

    The client queries a JSON status API, memoises the extracted payloads,
    filters topic and consumer-group names with regular expressions,
    normalises partition records and folds them into table rows.

    Python values that come out of [json.loads] are modelled by the tagged
    union [json]; exceptions by the sum type [result]; the mutable client
    object and the outside world (requests sent, clock reads, standard
    output) by explicit state passing in the monad [M]. *)

From Stdlib Require Import ZArith List Bool Ascii String Lia.
From Stdlib Require Import DecimalString DecimalPos Sorting.Sorted Sorting.Permutation.
From stdpp Require Import base option list gmap strings.

Set Warnings "-register-all".

Local Open Scope string_scope.
Local Open Scope Z_scope.

(** ** Exceptions and fallible results *)

Module Py.

(** The exception classes the client can meet.  [JSONDecodeError] is a
    subclass of [ValueError] and is reported as such. *)
Inductive exn : Type :=
  | TypeError | ValueError | AttributeError | KeyError | RuntimeError
  | IndexError | OverflowError | OSError | ConnectionError | ReError.

Inductive result (A : Type) : Type :=
  | Ok (a : A)
  | Raise (e : exn).
Arguments Ok {A} a.
Arguments Raise {A} e.

Definition rbind {A B} (r : result A) (k : A -> result B) : result B :=
  match r with
  | Ok a => k a
  | Raise e => Raise e
  end.

Definition rmap {A B} (f : A -> B) (r : result A) : result B :=
  rbind r (fun a => Ok (f a)).

Definition is_ok {A} (r : result A) : bool :=
  match r with Ok _ => true | Raise _ => false end.

(** [try: body  except RuntimeError: handler].  None of the other classes
    of [exn] derives from [RuntimeError], so only that one is caught. *)
Definition except_RuntimeError {A} (body handler : result A) : result A :=
  match body with
  | Raise RuntimeError => handler
  | other => other
  end.

(** [rmapM f l] is the list comprehension [[f(x) for x in l]]. *)
Fixpoint rmapM {A B} (f : A -> result B) (l : list A) : result (list B) :=
  match l with
  | [] => Ok []
  | x :: l' => rbind (f x) (fun y => rbind (rmapM f l') (fun ys => Ok (y :: ys)))
  end.

End Py.
Export Py.

Declare Scope result_scope.
Delimit Scope result_scope with result.
Notation "x <- c ; k" := (rbind c (fun x => k))
  (at level 100, c at next level, right associativity) : result_scope.
Local Open Scope result_scope.

(** ** JSON trees, as [json.loads] builds them *)

(** [JInt] covers the number literals without fraction or exponent, which
    [json.loads] turns into [int]: every offset, lag and timestamp of the
    API.  Literals with a fraction or an exponent, which it turns into
    [float], are outside the model: what is proved of a value is proved
    of the payloads without them.  A [JObj] lists the items of a [dict] in
    insertion order; lookup takes the first binding of a key. *)
Inductive json : Type :=
  | JNull
  | JBool (b : bool)
  | JInt (n : Z)
  | JStr (s : string)
  | JArr (items : list json)
  | JObj (fields : list (string * json)).

(** Truth value of a Python object: [None], [False], [0], [''], [[]] and
    [{}] are falsy. *)
Definition truthy (v : json) : bool :=
  match v with
  | JNull => false
  | JBool b => b
  | JInt n => negb (n =? 0)
  | JStr s => negb (String.eqb s "")
  | JArr items => match items with [] => false | _ => true end
  | JObj fields => match fields with [] => false | _ => true end
  end.

Fixpoint assoc (k : string) (fields : list (string * json)) : option json :=
  match fields with
  | [] => None
  | (k', v) :: rest => if String.eqb k k' then Some v else assoc k rest
  end.

(** [d.get(key, default)]: only a [dict] has the method. *)
Definition py_get (d : json) (key : string) (default : json) : result json :=
  match d with
  | JObj fields => Ok (match assoc key fields with Some v => v | None => default end)
  | _ => Raise AttributeError
  end.

(** [isinstance(v, dict)] *)
Definition is_dict (v : json) : bool :=
  match v with JObj _ => true | _ => false end.

(** [x == y].  [bool] is a subclass of [int], so [True == 1]; two dicts are
    equal when they bind the same keys to equal values, whatever the order. *)
Definition as_num (v : json) : option Z :=
  match v with
  | JBool b => Some (if b then 1 else 0)
  | JInt n => Some n
  | _ => None
  end.

Fixpoint py_eqb (a b : json) {struct a} : bool :=
  match a, b with
  | JNull, JNull => true
  | JBool x, JBool y => Bool.eqb x y
  | JBool x, JInt n => (if x then 1 else 0) =? n
  | JInt n, JBool y => n =? (if y then 1 else 0)
  | JInt n, JInt m => n =? m
  | JStr s, JStr t => String.eqb s t
  | JArr xs, JArr ys =>
      (fix go (xs ys : list json) {struct xs} : bool :=
         match xs, ys with
         | [], [] => true
         | x :: xs', y :: ys' => py_eqb x y && go xs' ys'
         | _, _ => false
         end) xs ys
  | JObj fs, JObj gs =>
      (length fs =? length gs)%nat &&
      (fix go (fs : list (string * json)) {struct fs} : bool :=
         match fs with
         | [] => true
         | (k, v) :: fs' =>
             match assoc k gs with
             | Some w => py_eqb v w && go fs'
             | None => false
             end
         end) fs
  | _, _ => false
  end.

(** Order of [str]: by code point, which on UTF-8 encoded strings is the
    order of the bytes. *)
Definition str_ltb (s t : string) : bool :=
  match String.compare s t with Lt => true | _ => false end.

(** [x < y].  Numbers compare with numbers, strings with strings, lists
    with lists (at the first position where they differ); anything else
    raises [TypeError]. *)
Fixpoint py_lt (a b : json) {struct a} : result bool :=
  match a, b with
  | JBool _, JBool _ | JBool _, JInt _ | JInt _, JBool _ | JInt _, JInt _ =>
      match as_num a, as_num b with
      | Some n, Some m => Ok (n <? m)
      | _, _ => Raise TypeError
      end
  | JStr s, JStr t => Ok (str_ltb s t)
  | JArr xs, JArr ys =>
      (fix go (xs ys : list json) {struct xs} : result bool :=
         match xs, ys with
         | [], [] => Ok false
         | [], _ :: _ => Ok true
         | _ :: _, [] => Ok false
         | x :: xs', y :: ys' => if py_eqb x y then go xs' ys' else py_lt x y
         end) xs ys
  | _, _ => Raise TypeError
  end.

(** [x > y] is [y < x] on these types. *)
Definition py_gt (a b : json) : result bool := py_lt b a.

(** [for x in v]: a list yields its items, a dict its keys, a string its
    characters (its bytes here: the two agree on ASCII text); nothing else
    is iterable. *)
Definition py_iter (v : json) : result (list json) :=
  match v with
  | JArr items => Ok items
  | JObj fields => Ok (map (fun kv => JStr (fst kv)) fields)
  | JStr s => Ok (map (fun c => JStr (String c "")) (list_ascii_of_string s))
  | _ => Raise TypeError
  end.

(** [max(l)] and [min(l)]: [ValueError] on an empty list; the first of
    several equal extremes is kept. *)
Fixpoint max_from (best : json) (l : list json) : result json :=
  match l with
  | [] => Ok best
  | x :: l' => b <- py_gt x best; max_from (if b then x else best) l'
  end.

Fixpoint min_from (best : json) (l : list json) : result json :=
  match l with
  | [] => Ok best
  | x :: l' => b <- py_lt x best; min_from (if b then x else best) l'
  end.

Definition py_max (l : list json) : result json :=
  match l with
  | [] => Raise ValueError
  | x :: l' => max_from x l'
  end.

Definition py_min (l : list json) : result json :=
  match l with
  | [] => Raise ValueError
  | x :: l' => min_from x l'
  end.

(** ** Integers and their text *)

(** White space that [int] skips around an ASCII string: tab, line feed,
    vertical tab, form feed, carriage return and the space. *)
Definition is_space (c : ascii) : bool :=
  let n := nat_of_ascii c in
  ((9 <=? n) && (n <=? 13) || (n =? 32))%nat.

Definition is_digit (c : ascii) : bool :=
  let n := nat_of_ascii c in ((48 <=? n) && (n <=? 57))%nat.

Definition digit_value (c : ascii) : Z := Z.of_nat (nat_of_ascii c) - 48.

Fixpoint lstrip (l : list ascii) : list ascii :=
  match l with
  | c :: l' => if is_space c then lstrip l' else l
  | [] => []
  end.

Definition strip (l : list ascii) : list ascii := rev (lstrip (rev (lstrip l))).

(** Decimal digits, with single underscores allowed between two digits. *)
Fixpoint parse_digits (acc : Z) (after_digit : bool) (l : list ascii) : option Z :=
  match l with
  | [] => if after_digit then Some acc else None
  | c :: l' =>
      if is_digit c then parse_digits (10 * acc + digit_value c) true l'
      else if Ascii.eqb c "_" && after_digit then
        match l' with
        | d :: _ => if is_digit d then parse_digits acc false l' else None
        | [] => None
        end
      else None
  end.

(** [int(s)] for a string: surrounding white space, an optional sign, then
    the digits.  (ASCII strings only: the digits and spaces of other
    scripts, which [int] also accepts, are not modelled.) *)
Definition int_of_str (s : string) : option Z :=
  match strip (list_ascii_of_string s) with
  | "+"%char :: l => parse_digits 0 false l
  | "-"%char :: l => option_map Z.opp (parse_digits 0 false l)
  | l => parse_digits 0 false l
  end.

(** [int(v)] *)
Definition py_int (v : json) : result Z :=
  match v with
  | JInt n => Ok n
  | JBool b => Ok (if b then 1 else 0)
  | JStr s => match int_of_str s with Some n => Ok n | None => Raise ValueError end
  | JNull | JArr _ | JObj _ => Raise TypeError
  end.

(** [str(n)] for an [int] *)
Definition str_of_int (n : Z) : string := NilZero.string_of_int (Z.to_int n).

(** Commas between groups of three, on the digits taken from the right. *)
Fixpoint group3 (l : list ascii) : list ascii :=
  match l with
  | a :: b :: c :: ((_ :: _) as rest) => a :: b :: c :: ","%char :: group3 rest
  | _ => l
  end.

(** ['{number:,}'.format(number=n)] for an [int] *)
Definition format_grouped (n : Z) : string :=
  let digits := list_ascii_of_string (str_of_int (Z.abs n)) in
  String.append (if n <? 0 then "-" else "")
                (string_of_list_ascii (rev (group3 (rev digits)))).

(** [sep.join(l)]: every item must be a [str]. *)
Definition as_str (v : json) : result string :=
  match v with JStr s => Ok s | _ => Raise TypeError end.

Definition py_join (sep : string) (l : list json) : result string :=
  strs <- rmapM as_str l; Ok (String.concat sep strs).

(** ** Regular expressions: the part of [re] the filters rely on *)

Module Regex.

(** A compiled pattern of the regular fragment: [Sym p] matches one
    character satisfying [p] (a literal, [.], a class). *)
Inductive regex : Type :=
  | Void
  | Eps
  | Sym (p : ascii -> bool)
  | Alt (r1 r2 : regex)
  | Cat (r1 r2 : regex)
  | Star (r : regex).

(** The words a pattern matches in full. *)
Inductive matches : regex -> list ascii -> Prop :=
  | MEps : matches Eps []
  | MSym p c : p c = true -> matches (Sym p) [c]
  | MAltL r1 r2 w : matches r1 w -> matches (Alt r1 r2) w
  | MAltR r1 r2 w : matches r2 w -> matches (Alt r1 r2) w
  | MCat r1 r2 u v : matches r1 u -> matches r2 v -> matches (Cat r1 r2) (u ++ v)
  | MStarNil r : matches (Star r) []
  | MStarApp r u v : matches r u -> matches (Star r) v -> matches (Star r) (u ++ v).

Fixpoint nullable (r : regex) : bool :=
  match r with
  | Void => false
  | Eps => true
  | Sym _ => false
  | Alt r1 r2 => nullable r1 || nullable r2
  | Cat r1 r2 => nullable r1 && nullable r2
  | Star _ => true
  end.

(** What remains to be matched after reading [c]. *)
Fixpoint deriv (c : ascii) (r : regex) : regex :=
  match r with
  | Void => Void
  | Eps => Void
  | Sym p => if p c then Eps else Void
  | Alt r1 r2 => Alt (deriv c r1) (deriv c r2)
  | Cat r1 r2 =>
      if nullable r1 then Alt (Cat (deriv c r1) r2) (deriv c r2)
      else Cat (deriv c r1) r2
  | Star r1 => Cat (deriv c r1) (Star r1)
  end.

(** [compiled.match(s) is not None]: the match starts at the first
    character and may stop anywhere. *)
Fixpoint match_at_start (r : regex) (s : list ascii) : bool :=
  nullable r ||
  match s with
  | [] => false
  | c :: s' => match_at_start (deriv c r) s'
  end.

(** [compiled.fullmatch(s) is not None], for comparison. *)
Fixpoint fullmatch (r : regex) (s : list ascii) : bool :=
  match s with
  | [] => nullable r
  | c :: s' => fullmatch (deriv c r) s'
  end.

(** The pattern that matches exactly the text [l]. *)
Fixpoint literal (l : list ascii) : regex :=
  match l with
  | [] => Eps
  | c :: l' => Cat (Sym (Ascii.eqb c)) (literal l')
  end.

End Regex.

(** ** PrettyTable, as far as the reports use it *)

(** A table is its header and the rows added so far; [get_string] sorts
    the rows when asked to and hands them to the drawing routine, which
    stays a parameter. *)

Record PrettyTable : Type := mkTable {
  field_names : list string;
  align : string;
  rows : list (list json)
}.

Definition new_table (names : list string) : PrettyTable :=
  {| field_names := names; align := "l"; rows := [] |}.

Definition add_row (row : list json) (t : PrettyTable) : PrettyTable :=
  {| field_names := field_names t; align := align t; rows := rows t ++ [row] |}.

Fixpoint index_of (name : string) (names : list string) : option nat :=
  match names with
  | [] => None
  | n :: rest => if String.eqb n name then Some 0%nat else option_map S (index_of name rest)
  end.

(** A stable sort that asks only for [<], as [list.sort] and [sorted] do;
    a comparison that raises aborts it.  It inserts one item after the
    other; Python merges runs, which gives the same list whenever no
    comparison raises. *)
Fixpoint insert_by {A} (lt : A -> A -> result bool) (x : A) (sorted : list A)
    : result (list A) :=
  match sorted with
  | [] => Ok [x]
  | y :: rest =>
      b <- lt y x;
      if b then (rest' <- insert_by lt x rest; Ok (y :: rest')) else Ok (x :: sorted)
  end.

Fixpoint sort_by {A} (lt : A -> A -> result bool) (l : list A) : result (list A) :=
  match l with
  | [] => Ok []
  | x :: l' => s <- sort_by lt l'; insert_by lt x s
  end.

(** Rows are Python lists and compare as such. *)
Definition row_lt (r1 r2 : list json) : result bool := py_lt (JArr r1) (JArr r2).

Definition sort_rows (l : list (list json)) : result (list (list json)) :=
  sort_by row_lt l.

Definition decorate (i : nat) (row : list json) : result (list json) :=
  match nth_error row i with
  | Some key => Ok (key :: row)
  | None => Raise IndexError
  end.

(** The rows [get_string(sortby=name)] draws: each row is prefixed with its
    sort key, the prefixed rows are sorted, the prefix is dropped. *)
Definition get_rows (sortby : option string) (t : PrettyTable) : result (list (list json)) :=
  match sortby with
  | None => Ok (rows t)
  | Some name =>
      match index_of name (field_names t) with
      | None => Raise ValueError
      | Some i =>
          decorated <- rmapM (decorate i) (rows t);
          sorted <- sort_rows decorated;
          Ok (map (fun r => tl r) sorted)
      end
  end.

(** ** The collaborators outside the repository *)

Class Externals : Type := {
  (** [requests.get(address).json()], given the addresses asked before *)
  http_get_json : list string -> string -> result json;
  (** [re.compile(pattern)]; [ReError] for a malformed pattern *)
  re_compile : string -> result Regex.regex;
  datetime : Type;
  timedelta : Type;
  (** [datetime.fromtimestamp(ms / 1000)] *)
  fromtimestamp : Z -> result datetime;
  (** [datetime.now()] at the k-th reading of the clock *)
  now : nat -> datetime;
  (** [a - b] on two dates *)
  datetime_sub : datetime -> datetime -> timedelta;
  str_datetime : datetime -> string;
  str_timedelta : timedelta -> string;
  (** the text PrettyTable draws for the given header, alignment and rows *)
  draw : list string -> string -> list (list json) -> string
}.

Definition get_string `{Externals} (sortby : option string) (t : PrettyTable) : result string :=
  rs <- get_rows sortby t; Ok (draw (field_names t) (align t) rs).

(** ** The client object and the world around it *)

Record BurrowClient : Type := mkClient {
  api : string;
  url : string;
  verbose : bool;
  debug : bool;
  decimal : bool;
  enable_clusters : bool;
  enable_topics : bool;
  enable_consumers : bool;
  enable_consumer_status : bool;
  enable_consumer_partitions : bool;
  filter_topic : option string;
  filter_consumer : option string;
  _clusters : json;
  _cluster_details : gmap string json;
  _consumers : gmap string json;
  _topics : gmap string json;
  _topic_details : gmap string json;
  _consumer_details : gmap string json;
  _consumer_status : gmap string json
}.

(** [BurrowClient.__init__] *)
Definition init (url api : string) (verbose debug : bool) : BurrowClient :=
  {| api := api; url := url; verbose := verbose; debug := debug; decimal := false;
     enable_clusters := false; enable_topics := false; enable_consumers := false;
     enable_consumer_status := false; enable_consumer_partitions := false;
     filter_topic := None; filter_consumer := None;
     _clusters := JNull;
     _cluster_details := ∅; _consumers := ∅; _topics := ∅;
     _topic_details := ∅; _consumer_details := ∅; _consumer_status := ∅ |}.

(** The attribute assignments of the command line: [bc.verbose = ...],
    [bc.decimal = ...], [bc.filter_topic = ...], [bc.filter_consumer = ...]. *)
Definition set_verbose (b : bool) (self : BurrowClient) : BurrowClient :=
  mkClient (api self) (url self) b (debug self) (decimal self)
    (enable_clusters self) (enable_topics self) (enable_consumers self)
    (enable_consumer_status self) (enable_consumer_partitions self)
    (filter_topic self) (filter_consumer self) (_clusters self)
    (_cluster_details self) (_consumers self) (_topics self)
    (_topic_details self) (_consumer_details self) (_consumer_status self).

Definition set_decimal (b : bool) (self : BurrowClient) : BurrowClient :=
  mkClient (api self) (url self) (verbose self) (debug self) b
    (enable_clusters self) (enable_topics self) (enable_consumers self)
    (enable_consumer_status self) (enable_consumer_partitions self)
    (filter_topic self) (filter_consumer self) (_clusters self)
    (_cluster_details self) (_consumers self) (_topics self)
    (_topic_details self) (_consumer_details self) (_consumer_status self).

Definition set_filter_topic (f : option string) (self : BurrowClient) : BurrowClient :=
  mkClient (api self) (url self) (verbose self) (debug self) (decimal self)
    (enable_clusters self) (enable_topics self) (enable_consumers self)
    (enable_consumer_status self) (enable_consumer_partitions self)
    f (filter_consumer self) (_clusters self)
    (_cluster_details self) (_consumers self) (_topics self)
    (_topic_details self) (_consumer_details self) (_consumer_status self).

Definition set_filter_consumer (f : option string) (self : BurrowClient) : BurrowClient :=
  mkClient (api self) (url self) (verbose self) (debug self) (decimal self)
    (enable_clusters self) (enable_topics self) (enable_consumers self)
    (enable_consumer_status self) (enable_consumer_partitions self)
    (filter_topic self) f (_clusters self)
    (_cluster_details self) (_consumers self) (_topics self)
    (_topic_details self) (_consumer_details self) (_consumer_status self).

Record World : Type := mkWorld {
  requests : list string;   (* addresses sent, the latest first *)
  clock_reads : nat;        (* how often the clock was read *)
  stdout : list string      (* what was written, the latest first *)
}.

Definition fresh_world : World := {| requests := []; clock_reads := 0; stdout := [] |}.

(** A method: it may change the client and the world, and may raise. *)
Definition M (A : Type) : Type := BurrowClient -> World -> result A * BurrowClient * World.

Definition mret {A} (a : A) : M A := fun self w => (Ok a, self, w).

Definition mraise {A} (e : exn) : M A := fun self w => (Raise e, self, w).

Definition mbind {A B} (m : M A) (k : A -> M B) : M B :=
  fun self w =>
    match m self w with
    | (Ok a, self', w') => k a self' w'
    | (Raise e, self', w') => (Raise e, self', w')
    end.

Definition lift {A} (r : result A) : M A := fun self w => (r, self, w).

Definition get_self : M BurrowClient := fun self w => (Ok self, self, w).

Definition set_self (f : BurrowClient -> BurrowClient) : M unit :=
  fun self w => (Ok tt, f self, w).

Definition get_world : M World := fun self w => (Ok w, self, w).

Definition set_world (f : World -> World) : M unit :=
  fun self w => (Ok tt, self, f w).

Declare Scope method_scope.
Delimit Scope method_scope with M.
Bind Scope method_scope with M.
Notation "x <- c ;; k" := (mbind c (fun x => k))
  (at level 100, c at next level, right associativity) : method_scope.
Notation "c ;; k" := (mbind c (fun _ => k))
  (at level 100, right associativity) : method_scope.

(** [for x in l: acc = body(acc, x)] *)
Fixpoint for_each {A B} (l : list A) (body : B -> A -> M B) (acc : B) : M B :=
  match l with
  | [] => mret acc
  | x :: l' => mbind (body acc x) (for_each l' body)
  end.

(** ** Methods of [BurrowClient] *)

Section Client.
Context `{Externals}.
Local Open Scope method_scope.

Definition address (self : BurrowClient) (paths : list string) : string :=
  String.concat "/" ([url self; api self] ++ paths).

Definition ends_with_newline (s : string) : bool :=
  match rev (list_ascii_of_string s) with
  | c :: _ => Ascii.eqb c "010"
  | [] => false
  end.

Definition output (message : string) : M unit :=
  let message :=
    if ends_with_newline message then message
    else String.append message (String "010" "") in
  set_world (fun w => {| requests := requests w; clock_reads := clock_reads w;
                         stdout := message :: stdout w |}).

Definition request (paths : list string) : M json :=
  self <- get_self;;
  let address := address self paths in
  (if debug self then output (String.append "=> GET: " address) else mret tt);;
  w <- get_world;;
  set_world (fun w => {| requests := address :: requests w;
                         clock_reads := clock_reads w; stdout := stdout w |});;
  lift (http_get_json (requests w) address).

Definition timestamp_to_date (timestamp : json) : result string :=
  except_RuntimeError
    (timestamp <- py_int timestamp;
     date <- fromtimestamp timestamp;
     Ok (str_datetime date))%result
    (Ok "?").

Definition read_clock : M datetime :=
  w <- get_world;;
  set_world (fun w => {| requests := requests w; clock_reads := S (clock_reads w);
                         stdout := stdout w |});;
  mret (now (clock_reads w)).

Definition timestamp_to_age (timestamp : json) : M string :=
  fun self w =>
    match
      (timestamp <- lift (py_int timestamp);;
       timestamp_date <- lift (fromtimestamp timestamp);;
       current_date <- read_clock;;
       let delta_date := datetime_sub current_date timestamp_date in
       mret (str_timedelta delta_date)) self w
    with
    | (Raise RuntimeError, self', w') => (Ok "?", self', w')
    | other => other
    end.

Definition format_number (self : BurrowClient) (number : json) : result string :=
  (number <- py_int number;
   if decimal self then Ok (format_grouped number) else Ok (str_of_int number))%result.

(** The [clusters] property. *)
Definition clusters : M json :=
  self <- get_self;;
  if truthy (_clusters self) then mret (_clusters self) else
  data <- request [];;
  clusters <- lift (py_get data "clusters" (JArr []));;
  (if truthy clusters then
     set_self (fun self =>
       mkClient (api self) (url self) (verbose self) (debug self) (decimal self)
         (enable_clusters self) (enable_topics self) (enable_consumers self)
         (enable_consumer_status self) (enable_consumer_partitions self)
         (filter_topic self) (filter_consumer self)
         clusters
         (_cluster_details self) (_consumers self) (_topics self)
         (_topic_details self) (_consumer_details self) (_consumer_status self))
   else mret tt);;
  mret clusters.

(** The six dictionaries that memoise per key. *)
Inductive cache : Type :=
  | ClusterDetails | Topics | TopicDetails | Consumers | ConsumerDetails | ConsumerStatus.

Definition cache_of (c : cache) (self : BurrowClient) : gmap string json :=
  match c with
  | ClusterDetails => _cluster_details self
  | Topics => _topics self
  | TopicDetails => _topic_details self
  | Consumers => _consumers self
  | ConsumerDetails => _consumer_details self
  | ConsumerStatus => _consumer_status self
  end.

(** [self._cache[key] = value] *)
Definition store (c : cache) (key : string) (value : json) (self : BurrowClient) : BurrowClient :=
  let upd (c' : cache) :=
    match c, c' with
    | ClusterDetails, ClusterDetails | Topics, Topics | TopicDetails, TopicDetails
    | Consumers, Consumers | ConsumerDetails, ConsumerDetails
    | ConsumerStatus, ConsumerStatus => <[key := value]> (cache_of c' self)
    | _, _ => cache_of c' self
    end in
  mkClient (api self) (url self) (verbose self) (debug self) (decimal self)
    (enable_clusters self) (enable_topics self) (enable_consumers self)
    (enable_consumer_status self) (enable_consumer_partitions self)
    (filter_topic self) (filter_consumer self)
    (_clusters self)
    (upd ClusterDetails) (upd Consumers) (upd Topics)
    (upd TopicDetails) (upd ConsumerDetails) (upd ConsumerStatus).

(** The body the six keyed accessors share: they differ in the dictionary,
    the key, the path, the envelope field and the default. *)
Definition fetch_cached (c : cache) (key : string) (paths : list string)
    (field : string) (default : json) : M json :=
  self <- get_self;;
  match cache_of c self !! key with
  | Some value => mret value
  | None =>
      data <- request paths;;
      value <- lift (py_get data field default);;
      (if truthy value then set_self (store c key value) else mret tt);;
      mret value
  end.

(** ["{cluster}-{name}".format(cluster=cluster, name=name)] *)
Definition pair_key (cluster name : string) : string :=
  String.append cluster (String.append "-" name).

Definition cluster_details (cluster : string) : M json :=
  let key := cluster in
  fetch_cached ClusterDetails key [cluster] "module" (JObj []).

Definition topics (cluster : string) : M json :=
  let key := cluster in
  fetch_cached Topics key [cluster; "topic"] "topics" (JArr []).

Definition topic_details (cluster topic : string) : M json :=
  let key := pair_key cluster topic in
  fetch_cached TopicDetails key [cluster; "topic"; topic] "offsets" (JArr []).

Definition consumers (cluster : string) : M json :=
  let key := cluster in
  fetch_cached Consumers key [cluster; "consumer"] "consumers" (JArr []).

Definition consumer_details (cluster consumer : string) : M json :=
  let key := pair_key cluster consumer in
  fetch_cached ConsumerDetails key [cluster; "consumer"; consumer] "topics" (JObj []).

Definition consumer_status (cluster consumer : string) : M json :=
  let key := pair_key cluster consumer in
  fetch_cached ConsumerStatus key [cluster; "consumer"; consumer; "lag"] "status" (JObj []).

(** [bool(re.match(pattern, value))]: the pattern is compiled first, then
    the value must be a string. *)
Definition re_match (pattern : string) (value : json) : result bool :=
  (r <- re_compile pattern;
   match value with
   | JStr s => Ok (Regex.match_at_start r (list_ascii_of_string s))
   | _ => Raise TypeError
   end)%result.

Definition match_topic (self : BurrowClient) (topic : json) : result bool :=
  match filter_topic self with
  | None => Ok true
  | Some pattern =>
      if negb (truthy (JStr pattern)) then Ok true
      else if negb (truthy topic) then Ok false
      else re_match pattern topic
  end.

Definition match_consumer (self : BurrowClient) (consumer : json) : result bool :=
  match filter_consumer self with
  | None => Ok true
  | Some pattern =>
      if negb (truthy (JStr pattern)) then Ok true
      else if negb (truthy consumer) then Ok false
      else re_match pattern consumer
  end.

(** *** The partition stats normalizer *)

(** The dictionary [get_partition_stats] returns, one field per key. *)
Record partition_stats : Type := mkStats {
  st_topic : json;
  st_lag : json;
  st_offset : json;
  st_timestamp : json;
  st_status : json;
  st_owner : json;
  st_partition : json
}.

(** [key in v], for a string [key] *)
Definition py_in (key : string) (v : json) : result bool :=
  match v with
  | JObj fields => Ok (match assoc key fields with Some _ => true | None => false end)
  | JArr items => Ok (existsb (py_eqb (JStr key)) items)
  | JStr s => Ok (match String.index 0 key s with Some _ => true | None => false end)
  | _ => Raise TypeError
  end.

(** [v[key]], for a string [key] *)
Definition py_getitem (v : json) (key : string) : result json :=
  match v with
  | JObj fields => match assoc key fields with Some x => Ok x | None => Raise KeyError end
  | _ => Raise TypeError
  end.

Definition get_partition_stats (partition_data : json) : result partition_stats :=
  (topic <- py_get partition_data "topic" (JStr "?");
   end_ <- py_get partition_data "end" (JObj []);
   let end_ := if negb (is_dict end_) then JObj [] else end_ in
   has_current_lag <- py_in "current_lag" partition_data;
   lag <- (if has_current_lag then py_get partition_data "current_lag" (JInt 0)
           else py_get end_ "lag" (JInt 0));
   offset <- py_get end_ "offset" (JInt 0);
   timestamp <- py_get end_ "timestamp" (JInt 0);
   status <- py_get partition_data "status" (JStr "?");
   owner <- py_get partition_data "owner" (JStr "?");
   partition <- py_get partition_data "partition" (JStr "?");
   Ok {| st_topic := topic; st_lag := lag; st_offset := offset;
         st_timestamp := timestamp; st_status := status; st_owner := owner;
         st_partition := partition |})%result.

(** *** Values that can be put in a [set] or used as [dict] keys *)

Inductive scalar : Type :=
  | SNone
  | SBool (b : bool)
  | SInt (n : Z)
  | SStr (s : string).

Definition json_of_scalar (k : scalar) : json :=
  match k with
  | SNone => JNull
  | SBool b => JBool b
  | SInt n => JInt n
  | SStr s => JStr s
  end.

(** Lists and dicts are unhashable. *)
Definition hashable (v : json) : result scalar :=
  match v with
  | JNull => Ok SNone
  | JBool b => Ok (SBool b)
  | JInt n => Ok (SInt n)
  | JStr s => Ok (SStr s)
  | JArr _ | JObj _ => Raise TypeError
  end.

Definition scalar_eqb (a b : scalar) : bool :=
  py_eqb (json_of_scalar a) (json_of_scalar b).

(** [str(k)] *)
Definition str_of_scalar (k : scalar) : string :=
  match k with
  | SNone => "None"
  | SBool b => if b then "True" else "False"
  | SInt n => str_of_int n
  | SStr s => s
  end.

(** [s.add(x)] on a set kept as the list of its distinct members *)
Definition set_add (x : scalar) (s : list scalar) : list scalar :=
  if existsb (scalar_eqb x) s then s else s ++ [x].

(** [d[k] = 1 if k not in d else d[k] + 1] on a dict kept as its items *)
Fixpoint dict_mem (k : scalar) (d : list (scalar * Z)) : bool :=
  match d with
  | [] => false
  | (k', _) :: rest => scalar_eqb k' k || dict_mem k rest
  end.

Fixpoint dict_incr (k : scalar) (d : list (scalar * Z)) : list (scalar * Z) :=
  match d with
  | [] => []
  | (k', n) :: rest => if scalar_eqb k' k then (k', n + 1) :: rest else (k', n) :: dict_incr k rest
  end.

Definition dict_count (k : scalar) (d : list (scalar * Z)) : list (scalar * Z) :=
  if negb (dict_mem k d) then d ++ [(k, 1)] else dict_incr k d.

(** [sorted(l)] *)
Definition py_sorted (l : list json) : result (list json) := sort_by py_lt l.

(** Items of a dict are tuples, which compare like lists. *)
Definition item_lt (a b : scalar * Z) : result bool :=
  py_lt (JArr [json_of_scalar (fst a); JInt (snd a)])
        (JArr [json_of_scalar (fst b); JInt (snd b)]).

(** *** Reports *)

(** Names taken from a payload are path components and cache keys, and the
    accessors take them as strings, as their docstrings say.  A name that
    is not a string makes [request] raise [TypeError] when it joins the
    URL; the model raises it as soon as the name is used. *)
Definition as_name (v : json) : M string := lift (as_str v).

Definition text (s : string) : json := JStr s.

Definition cluster_row (cluster : string) (details : json) : result (list json) :=
  (profile <- py_get details "client-profile" (JObj []);
   version <- py_get profile "kafka-version" (JStr "?");
   profile <- py_get details "client-profile" (JObj []);
   client_id <- py_get profile "client-id" (JStr "?");
   offset_refresh <- py_get details "offset-refresh" (JStr "?");
   topic_refresh <- py_get details "topic-refresh" (JStr "?");
   servers <- py_get details "servers" (JArr []);
   servers <- py_iter servers;
   servers <- py_join "," servers;
   Ok [text cluster; version; client_id; offset_refresh; topic_refresh; text servers])%result.

Definition report_clusters_table : M PrettyTable :=
  let report := new_table
    ["Cluster"; "Version"; "Client ID"; "Refresh Offsets"; "Refresh Topics"; "Servers"] in
  names <- clusters;;
  names <- lift (py_iter names);;
  for_each names (fun report cluster =>
    cluster <- as_name cluster;;
    details <- cluster_details cluster;;
    row <- lift (cluster_row cluster details);;
    mret (add_row row report)) report.

Definition newline : string := String "010" "".

Definition report_clusters : M string :=
  report <- report_clusters_table;;
  s <- lift (get_string None report);;
  mret (String.append s newline).

(** The body of the loop of [report_topics], once the offsets are there. *)
Definition topic_row (self : BurrowClient) (topic : string) (details : json)
    : result (list json) :=
  (offsets <- py_iter details;
   let partitions := Z.of_nat (length offsets) in
   max_offset <- py_max offsets;
   min_offset <- py_min offsets;
   formatted <- rmapM (format_number self) offsets;
   let offsets_string := String.concat "," formatted in
   if verbose self then
     Ok [text topic; JInt partitions; text offsets_string]
   else
     (min_offset <- format_number self min_offset;
      max_offset <- format_number self max_offset;
      Ok [text topic; JInt partitions; text min_offset; text max_offset]))%result.

(** One turn of the loop of [report_topics]. *)
Definition report_topics_step (self : BurrowClient) (cluster : string)
    (report : PrettyTable) (topic : json) : M PrettyTable :=
  passes <- lift (match_topic self topic);;
  if negb passes then mret report else
  topic <- as_name topic;;
  details <- topic_details cluster topic;;
  row <- lift (topic_row self topic details);;
  mret (add_row row report).

Definition report_topics_table (cluster : string) : M PrettyTable :=
  self <- get_self;;
  let report := new_table
    (if verbose self then ["Topic"; "Partitions"; "Offsets"]
     else ["Topic"; "Partitions"; "Min Offset"; "Max Offset"]) in
  names <- topics cluster;;
  names <- lift (py_iter names);;
  for_each names (report_topics_step self cluster) report.

Definition report_topics (cluster : string) : M string :=
  report <- report_topics_table cluster;;
  s <- lift (get_string (Some "Topic") report);;
  mret (String.append s newline).

(** [d.items()] *)
Definition py_items (d : json) : result (list (string * json)) :=
  match d with
  | JObj fields => Ok fields
  | _ => Raise AttributeError
  end.

(** One row of [report_consumers], for one entry of a topic's list. *)
Definition consumer_detail_row (self : BurrowClient) (consumer topic : string)
    (detail : json) : M (list json) :=
  owner <- lift (py_get detail "owner" (JStr "?"));;
  lag <- lift (py_get detail "current-lag" (JStr "?"));;
  offset_data <- lift (py_get detail "offsets" (JArr []));;
  offset_data <- lift (py_iter offset_data);;
  offsets <- lift (rmapM (fun offset => py_get offset "offset" (JInt 0)) offset_data);;
  timestamps <- lift (rmapM (fun offset => py_get offset "timestamp" (JInt 0)) offset_data);;
  max_offset <- lift (py_max offsets);;
  min_offset <- lift (py_min offsets);;
  max_timestamp <- lift (py_max timestamps);;
  lag <- lift (format_number self lag);;
  min_offset <- lift (format_number self min_offset);;
  max_offset <- lift (format_number self max_offset);;
  timestamp <- lift (format_number self max_timestamp);;
  date <- lift (timestamp_to_date max_timestamp);;
  age <- timestamp_to_age max_timestamp;;
  mret [text consumer; text topic; owner; text lag; text min_offset; text max_offset;
        text timestamp; text date; text age].

Definition report_consumers_table (cluster : string) : M PrettyTable :=
  self <- get_self;;
  let report := new_table
    ["Consumer Group"; "Topic"; "Owner"; "Current Lag"; "Min Offset"; "Max Offset";
     "Timestamp"; "Date"; "Age"] in
  names <- consumers cluster;;
  names <- lift (py_iter names);;
  for_each names (fun report consumer =>
    passes <- lift (match_consumer self consumer);;
    if negb passes then mret report else
    consumer <- as_name consumer;;
    consumer_details <- consumer_details cluster consumer;;
    items <- lift (py_items consumer_details);;
    for_each items (fun report '(topic, details) =>
      passes <- lift (match_topic self (JStr topic));;
      if negb passes then mret report else
      details <- lift (py_iter details);;
      for_each details (fun report detail =>
        row <- consumer_detail_row self consumer topic detail;;
        mret (add_row row report)) report) report) report.

Definition report_consumers (cluster : string) : M string :=
  report <- report_consumers_table cluster;;
  s <- lift (get_string (Some "Consumer Group") report);;
  mret (String.append s newline).

(** What the loop over the partitions of a status snapshot accumulates. *)
Record tally : Type := mkTally {
  t_topics : list (scalar * Z);
  t_owners : list scalar;
  t_max_offset : json;
  t_max_timestamp : json
}.

Definition empty_tally : tally :=
  {| t_topics := []; t_owners := []; t_max_offset := JInt 0; t_max_timestamp := JInt 0 |}.

(** The body of the loop over [partitions] in [report_consumer_status]. *)
Definition tally_partition (self : BurrowClient) (acc : tally) (partition_data : json)
    : result tally :=
  (partition_stats <- get_partition_stats partition_data;
   passes <- match_topic self (st_topic partition_stats);
   if negb passes then Ok acc else
   let offset := st_offset partition_stats in
   let timestamp := st_timestamp partition_stats in
   let topic := st_topic partition_stats in
   let owner := st_owner partition_stats in
   above <- py_gt offset (t_max_offset acc);
   let max_offset := if above then offset else t_max_offset acc in
   above <- py_gt timestamp (t_max_timestamp acc);
   let max_timestamp := if above then timestamp else t_max_timestamp acc in
   topics <- (if truthy topic then
                (topic <- hashable topic; Ok (dict_count topic (t_topics acc)))
              else Ok (t_topics acc));
   owners <- (if truthy owner then
                (owner <- hashable owner; Ok (set_add owner (t_owners acc)))
              else Ok (t_owners acc));
   Ok {| t_topics := topics; t_owners := owners; t_max_offset := max_offset;
         t_max_timestamp := max_timestamp |})%result.

Fixpoint tally_partitions (self : BurrowClient) (acc : tally) (partitions : list json)
    : result tally :=
  match partitions with
  | [] => Ok acc
  | partition_data :: rest =>
      (acc <- tally_partition self acc partition_data; tally_partitions self acc rest)%result
  end.

(** The lag of the status summary: that of the [maxlag] record when the
    snapshot has a truthy one. *)
Definition summary_lag (consumer_status : json) : result json :=
  (has_maxlag <- py_in "maxlag" consumer_status;
   maxlag_set <- (if has_maxlag then
                    (maxlag <- py_getitem consumer_status "maxlag"; Ok (truthy maxlag))
                  else Ok false);
   if maxlag_set then
     (maxlag <- py_getitem consumer_status "maxlag";
      maxlag_stats <- get_partition_stats maxlag;
      Ok (st_lag maxlag_stats))
   else Ok (JInt 0))%result.

(** [','.join(sorted(list(owners)))] *)
Definition owners_string (owners : list scalar) : result string :=
  (sorted <- py_sorted (map json_of_scalar owners); py_join "," sorted)%result.

(** [','.join(['{topic}[{partitions}]'.format(...) for ... in sorted(topics.items())])] *)
Definition topics_string (topics : list (scalar * Z)) : result string :=
  (sorted <- sort_by item_lt topics;
   Ok (String.concat ","
         (map (fun '(topic, partitions) =>
                 String.append (str_of_scalar topic)
                   (String.append "[" (String.append (str_of_int partitions) "]")))
              sorted)))%result.

(** One row of [report_consumer_status], for one consumer group. *)
Definition status_row (self : BurrowClient) (consumer : string) (consumer_status : json)
    : M (list json) :=
  lag <- lift (summary_lag consumer_status);;
  status <- lift (py_get consumer_status "status" (JStr "?"));;
  total_lag <- lift (py_get consumer_status "totallag" (JInt 0));;
  partitions <- lift (py_get consumer_status "partitions" (JArr []));;
  partitions <- lift (py_iter partitions);;
  acc <- lift (tally_partitions self empty_tally partitions);;
  let max_offset := t_max_offset acc in
  let max_timestamp := t_max_timestamp acc in
  if verbose self then
    owners_string <- lift (owners_string (t_owners acc));;
    topics_string <- lift (topics_string (t_topics acc));;
    lag <- lift (format_number self lag);;
    total_lag <- lift (format_number self total_lag);;
    offset <- lift (format_number self max_offset);;
    timestamp <- lift (format_number self max_timestamp);;
    date <- lift (timestamp_to_date max_timestamp);;
    age <- timestamp_to_age max_timestamp;;
    mret [text consumer; status; text lag; text total_lag; text offset; text timestamp;
          text date; text age; text owners_string; text topics_string]
  else
    lag <- lift (format_number self lag);;
    total_lag <- lift (format_number self total_lag);;
    offset <- lift (format_number self max_offset);;
    timestamp <- lift (format_number self max_timestamp);;
    date <- lift (timestamp_to_date max_timestamp);;
    age <- timestamp_to_age max_timestamp;;
    mret [text consumer; status; text lag; text total_lag; text offset; text timestamp;
          text date; text age].

Definition report_consumer_status_table (cluster : string) : M PrettyTable :=
  self <- get_self;;
  let report := new_table
    (if verbose self then
       ["Consumer Group"; "Status"; "Current Lag"; "Total Lag"; "Offset"; "Timestamp";
        "Date"; "Age"; "Owners"; "Topics"]
     else
       ["Consumer Group"; "Status"; "Current Lag"; "Total Lag"; "Offset"; "Timestamp";
        "Date"; "Age"]) in
  names <- consumers cluster;;
  names <- lift (py_iter names);;
  for_each names (fun report consumer =>
    passes <- lift (match_consumer self consumer);;
    if negb passes then mret report else
    consumer <- as_name consumer;;
    consumer_status <- consumer_status cluster consumer;;
    row <- status_row self consumer consumer_status;;
    mret (add_row row report)) report.

Definition report_consumer_status (cluster : string) : M string :=
  report <- report_consumer_status_table cluster;;
  s <- lift (get_string (Some "Consumer Group") report);;
  mret (String.append s newline).

(** One row of [report_consumer_partitions], for one partition. *)
Definition partition_row (self : BurrowClient) (consumer : string)
    (partition_stats : partition_stats) : M (list json) :=
  lag <- lift (format_number self (st_lag partition_stats));;
  offset <- lift (format_number self (st_offset partition_stats));;
  timestamp <- lift (format_number self (st_timestamp partition_stats));;
  date <- lift (timestamp_to_date (st_timestamp partition_stats));;
  age <- timestamp_to_age (st_timestamp partition_stats);;
  mret [text consumer; st_topic partition_stats; st_partition partition_stats;
        st_status partition_stats; text lag; st_owner partition_stats; text offset;
        text timestamp; text date; text age].

Definition report_consumer_partitions_table (cluster : string) : M PrettyTable :=
  self <- get_self;;
  let report := new_table
    ["Consumer Group"; "Topic"; "Partition"; "Status"; "Lag"; "Owner"; "Offset";
     "Timestamp"; "Date"; "Age"] in
  names <- consumers cluster;;
  names <- lift (py_iter names);;
  for_each names (fun report consumer =>
    passes <- lift (match_consumer self consumer);;
    if negb passes then mret report else
    consumer <- as_name consumer;;
    consumer_data <- consumer_status cluster consumer;;
    partitions <- lift (py_get consumer_data "partitions" (JArr []));;
    partitions <- lift (py_iter partitions);;
    for_each partitions (fun report partition_data =>
      partition_stats <- lift (get_partition_stats partition_data);;
      passes <- lift (match_topic self (st_topic partition_stats));;
      if negb passes then mret report else
      row <- partition_row self consumer partition_stats;;
      mret (add_row row report)) report) report.

Definition report_consumer_partitions (cluster : string) : M string :=
  report <- report_consumer_partitions_table cluster;;
  s <- lift (get_string (Some "Consumer Group") report);;
  mret (String.append s newline).

Definition when (b : bool) (m : M string) : M string :=
  if b then m else mret "".

(** [report]: the sections that are enabled, cluster by cluster. *)
Definition report : M string :=
  self <- get_self;;
  head <- when (enable_clusters self) report_clusters;;
  names <- clusters;;
  names <- lift (py_iter names);;
  for_each names (fun report cluster =>
    if enable_topics self || enable_consumers self ||
       enable_consumer_status self || enable_consumer_partitions self
    then
      cluster <- as_name cluster;;
      let heading :=
        String.append (String.append (String.append newline "### Cluster: ") cluster)
          (String.append " ###" (String.append newline newline)) in
      s1 <- when (enable_topics self) (report_topics cluster);;
      s2 <- when (enable_consumers self) (report_consumers cluster);;
      s3 <- when (enable_consumer_status self) (report_consumer_status cluster);;
      s4 <- when (enable_consumer_partitions self) (report_consumer_partitions cluster);;
      mret (String.append report (String.append heading (String.append s1
             (String.append s2 (String.append s3 s4)))))
    else mret report) head.

End Client.

(** ** The command line *)

(** What [arg_parser.parse_args()] returns. *)
Record Args : Type := mkArgs {
  arg_url : string;
  arg_api : string;
  arg_clusters : bool;
  arg_topics : bool;
  arg_consumers : bool;
  arg_status : bool;
  arg_partitions : bool;
  arg_filter_topic : option string;
  arg_filter_consumer : option string;
  arg_verbose : bool;
  arg_debug : bool;
  arg_decimal : bool
}.

(** The client the script builds from its arguments: the status summary is
    switched on when no section was asked for, then the attributes are
    assigned one by one to a new client. *)
Definition configure (args : Args) : BurrowClient :=
  let status :=
    if negb (arg_clusters args || arg_topics args || arg_consumers args
             || arg_status args || arg_partitions args)
    then true else arg_status args in
  let bc := init (arg_url args) (arg_api args) false false in
  mkClient (api bc) (url bc) (arg_verbose args) (arg_debug args) (arg_decimal args)
    (arg_clusters args) (arg_topics args) (arg_consumers args)
    status (arg_partitions args)
    (arg_filter_topic args) (arg_filter_consumer args) (_clusters bc)
    (_cluster_details bc) (_consumers bc) (_topics bc)
    (_topic_details bc) (_consumer_details bc) (_consumer_status bc).

(** [bc.output(bc.report())] *)
Definition main `{Externals} (args : Args) (w : World) : result unit * BurrowClient * World :=
  mbind report (fun text => output text) (configure args) w.

(** ** The data of the test suite *)

Module Fixtures.

Definition request_of (u host : string) : json :=
  JObj [("url", JStr u); ("host", JStr host)].

Definition RESPONSE_CLUSTERS : json :=
  JObj [("error", JBool false);
        ("message", JStr "cluster list returned");
        ("clusters", JArr [JStr "clustername1"; JStr "clustername2"]);
        ("request", JObj [("uri", JStr "/v2/kafka");
                          ("host", JStr "responding.host.example.com")])].

Definition DATA_CLUSTER_DETAILS : json :=
  JObj [("class-name", JStr "kafka");
        ("client-profile", JObj [("client-id", JStr "burrow-i001");
                                 ("kafka-version", JStr "0.8");
                                 ("name", JStr "default")]);
        ("offset-refresh", JInt 30);
        ("servers", JArr [JStr "kafka01.example.com:10251";
                          JStr "kafka02.example.com:10251";
                          JStr "kafka03.example.com:10251"]);
        ("topic-refresh", JInt 120)].

Definition RESPONSE_CLUSTER_DETAILS : json :=
  JObj [("error", JBool false);
        ("message", JStr "cluster module detail returned");
        ("module", DATA_CLUSTER_DETAILS);
        ("request", JObj [("host", JStr "responding.host.example.com");
                          ("url", JStr "/v3/kafka/tracking")])].

Definition RESPONSE_CONSUMERS : json :=
  JObj [("error", JBool false);
        ("message", JStr "consumer list returned");
        ("consumers", JArr [JStr "group1"; JStr "group2"]);
        ("request", request_of "/v3/kafka/clustername/consumer" "responding.host.example.com")].

Definition RESPONSE_TOPICS : json :=
  JObj [("error", JBool false);
        ("message", JStr "broker topic list returned");
        ("topics", JArr [JStr "topicA"; JStr "topicB"]);
        ("request", request_of "/v3/kafka/clustername/topic" "responding.host.example.com")].

Definition RESPONSE_TOPIC_DETAILS : json :=
  JObj [("error", JBool false);
        ("message", JStr "broker topic offsets returned");
        ("offsets", JArr [JInt 2290903; JInt 2898892; JInt 3902933; JInt 2328823]);
        ("request", request_of "/v3/kafka/clustername/topic/topicname"
                      "responding.host.example.com")].

Definition offset_entry (lag offset timestamp : Z) : json :=
  JObj [("lag", JInt lag); ("offset", JInt offset); ("timestamp", JInt timestamp)].

Definition DATA_CONSUMER_DETAILS : json :=
  JObj [("ConsumedTopicName",
         JArr [JObj [("current-lag", JInt 0);
                     ("offsets", JArr [offset_entry 0 2526 1511200836090;
                                       offset_entry 0 2527 1511321306786]);
                     ("owner", JStr "")]])].

Definition RESPONSE_CONSUMER_DETAILS : json :=
  JObj [("error", JBool false);
        ("message", JStr "consumer detail returned");
        ("request", JObj [("host", JStr "responding.host.example.com");
                          ("url", JStr "/v3/kafka/tracking/consumer/megaphone-bps")]);
        ("topics", DATA_CONSUMER_DETAILS)].

Definition partition_entry : json :=
  JObj [("complete", JInt 1);
        ("current_lag", JInt 0);
        ("end", offset_entry 25 2542 1511780580382);
        ("owner", JStr "");
        ("partition", JInt 0);
        ("start", offset_entry 20 2526 1511200836090);
        ("status", JStr "WARN");
        ("topic", JStr "topicA")].

(** The snapshot's own ["complete"] is the float [1.0] in the test data;
    no method reads it, and it is kept here as the equal integer. *)
Definition DATA_CONSUMER_STATUS : json :=
  JObj [("cluster", JStr "clustername");
        ("group", JStr "groupname");
        ("status", JStr "WARN");
        ("complete", JInt 1);
        ("maxlag", partition_entry);
        ("partitions", JArr [partition_entry])].

Definition RESPONSE_CONSUMER_STATUS : json :=
  JObj [("error", JBool false);
        ("message", JStr "consumer group status returned");
        ("status", DATA_CONSUMER_STATUS);
        ("request", request_of "/v3/kafka/clustername/consumer/groupname/status"
                      "responding.host.example.com")].

(** [request_values], the side effect the tests patch [request] with. *)
Definition request_values (paths : list string) : result json :=
  match paths with
  | [] => Ok RESPONSE_CLUSTERS
  | ["clustername1"] | ["clustername2"] => Ok RESPONSE_CLUSTER_DETAILS
  | ["clustername1"; "topic"] => Ok RESPONSE_TOPICS
  | ["clustername1"; "topic"; "topicA"] | ["clustername1"; "topic"; "topicB"] =>
      Ok RESPONSE_TOPIC_DETAILS
  | ["clustername1"; "consumer"] => Ok RESPONSE_CONSUMERS
  | ["clustername1"; "consumer"; "group1"] | ["clustername1"; "consumer"; "group2"] =>
      Ok RESPONSE_CONSUMER_DETAILS
  | ["clustername1"; "consumer"; "group1"; "lag"]
  | ["clustername1"; "consumer"; "group2"; "lag"] => Ok RESPONSE_CONSUMER_STATUS
  | _ => Raise RuntimeError
  end.

(** A server that answers a list of known paths below a base address. *)
Definition base : string := "http://127.0.0.1:8000/v3/kafka".

Fixpoint lookup_address (table : list (list string * json)) (address : string)
    : result json :=
  match table with
  | [] => Raise RuntimeError
  | (paths, data) :: rest =>
      if String.eqb (String.concat "/" (base :: paths)) address then Ok data
      else lookup_address rest address
  end.

Definition known_paths : list (list string) :=
  [ []; ["clustername1"]; ["clustername2"]; ["clustername1"; "topic"];
    ["clustername1"; "topic"; "topicA"]; ["clustername1"; "topic"; "topicB"];
    ["clustername1"; "consumer"];
    ["clustername1"; "consumer"; "group1"]; ["clustername1"; "consumer"; "group2"];
    ["clustername1"; "consumer"; "group1"; "lag"];
    ["clustername1"; "consumer"; "group2"; "lag"] ].

Definition test_table : list (list string * json) :=
  omap (fun paths =>
          match request_values paths with
          | Ok data => Some (paths, data)
          | Raise _ => None
          end) known_paths.

Definition cell_text (v : json) : string :=
  match v with
  | JStr s => s
  | JInt n => str_of_int n
  | JBool b => if b then "True" else "False"
  | JNull => "None"
  | JArr _ | JObj _ => "..."
  end.

(** Stand-ins for the libraries: dates are shown as their milliseconds,
    the clock stands still, a pattern is read as literal text, and a table
    is drawn as plain lines. *)
Definition library (table : list (list string * json)) : Externals :=
  {| http_get_json := fun _ address => lookup_address table address;
     re_compile := fun pattern => Ok (Regex.literal (list_ascii_of_string pattern));
     datetime := Z;
     timedelta := Z;
     fromtimestamp := fun ms => Ok ms;
     now := fun _ => 1511780580382;
     datetime_sub := Z.sub;
     str_datetime := str_of_int;
     str_timedelta := str_of_int;
     draw := fun names _ rows =>
       String.concat newline
         (String.concat " | " names :: map (fun r => String.concat " | " (map cell_text r)) rows)
  |}.

Definition test_library : Externals := library test_table.

(** [BurrowClient()] *)
Definition client : BurrowClient := init "http://127.0.0.1:8000" "v3/kafka" false false.

(** Payloads in which one field of a consumer-detail entry is missing. *)
Definition envelope (field : string) (payload : json) : json :=
  JObj [("error", JBool false); ("message", JStr "returned"); (field, payload)].

Definition DETAILS_WITHOUT_CURRENT_LAG : json :=
  JObj [("ConsumedTopicName",
         JArr [JObj [("offsets", JArr [offset_entry 0 2526 1511200836090;
                                       offset_entry 0 2527 1511321306786]);
                     ("owner", JStr "")]])].

Definition DETAILS_WITH_EMPTY_OFFSETS : json :=
  JObj [("ConsumedTopicName",
         JArr [JObj [("current-lag", JInt 0);
                     ("offsets", JArr []);
                     ("owner", JStr "")]])].

Definition DETAILS_WITHOUT_OFFSETS : json :=
  JObj [("ConsumedTopicName",
         JArr [JObj [("current-lag", JInt 0); ("owner", JStr "")]])].

(** The test server with the answer for one path replaced. *)
Definition answering (paths : list string) (data : json)
    (table : list (list string * json)) : list (list string * json) :=
  (paths, data) :: table.

Definition group1_details (details : json) : Externals :=
  library (answering ["clustername1"; "consumer"; "group1"] (envelope "topics" details)
             test_table).

(** Status snapshots for the owners column. *)
Definition partition_of (topic : string) (owner : option string) (index : Z) : json :=
  JObj ([("current_lag", JInt 0);
         ("end", offset_entry 25 2542 1511780580382)] ++
        match owner with Some o => [("owner", JStr o)] | None => [] end ++
        [("partition", JInt index); ("status", JStr "OK"); ("topic", JStr topic)]).

Definition STATUS_TWO_OWNERS : json :=
  JObj [("status", JStr "OK");
        ("totallag", JInt 0);
        ("partitions", JArr [partition_of "topicA" (Some "") 0;
                             partition_of "topicA" (Some "alice") 1])].

Definition STATUS_WITHOUT_MAXLAG : json :=
  JObj [("status", JStr "OK"); ("totallag", JInt 0); ("partitions", JArr [])].

Definition STATUS_ABSENT_OWNER : json :=
  JObj [("status", JStr "OK");
        ("totallag", JInt 0);
        ("partitions", JArr [partition_of "topicA" (Some "") 0;
                             partition_of "topicA" None 1])].

(** The test server with the topic list in the other order. *)
Definition topics_reversed : Externals :=
  library (answering ["clustername1"; "topic"]
             (envelope "topics" (JArr [JStr "topicB"; JStr "topicA"])) test_table).


End Fixtures.

(** ** Vocabulary of the statements *)

Definition is_comma (c : ascii) : bool := Ascii.eqb c ",".

(** The text with its commas taken out. *)
Definition ungroup (l : list ascii) : list ascii :=
  List.filter (fun c => negb (is_comma c)) l.

(** The number a digit string stands for, continuing from [acc]. *)
Fixpoint uint_value (acc : Z) (d : Decimal.uint) : Z :=
  match d with
  | Decimal.Nil => acc
  | Decimal.D0 d => uint_value (10 * acc + 0) d
  | Decimal.D1 d => uint_value (10 * acc + 1) d
  | Decimal.D2 d => uint_value (10 * acc + 2) d
  | Decimal.D3 d => uint_value (10 * acc + 3) d
  | Decimal.D4 d => uint_value (10 * acc + 4) d
  | Decimal.D5 d => uint_value (10 * acc + 5) d
  | Decimal.D6 d => uint_value (10 * acc + 6) d
  | Decimal.D7 d => uint_value (10 * acc + 7) d
  | Decimal.D8 d => uint_value (10 * acc + 8) d
  | Decimal.D9 d => uint_value (10 * acc + 9) d
  end.

(** Some prefix of [s] is in the language of [r]. *)
Definition matches_prefix (r : Regex.regex) (s : list ascii) : Prop :=
  exists u w, s = (u ++ w)%list /\ Regex.matches r u.

(** The order of strings that [<] decides. *)
Definition str_lt (s t : string) : Prop := str_ltb s t = true.
Definition str_le (s t : string) : Prop := str_ltb t s = false.

(** The value of a key of an object, or a default. *)
Definition field_or (default : json) (key : string) (fields : list (string * json)) : json :=
  match assoc key fields with
  | Some v => v
  | None => default
  end.

(** The fields of the [end] entry of a partition object, when it is an
    object itself. *)
Definition end_fields (fields : list (string * json)) : list (string * json) :=
  match assoc "end" fields with
  | Some (JObj e) => e
  | _ => []
  end.

(** The comparison of two lists, as [py_lt] makes it on [JArr]. *)
Fixpoint list_lt (xs ys : list json) : result bool :=
  match xs, ys with
  | [], [] => Ok false
  | [], _ :: _ => Ok true
  | _ :: _, [] => Ok false
  | x :: xs', y :: ys' => if py_eqb x y then list_lt xs' ys' else py_lt x y
  end.

(** Cells of one kind compare without raising. *)
Definition same_kind (a b : json) : bool :=
  match a, b with
  | JStr _, JStr _ => true
  | JInt _, JInt _ => true
  | _, _ => false
  end.

Inductive aligned : list json -> list json -> Prop :=
  | aligned_left ys : aligned [] ys
  | aligned_right xs : aligned xs []
  | aligned_cons x y xs ys :
      same_kind x y = true -> aligned xs ys -> aligned (x :: xs) (y :: ys).

(** The name in the first column of a row. *)
Definition row_name (row : list json) : string :=
  match row with
  | JStr name :: _ => name
  | _ => ""
  end.

Definition sorted_by_name (rows : list (list json)) : Prop :=
  StronglySorted (fun a b => str_le (row_name a) (row_name b)) rows.

(** The shape of a row of the topic report: a name, a count, then text. *)
Definition topic_row_shape (row : list json) : Prop :=
  exists name count cells, row = JStr name :: JInt count :: map JStr cells.

(** A name passes the topic filter. *)
Definition passes_topic `{Externals} (self : BurrowClient) (name : json) : bool :=
  match match_topic self name with
  | Ok true => true
  | _ => false
  end.

(** The largest and the smallest of a non-empty list of integers. *)
Definition list_max (z : Z) (l : list Z) : Z := fold_left Z.max l z.
Definition list_min (z : Z) (l : list Z) : Z := fold_left Z.min l z.

(** The text of an integer in the display mode of the client. *)
Definition number_text (self : BurrowClient) (n : Z) : string :=
  if decimal self then format_grouped n else str_of_int n.

(** A row with its sort key in front, as [get_rows] sorts it. *)
Definition keyed (row : list json) : list json := JStr (row_name row) :: row.

(** *** The cache accessors as one family *)

Inductive call : Type :=
  | CallClusters
  | CallClusterDetails (cluster : string)
  | CallTopics (cluster : string)
  | CallTopicDetails (cluster topic : string)
  | CallConsumers (cluster : string)
  | CallConsumerDetails (cluster consumer : string)
  | CallConsumerStatus (cluster consumer : string).

Definition perform `{Externals} (q : call) : M json :=
  match q with
  | CallClusters => clusters
  | CallClusterDetails cluster => cluster_details cluster
  | CallTopics cluster => topics cluster
  | CallTopicDetails cluster topic => topic_details cluster topic
  | CallConsumers cluster => consumers cluster
  | CallConsumerDetails cluster consumer => consumer_details cluster consumer
  | CallConsumerStatus cluster consumer => consumer_status cluster consumer
  end.

(** Where an accessor keeps its value: the [_clusters] attribute, or a key
    of one of the six dictionaries. *)
Inductive slot : Type :=
  | SlotClusters
  | SlotKey (c : cache) (key : string).

Definition slot_of (q : call) : slot :=
  match q with
  | CallClusters => SlotClusters
  | CallClusterDetails cluster => SlotKey ClusterDetails cluster
  | CallTopics cluster => SlotKey Topics cluster
  | CallTopicDetails cluster topic => SlotKey TopicDetails (pair_key cluster topic)
  | CallConsumers cluster => SlotKey Consumers cluster
  | CallConsumerDetails cluster consumer =>
      SlotKey ConsumerDetails (pair_key cluster consumer)
  | CallConsumerStatus cluster consumer =>
      SlotKey ConsumerStatus (pair_key cluster consumer)
  end.

(** The path an accessor asks the server for. *)
Definition paths_of (q : call) : list string :=
  match q with
  | CallClusters => []
  | CallClusterDetails cluster => [cluster]
  | CallTopics cluster => [cluster; "topic"]
  | CallTopicDetails cluster topic => [cluster; "topic"; topic]
  | CallConsumers cluster => [cluster; "consumer"]
  | CallConsumerDetails cluster consumer => [cluster; "consumer"; consumer]
  | CallConsumerStatus cluster consumer => [cluster; "consumer"; consumer; "lag"]
  end.

(** The value an accessor would return without asking the server. *)
Definition stored (s : slot) (self : BurrowClient) : option json :=
  match s with
  | SlotClusters => if truthy (_clusters self) then Some (_clusters self) else None
  | SlotKey c key => cache_of c self !! key
  end.

(** A sequence of accessor calls on one client; a call that raises leaves
    the client as it is and the sequence goes on. *)
Fixpoint run `{Externals} (qs : list call) (self : BurrowClient) (w : World)
    : BurrowClient * World :=
  match qs with
  | [] => (self, w)
  | q :: qs' => let '(_, self', w') := perform q self w in run qs' self' w'
  end.

Global Instance cache_eq_dec : EqDecision cache.
Proof. solve_decision. Defined.

Global Instance slot_eq_dec : EqDecision slot.
Proof. solve_decision. Defined.



(** A miss: the request is sent, and the payload is kept exactly when it
    is truthy. *)
Definition miss_outcome (s : slot) (address : string) (self : BurrowClient) (w : World)
    (r : result json) (self1 : BurrowClient) (w1 : World) : Prop :=
  requests w1 = address :: requests w
  /\ match r with
     | Ok v =>
         if truthy v
         then stored s self1 = Some v
              /\ forall s', s' <> s -> stored s' self1 = stored s' self
         else self1 = self
     | Raise _ => self1 = self
     end.

(** *** Vocabulary of the further properties *)

(** The character [c] occurs in [s]. *)
Definition has_char (c : ascii) (s : string) : bool :=
  existsb (Ascii.eqb c) (list_ascii_of_string s).

(** The part of an address after the API prefix. *)
Fixpoint path_suffix (paths : list string) : string :=
  match paths with
  | [] => ""
  | x :: rest => String.append "/" (String.append x (path_suffix rest))
  end.

(** The attributes no accessor assigns to. *)
Definition same_settings (a b : BurrowClient) : Prop :=
  api a = api b /\ url a = url b /\ verbose a = verbose b /\ debug a = debug b
  /\ decimal a = decimal b
  /\ enable_clusters a = enable_clusters b /\ enable_topics a = enable_topics b
  /\ enable_consumers a = enable_consumers b
  /\ enable_consumer_status a = enable_consumer_status b
  /\ enable_consumer_partitions a = enable_consumer_partitions b
  /\ filter_topic a = filter_topic b /\ filter_consumer a = filter_consumer b.

(** Nothing empty is kept in the client. *)
Definition holds_no_empty (self : BurrowClient) : Prop :=
  (_clusters self = JNull \/ truthy (_clusters self) = true)
  /\ forall c key v, cache_of c self !! key = Some v -> truthy v = true.

(** [v] put where the accessor of slot [s] keeps it. *)
Definition put (s : slot) (v : json) (self : BurrowClient) : BurrowClient :=
  match s with
  | SlotClusters =>
      mkClient (api self) (url self) (verbose self) (debug self) (decimal self)
        (enable_clusters self) (enable_topics self) (enable_consumers self)
        (enable_consumer_status self) (enable_consumer_partitions self)
        (filter_topic self) (filter_consumer self)
        v
        (_cluster_details self) (_consumers self) (_topics self)
        (_topic_details self) (_consumer_details self) (_consumer_status self)
  | SlotKey c key => store c key v self
  end.

(** After a call, the client is as before or has the truthy payload put
    in the slot of the call, which was empty. *)
Definition changed_by (q : call) (self : BurrowClient) (r : result json)
    (self1 : BurrowClient) : Prop :=
  self1 = self
  \/ exists v, r = Ok v /\ truthy v = true /\ stored (slot_of q) self = None
               /\ self1 = put (slot_of q) v self.

(** The normalized records of the partitions that pass the topic
    filter, in the order of the list. *)
Definition passing_stats `{Externals} (self : BurrowClient) (partitions : list json)
    : list partition_stats :=
  omap (fun p =>
          match get_partition_stats p with
          | Ok st => if passes_topic self (st_topic st) then Some st else None
          | Raise _ => None
          end) partitions.

(** The integer a cell holds, 0 when it holds none. *)
Definition as_int (v : json) : Z :=
  match v with
  | JInt n => n
  | _ => 0
  end.

(** [d.get(k, 0)] on a dict kept as its items *)
Fixpoint dict_get (k : scalar) (d : list (scalar * Z)) : Z :=
  match d with
  | [] => 0
  | (k', n) :: rest => if scalar_eqb k' k then n else dict_get k rest
  end.

(** How many records have the topic [topic]. *)
Definition count_topic (topic : string) (l : list partition_stats) : Z :=
  Z.of_nat (length (List.filter (fun st => py_eqb (st_topic st) (JStr topic)) l)).

(** How an item of the topic tally is shown, and the order of the names. *)
Definition item_text (item : scalar * Z) : string :=
  String.append (str_of_scalar (fst item))
    (String.append "[" (String.append (str_of_int (snd item)) "]")).

Definition item_le (a b : scalar * Z) : Prop :=
  str_le (str_of_scalar (fst a)) (str_of_scalar (fst b)).

Definition named (item : scalar * Z) : Prop := exists t, fst item = SStr t.


(** The heading of a cluster in the full report. *)
Definition heading (cluster : string) : string :=
  String.append (String.append (String.append newline "### Cluster: ") cluster)
    (String.append " ###" (String.append newline newline)).




(** The test server with one cluster only. *)
Definition one_cluster : Externals :=
  Fixtures.library (Fixtures.answering []
                      (Fixtures.envelope "clusters" (JArr [JStr "clustername1"]))
                      Fixtures.test_table).

(** [row] is the row of the partition report for the record [st] of a
    partition of [consumer]. *)
Definition partition_cells `{Externals} (self : BurrowClient) (consumer : string)
    (st : partition_stats) (row : list json) : Prop :=
  exists lag offset timestamp date age,
    format_number self (st_lag st) = Ok lag
    /\ format_number self (st_offset st) = Ok offset
    /\ format_number self (st_timestamp st) = Ok timestamp
    /\ timestamp_to_date (st_timestamp st) = Ok date
    /\ row = [text consumer; st_topic st; st_partition st; st_status st; text lag;
             st_owner st; text offset; text timestamp; text date; text age].

(** A row that begins with a name. *)
Definition named_row (row : list json) : Prop := exists name rest, row = JStr name :: rest.

(** [text] is the table [tbl] drawn with its rows in the order of their
    names. *)
Definition drawn_by_name `{Externals} (tbl : PrettyTable) (text : string) : Prop :=
  exists drawn,
    Permutation (rows tbl) drawn
    /\ sorted_by_name drawn
    /\ text = String.append (draw (field_names tbl) "l" drawn) newline.

(** A method that leaves the settings of the client alone and, with
    [debug] off, writes nothing. *)
Definition quiet {A} (m : M A) : Prop :=
  forall c w r c' w',
    m c w = (r, c', w') ->
    same_settings c c' /\ (debug c = false -> stdout w' = stdout w).

(** A name passes the consumer filter. *)
Definition passes_consumer `{Externals} (self : BurrowClient) (name : json) : bool :=
  match match_consumer self name with
  | Ok true => true
  | _ => false
  end.

(** *** Runs of the loops of the reports *)

(** A run of a loop over a list from the state [c], [w]: [step] relates
    each item and the state in which its turn begins to the rows the turn
    adds and the state it leaves, which is the state in which the next
    turn begins.  The last turn leaves the state [c'], [w']. *)
Inductive loop_trace {A : Type}
    (step : A -> BurrowClient -> World -> list (list json)
            -> BurrowClient -> World -> Prop)
    : list A -> BurrowClient -> World -> list (list (list json))
      -> BurrowClient -> World -> Prop :=
  | loop_done (c : BurrowClient) (w : World) : loop_trace step [] c w [] c w
  | loop_next x l c w new c1 w1 news c' w' :
      step x c w new c1 w1 ->
      loop_trace step l c1 w1 news c' w' ->
      loop_trace step (x :: l) c w (new :: news) c' w'.

(** The headers of the topic report and of the status summary. *)
Definition topic_header (self : BurrowClient) : list string :=
  if verbose self then ["Topic"; "Partitions"; "Offsets"]
  else ["Topic"; "Partitions"; "Min Offset"; "Max Offset"].

Definition status_header (self : BurrowClient) : list string :=
  if verbose self then
    ["Consumer Group"; "Status"; "Current Lag"; "Total Lag"; "Offset"; "Timestamp";
     "Date"; "Age"; "Owners"; "Topics"]
  else
    ["Consumer Group"; "Status"; "Current Lag"; "Total Lag"; "Offset"; "Timestamp";
     "Date"; "Age"].

(** A turn of the loop of [report_topics] on the entry [item] of the topic
    list, begun in the state [c], [w]: a topic that does not pass the
    filter adds nothing and leaves the state; for one that passes, the
    details are what [topic_details] returns in that very state, and the
    row is made of them. *)
Definition topic_step `{Externals} (self : BurrowClient) (cluster : string)
    (item : json) (c : BurrowClient) (w : World) (new : list (list json))
    (c' : BurrowClient) (w' : World) : Prop :=
  exists passes,
    match_topic self item = Ok passes
    /\ if passes then
         exists topic details row,
           item = JStr topic
           /\ topic_details cluster topic c w = (Ok details, c', w')
           /\ topic_row self topic details = Ok row
           /\ new = [row]
       else new = [] /\ c' = c /\ w' = w.

(** The cells of a row of the status summary made for the snapshot
    [data]: the lag, the total lag and, in verbose mode, the owners. *)
Definition summary_cells `{Externals} (self : BurrowClient) (data : json)
    (row : list json) : Prop :=
  exists fields lag_t total_t partitions,
    data = JObj fields
    /\ nth_error row 2 = Some (text lag_t)
    /\ nth_error row 3 = Some (text total_t)
    /\ match assoc "maxlag" fields with
       | Some maxlag =>
           if truthy maxlag then
             exists st, get_partition_stats maxlag = Ok st
                        /\ format_number self (st_lag st) = Ok lag_t
           else lag_t = "0"
       | None => lag_t = "0"
       end
    /\ format_number self (field_or (JInt 0) "totallag" fields) = Ok total_t
    /\ py_iter (field_or (JArr []) "partitions" fields) = Ok partitions
    /\ (verbose self = true ->
        exists owners,
          nth_error row 8 = Some (text (String.concat "," owners))
          /\ StronglySorted str_lt owners
          /\ forall o, In o owners <->
               o <> "" /\
               exists p st, In p partitions /\ get_partition_stats p = Ok st
                            /\ match_topic self (st_topic st) = Ok true
                            /\ st_owner st = JStr o).

(** A turn of the loop of [report_consumer_status] on the entry [item]
    of the consumer list, begun in the state [c], [w]: for a consumer
    that passes the filter, the snapshot is what [consumer_status]
    returns in that very state, and the row is what [status_row] makes of
    it in the state the fetch left. *)
Definition status_step `{Externals} (self : BurrowClient) (cluster : string)
    (item : json) (c : BurrowClient) (w : World) (new : list (list json))
    (c' : BurrowClient) (w' : World) : Prop :=
  exists passes,
    match_consumer self item = Ok passes
    /\ if passes then
         exists name data c1 w1 row,
           item = JStr name
           /\ consumer_status cluster name c w = (Ok data, c1, w1)
           /\ status_row self name data c1 w1 = (Ok row, c', w')
           /\ summary_cells self data row
           /\ new = [row]
       else new = [] /\ c' = c /\ w' = w.

(** A turn of the inner loop of [report_consumer_partitions], on one
    partition of the snapshot of [consumer]. *)
Definition partition_turn `{Externals} (self : BurrowClient) (consumer : string)
    (item : json) (c : BurrowClient) (w : World) (new : list (list json))
    (c' : BurrowClient) (w' : World) : Prop :=
  exists st passes,
    get_partition_stats item = Ok st
    /\ match_topic self (st_topic st) = Ok passes
    /\ if passes then
         exists row, partition_row self consumer st c w = (Ok row, c', w') /\ new = [row]
       else new = [] /\ c' = c /\ w' = w.

(** A turn of the outer loop of [report_consumer_partitions]: the
    snapshot is what [consumer_status] returns in the state in which the
    turn begins, and the inner loop runs over its partitions from the
    state the fetch left. *)
Definition partition_step `{Externals} (self : BurrowClient) (cluster : string)
    (item : json) (c : BurrowClient) (w : World) (group : list (list json))
    (c' : BurrowClient) (w' : World) : Prop :=
  exists passes,
    match_consumer self item = Ok passes
    /\ if passes then
         exists name data c1 w1 listed partitions news,
           item = JStr name
           /\ consumer_status cluster name c w = (Ok data, c1, w1)
           /\ py_get data "partitions" (JArr []) = Ok listed
           /\ py_iter listed = Ok partitions
           /\ loop_trace (partition_turn self name) partitions c1 w1 news c' w'
           /\ group = concat news
       else group = [] /\ c' = c /\ w' = w.

(** The three loops of [report_consumers], from the innermost: over the
    entries of a topic, over the topics of a consumer, over the
    consumers.  The details are what [consumer_details] returns in the
    state in which the turn of the consumer begins. *)
Definition entry_turn `{Externals} (self : BurrowClient) (consumer topic : string)
    (entry : json) (c : BurrowClient) (w : World) (new : list (list json))
    (c' : BurrowClient) (w' : World) : Prop :=
  exists row,
    consumer_detail_row self consumer topic entry c w = (Ok row, c', w') /\ new = [row].

Definition topic_turn `{Externals} (self : BurrowClient) (consumer : string)
    (item : string * json) (c : BurrowClient) (w : World) (group : list (list json))
    (c' : BurrowClient) (w' : World) : Prop :=
  exists passes,
    match_topic self (JStr (fst item)) = Ok passes
    /\ if passes then
         exists entries news,
           py_iter (snd item) = Ok entries
           /\ loop_trace (entry_turn self consumer (fst item)) entries c w news c' w'
           /\ group = concat news
       else group = [] /\ c' = c /\ w' = w.

Definition consumer_step `{Externals} (self : BurrowClient) (cluster : string)
    (item : json) (c : BurrowClient) (w : World) (group : list (list json))
    (c' : BurrowClient) (w' : World) : Prop :=
  exists passes,
    match_consumer self item = Ok passes
    /\ if passes then
         exists name data c1 w1 topics groups,
           item = JStr name
           /\ consumer_details cluster name c w = (Ok data, c1, w1)
           /\ py_items data = Ok topics
           /\ loop_trace (topic_turn self name) topics c1 w1 groups c' w'
           /\ group = concat groups
       else group = [] /\ c' = c /\ w' = w.

(** The test server with the status snapshot of group1 replaced, and a
    snapshot whose [maxlag] record has a lag of its own. *)
Definition status_server (data : json) : Externals :=
  Fixtures.library (Fixtures.answering ["clustername1"; "consumer"; "group1"; "lag"]
                      (Fixtures.envelope "status" data) Fixtures.test_table).

Definition STATUS_WITH_MAXLAG : json :=
  JObj [("status", JStr "WARN");
        ("totallag", JInt 12);
        ("maxlag", JObj [("current_lag", JInt 7);
                         ("end", Fixtures.offset_entry 9 2542 1511780580382);
                         ("owner", JStr "alice");
                         ("partition", JInt 0);
                         ("status", JStr "WARN");
                         ("topic", JStr "topicA")]);
        ("partitions", JArr [Fixtures.partition_of "topicA" (Some "alice") 0])].

(** * Properties *)

(** ** Decimal text of integers *)

Section Digits.

Lemma digit_not_comma c : is_digit c = true -> is_comma c = false.
Proof.
  unfold is_digit, is_comma. intros Hd.
  destruct (Ascii.eqb_spec c ","%char) as [->|]; [discriminate Hd | reflexivity].
Qed.

Lemma string_of_uint_digits (d : Decimal.uint) :
  Forall (fun c => is_digit c = true) (list_ascii_of_string (NilEmpty.string_of_uint d)).
Proof.
  induction d; simpl; constructor; auto.
Qed.

Lemma nilzero_uint_digits (d : Decimal.uint) :
  Forall (fun c => is_digit c = true) (list_ascii_of_string (NilZero.string_of_uint d)).
Proof.
  destruct d; try apply (string_of_uint_digits (_ _)).
  simpl. constructor; auto.
Qed.

Lemma str_of_int_nonneg_digits (n : Z) :
  0 <= n -> Forall (fun c => is_digit c = true) (list_ascii_of_string (str_of_int n)).
Proof.
  intros Hn. unfold str_of_int. destruct n as [|p|p]; try lia.
  - simpl. constructor; auto.
  - apply nilzero_uint_digits.
Qed.

Lemma str_of_int_neg (n : Z) :
  n < 0 -> str_of_int n = String "-" (str_of_int (- n)).
Proof.
  intros Hn. destruct n as [|p|p]; try lia. reflexivity.
Qed.

(** Stepping through a list three items at a time. *)
Lemma list_ind3 {A} (P : list A -> Prop) :
  P [] -> (forall a, P [a]) -> (forall a b, P [a; b]) ->
  (forall a b c l, P l -> P (a :: b :: c :: l)) ->
  forall l, P l.
Proof.
  intros H0 H1 H2 H3 l.
  assert (P l /\ (forall a, P (a :: l)) /\ (forall a b, P (a :: b :: l))) as [? _];
    [| assumption].
  induction l as [|x l (IH0 & IH1 & IH2)]; repeat split; auto.
Qed.

Lemma group3_step (a b c d : ascii) (l : list ascii) :
  group3 (a :: b :: c :: d :: l) = a :: b :: c :: ","%char :: group3 (d :: l).
Proof. reflexivity. Qed.

Lemma ungroup_cons (c : ascii) (l : list ascii) :
  ungroup (c :: l) = if is_comma c then ungroup l else c :: ungroup l.
Proof. unfold ungroup; simpl. destruct (is_comma c); reflexivity. Qed.

Lemma ungroup_group3 (l : list ascii) :
  Forall (fun c => is_comma c = false) l -> ungroup (group3 l) = l.
Proof.
  induction l as [| a | a b | a b c l IH] using list_ind3; intros Hl.
  - reflexivity.
  - inversion Hl as [|? ? Ha _]; subst. cbn [group3]. rewrite ungroup_cons, Ha. reflexivity.
  - inversion Hl as [|? ? Ha Hl']; subst. inversion Hl' as [|? ? Hb _]; subst.
    cbn [group3]. rewrite !ungroup_cons, Ha, Hb. reflexivity.
  - inversion Hl as [|? ? Ha Hl1]; subst. inversion Hl1 as [|? ? Hb Hl2]; subst.
    inversion Hl2 as [|? ? Hc Hl3]; subst.
    destruct l as [|d l].
    + cbn [group3]. rewrite !ungroup_cons, Ha, Hb, Hc. reflexivity.
    + rewrite group3_step, !ungroup_cons, Ha, Hb, Hc. cbn [is_comma Ascii.eqb Bool.eqb].
      rewrite (IH Hl3). reflexivity.
Qed.

Lemma group3_commas (l : list ascii) :
  Forall (fun c => is_comma c = false) l ->
  forall (i : nat) (c : ascii),
    nth_error (group3 l) i = Some c ->
    (is_comma c = true <-> exists k : nat, i = (4 * k + 3)%nat).
Proof.
  induction l as [| a | a b | a b c l IH] using list_ind3; intros Hl i x Hi.
  - destruct i; discriminate Hi.
  - inversion Hl as [|? ? Ha _]; subst.
    destruct i as [|i]; [|destruct i; discriminate Hi].
    injection Hi as <-. rewrite Ha. split; [discriminate | intros [k Hk]; lia].
  - inversion Hl as [|? ? Ha Hl']; subst. inversion Hl' as [|? ? Hb _]; subst.
    destruct i as [|[|i]]; [| |destruct i; discriminate Hi];
      injection Hi as <-; rewrite ?Ha, ?Hb; (split; [discriminate | intros [k Hk]; lia]).
  - inversion Hl as [|? ? Ha Hl1]; subst. inversion Hl1 as [|? ? Hb Hl2]; subst.
    inversion Hl2 as [|? ? Hc Hl3]; subst.
    destruct l as [|d l].
    + destruct i as [|[|[|i]]]; [| | |destruct i; discriminate Hi];
        injection Hi as <-; rewrite ?Ha, ?Hb, ?Hc;
        (split; [discriminate | intros [k Hk]; lia]).
    + rewrite group3_step in Hi.
      destruct i as [|[|[|[|i]]]].
      * injection Hi as <-. rewrite Ha. split; [discriminate | intros [k Hk]; lia].
      * injection Hi as <-. rewrite Hb. split; [discriminate | intros [k Hk]; lia].
      * injection Hi as <-. rewrite Hc. split; [discriminate | intros [k Hk]; lia].
      * injection Hi as <-. split; [intros _; exists 0%nat; lia | reflexivity].
      * cbn [nth_error] in Hi. rewrite (IH Hl3 i x Hi).
        split; intros [k Hk]; [exists (S k) | exists (pred k)]; lia.
Qed.

Lemma group3_last (l : list ascii) (c : ascii) :
  exists pre, group3 (l ++ [c])%list = (pre ++ [c])%list.
Proof.
  induction l as [| a | a b | a b c0 l IH] using list_ind3.
  - exists []. reflexivity.
  - exists [a]. reflexivity.
  - exists [a; b]. reflexivity.
  - destruct IH as [pre Hpre].
    exists (a :: b :: c0 :: ","%char :: pre).
    destruct l as [|d l]; cbn [app] in *.
    + cbn [group3] in *. destruct pre as [|x [|y pre]]; simplify_eq/=. reflexivity.
    + rewrite group3_step, Hpre. reflexivity.
Qed.

Lemma chars_append (s t : string) :
  list_ascii_of_string (String.append s t)
  = (list_ascii_of_string s ++ list_ascii_of_string t)%list.
Proof.
  induction s as [|c s IH]; [reflexivity|].
  change (list_ascii_of_string (String.append (String c s) t))
    with (c :: list_ascii_of_string (String.append s t)).
  rewrite IH. reflexivity.
Qed.

Lemma ungroup_rev (l : list ascii) : ungroup (rev l) = rev (ungroup l).
Proof.
  induction l as [|c l IH]; [reflexivity|].
  cbn [rev]. unfold ungroup in *. rewrite List.filter_app, IH. cbn [List.filter].
  destruct (negb (is_comma c)); cbn [rev]; [reflexivity | apply app_nil_r].
Qed.

Lemma digits_no_comma (l : list ascii) :
  Forall (fun c => is_digit c = true) l -> Forall (fun c => is_comma c = false) l.
Proof. intros Hl. eapply List.Forall_impl; [|exact Hl]. apply digit_not_comma. Qed.

Lemma format_grouped_abs (n : Z) :
  format_grouped n
  = String.append (if n <? 0 then "-" else "") (format_grouped (Z.abs n)).
Proof.
  unfold format_grouped. rewrite Z.abs_idemp.
  replace (Z.abs n <? 0) with false by (symmetry; apply Z.ltb_ge; lia).
  reflexivity.
Qed.

Lemma chars_format_grouped_abs (n : Z) :
  list_ascii_of_string (format_grouped (Z.abs n))
  = rev (group3 (rev (list_ascii_of_string (str_of_int (Z.abs n))))).
Proof.
  unfold format_grouped. rewrite Z.abs_idemp.
  replace (Z.abs n <? 0) with false by (symmetry; apply Z.ltb_ge; lia).
  cbn [String.append]. apply list_ascii_of_string_of_list_ascii.
Qed.

Lemma ungroup_format_grouped (n : Z) :
  ungroup (list_ascii_of_string (format_grouped n)) = list_ascii_of_string (str_of_int n).
Proof.
  assert (Habs : ungroup (list_ascii_of_string (format_grouped (Z.abs n)))
                 = list_ascii_of_string (str_of_int (Z.abs n))).
  { rewrite chars_format_grouped_abs, ungroup_rev, ungroup_group3, rev_involutive;
      [reflexivity|].
    apply Forall_rev, digits_no_comma, str_of_int_nonneg_digits. lia. }
  rewrite format_grouped_abs, chars_append.
  destruct (Z.ltb_spec n 0) as [Hn|Hn].
  - rewrite (str_of_int_neg n Hn). cbn [list_ascii_of_string app].
    rewrite ungroup_cons. cbn [is_comma Ascii.eqb Bool.eqb].
    rewrite Habs. rewrite Z.abs_neq by lia. reflexivity.
  - cbn [list_ascii_of_string app]. rewrite Habs, Z.abs_eq by lia. reflexivity.
Qed.

Lemma format_grouped_commas (n : Z) (i : nat) (c : ascii) :
  nth_error (rev (list_ascii_of_string (format_grouped (Z.abs n)))) i = Some c ->
  (c = ","%char <-> exists k : nat, i = (4 * k + 3)%nat).
Proof.
  rewrite chars_format_grouped_abs, rev_involutive. intros Hi.
  rewrite <- (group3_commas _ (digits_no_comma _
               (Forall_rev (str_of_int_nonneg_digits _ (Z.abs_nonneg n)))) i c Hi).
  unfold is_comma. destruct (Ascii.eqb_spec c ","%char); split; congruence.
Qed.

Lemma format_grouped_starts_with_digit (n : Z) :
  exists c rest, format_grouped (Z.abs n) = String c rest /\ is_digit c = true.
Proof.
  pose proof (str_of_int_nonneg_digits _ (Z.abs_nonneg n)) as Hd.
  pose proof (chars_format_grouped_abs n) as Hc.
  destruct (list_ascii_of_string (str_of_int (Z.abs n))) as [|d ds] eqn:E.
  - exfalso. unfold str_of_int in E. destruct (Z.abs n) as [|p|p]; try discriminate E.
    + cbn in E. pose proof (DecimalPos.Unsigned.to_uint_nonnil p) as Hne.
      destruct (Pos.to_uint p); try contradiction; discriminate E.
  - inversion Hd as [|? ? Hdig _]; subst.
    cbn [rev] in Hc. destruct (group3_last (rev ds) d) as [pre Hpre].
    rewrite Hpre, rev_app_distr in Hc. cbn [rev app] in Hc.
    exists d, (string_of_list_ascii (rev pre)). split; [|exact Hdig].
    rewrite <- (string_of_list_ascii_of_string (format_grouped (Z.abs n))), Hc.
    reflexivity.
Qed.

(** *** Reading back what [str] printed *)

Lemma of_uint_acc_value (d : Decimal.uint) (acc : positive) :
  Z.pos (Pos.of_uint_acc d acc) = uint_value (Z.pos acc) d.
Proof.
  revert acc. induction d; intros acc; cbn [Pos.of_uint_acc uint_value];
    rewrite ?IHd; try reflexivity; f_equal; lia.
Qed.

Lemma of_uint_value (d : Decimal.uint) : Z.of_N (Pos.of_uint d) = uint_value 0 d.
Proof.
  induction d; cbn [Pos.of_uint uint_value]; rewrite ?IHd; try reflexivity;
    cbn [Z.of_N]; rewrite of_uint_acc_value; reflexivity.
Qed.

Lemma parse_digits_uint (d : Decimal.uint) (acc : Z) (b : bool) :
  (d <> Decimal.Nil \/ b = true) ->
  parse_digits acc b (list_ascii_of_string (NilEmpty.string_of_uint d))
  = Some (uint_value acc d).
Proof.
  revert acc b. induction d; intros acc b Hb;
    cbn [NilEmpty.string_of_uint list_ascii_of_string parse_digits uint_value];
    try (match goal with
         | |- context [is_digit (Ascii ?a0 ?a1 ?a2 ?a3 ?a4 ?a5 ?a6 ?a7)] =>
             change (is_digit (Ascii a0 a1 a2 a3 a4 a5 a6 a7)) with true
         end; cbv iota; rewrite IHd by auto; reflexivity).
  destruct Hb as [Hd | ->]; [contradiction | reflexivity].
Qed.

Lemma lstrip_id (l : list ascii) :
  match l with [] => True | c :: _ => is_space c = false end -> lstrip l = l.
Proof. destruct l as [|c l]; [reflexivity|]. simpl. intros ->. reflexivity. Qed.

Lemma digit_not_space c : is_digit c = true -> is_space c = false.
Proof.
  unfold is_digit, is_space. intros Hd.
  apply andb_true_iff in Hd as [H1 H2].
  apply Nat.leb_le in H1. apply Nat.leb_le in H2.
  apply orb_false_iff; split.
  - apply andb_false_iff. right. apply Nat.leb_gt. lia.
  - apply Nat.eqb_neq. lia.
Qed.

Lemma strip_id (l : list ascii) :
  Forall (fun c => is_space c = false) l -> strip l = l.
Proof.
  intros Hl. unfold strip.
  rewrite (lstrip_id l) by (destruct Hl; auto).
  rewrite lstrip_id; [apply rev_involutive|].
  apply Forall_rev in Hl. destruct Hl; auto.
Qed.

Lemma int_of_str_of_int (n : Z) : int_of_str (str_of_int n) = Some n.
Proof.
  unfold int_of_str, str_of_int.
  destruct n as [|p|p].
  - reflexivity.
  - cbn [Z.to_int NilZero.string_of_int].
    assert (Hne : Pos.to_uint p <> Decimal.Nil) by apply DecimalPos.Unsigned.to_uint_nonnil.
    assert (Hs : NilZero.string_of_uint (Pos.to_uint p)
                 = NilEmpty.string_of_uint (Pos.to_uint p)).
    { destruct (Pos.to_uint p); [contradiction | reflexivity..]. }
    rewrite Hs.
    pose proof (string_of_uint_digits (Pos.to_uint p)) as Hd.
    rewrite strip_id
      by (eapply List.Forall_impl; [|exact Hd]; intros; by apply digit_not_space).
    assert (Hv : uint_value 0 (Pos.to_uint p) = Z.pos p).
    { rewrite <- of_uint_value, DecimalPos.Unsigned.of_to. reflexivity. }
    destruct (list_ascii_of_string (NilEmpty.string_of_uint (Pos.to_uint p)))
      as [|c l] eqn:El.
    + destruct (Pos.to_uint p); try contradiction; discriminate El.
    + inversion Hd as [|? ? Hc _]; subst.
      destruct c as [[|] [|] [|] [|] [|] [|] [|] [|]]; try discriminate Hc;
        cbv beta iota; rewrite <- El, parse_digits_uint by auto; congruence.
  - cbn [Z.to_int NilZero.string_of_int].
    assert (Hne : Pos.to_uint p <> Decimal.Nil) by apply DecimalPos.Unsigned.to_uint_nonnil.
    assert (Hs : NilZero.string_of_uint (Pos.to_uint p)
                 = NilEmpty.string_of_uint (Pos.to_uint p)).
    { destruct (Pos.to_uint p); [contradiction | reflexivity..]. }
    rewrite Hs.
    pose proof (string_of_uint_digits (Pos.to_uint p)) as Hd.
    assert (Hv : uint_value 0 (Pos.to_uint p) = Z.pos p).
    { rewrite <- of_uint_value, DecimalPos.Unsigned.of_to. reflexivity. }
    cbn [list_ascii_of_string].
    rewrite strip_id.
    + rewrite parse_digits_uint by auto. cbn [option_map]. rewrite Hv. reflexivity.
    + constructor; [reflexivity|].
      eapply List.Forall_impl; [|exact Hd]; intros; by apply digit_not_space.
Qed.

End Digits.

(** ** [format_number] *)

(** C8. For every integer [n], [format_number] returns the plain decimal
    text of [n] when the decimal mode is off and the comma-grouped text
    when it is on.  The plain text reads back as [n]; the grouped text is
    the plain text with commas put in: taking them out gives the plain text
    back, and counted from the right exactly every fourth character of the
    grouped digits is a comma, the leftmost character being a digit.  For
    1234567 the two texts are "1234567" and "1,234,567". *)
Theorem format_number_of_int (self : BurrowClient) (n : Z) :
  format_number self (JInt n)
    = Ok (if decimal self then format_grouped n else str_of_int n)
  /\ int_of_str (str_of_int n) = Some n
  /\ format_grouped n
     = String.append (if n <? 0 then "-" else "") (format_grouped (Z.abs n))
  /\ ungroup (list_ascii_of_string (format_grouped n))
     = list_ascii_of_string (str_of_int n)
  /\ (forall (i : nat) (c : ascii),
        nth_error (rev (list_ascii_of_string (format_grouped (Z.abs n)))) i = Some c ->
        (c = ","%char <-> exists k : nat, i = (4 * k + 3)%nat))
  /\ (exists c rest, format_grouped (Z.abs n) = String c rest /\ is_digit c = true)
  /\ format_grouped 1234567 = "1,234,567"
  /\ str_of_int 1234567 = "1234567".
Proof.
  split.
  { unfold format_number. cbn [py_int rbind]. destruct (decimal self); reflexivity. }
  split; [apply int_of_str_of_int|].
  split; [apply format_grouped_abs|].
  split; [apply ungroup_format_grouped|].
  split; [apply format_grouped_commas|].
  split; [apply format_grouped_starts_with_digit|].
  split; reflexivity.
Qed.

(** The two modes on the number of the specification. *)
Lemma format_number_of_int_witness :
  format_number (Fixtures.client) (JInt 1234567) = Ok "1234567"
  /\ nth_error (rev (list_ascii_of_string (format_grouped (Z.abs 1234567)))) 3
     = Some ","%char
  /\ (","%char = ","%char <-> exists k : nat, 3%nat = (4 * k + 3)%nat).
Proof.
  destruct (format_number_of_int Fixtures.client 1234567) as (H1 & _ & _ & _ & H5 & _).
  split; [exact H1|]. split; [reflexivity|].
  apply (H5 3%nat ","%char). reflexivity.
Defined.

(** ** Regular expressions: the matcher against the language *)

Section RegexFacts.
Import Regex.

Lemma nullable_matches (r : regex) : nullable r = true <-> matches r [].
Proof.
  split.
  - induction r; cbn [nullable]; intros Hn; try discriminate Hn.
    + constructor.
    + apply orb_true_iff in Hn as [Hn|Hn]; [apply MAltL | apply MAltR]; auto.
    + apply andb_true_iff in Hn as [H1 H2].
      change (@nil ascii) with (@nil ascii ++ [])%list. constructor; auto.
    + constructor.
  - intros Hm. remember (@nil ascii) as w eqn:Hw.
    induction Hm; cbn [nullable]; try reflexivity; try discriminate Hw.
    + rewrite IHHm by assumption. reflexivity.
    + rewrite IHHm by assumption. apply orb_true_r.
    + apply app_eq_nil in Hw as [-> ->].
      rewrite IHHm1, IHHm2 by reflexivity. reflexivity.
Qed.

Lemma star_cons_inv (r : regex) (c : ascii) (w : list ascii) :
  matches (Star r) (c :: w) ->
  exists u v, w = (u ++ v)%list /\ matches r (c :: u) /\ matches (Star r) v.
Proof.
  intros Hm. remember (Star r) as s eqn:Hs. remember (c :: w) as cw eqn:Hcw.
  revert w Hcw.
  induction Hm as [| | | | | |r0 u v Hu _ Hv IHv]; intros w' Hcw;
    try discriminate Hs; try discriminate Hcw.
  injection Hs as ->.
  destruct u as [|x u].
  - simpl in Hcw. apply IHv; auto.
  - simpl in Hcw. injection Hcw as -> <-. eauto.
Qed.

Lemma deriv_matches (c : ascii) (r : regex) (w : list ascii) :
  matches (deriv c r) w <-> matches r (c :: w).
Proof.
  revert w. induction r as [| |p|r1 IH1 r2 IH2|r1 IH1 r2 IH2|r IH]; intros w;
    cbn [deriv].
  - split; intros Hm; inversion Hm.
  - split; intros Hm; inversion Hm.
  - destruct (p c) eqn:Hp; split; intros Hm; inversion Hm; subst.
    + constructor. exact Hp.
    + constructor.
    + congruence.
  - split; intros Hm; inversion Hm; subst.
    + apply MAltL, IH1; assumption.
    + apply MAltR, IH2; assumption.
    + apply MAltL, IH1; assumption.
    + apply MAltR, IH2; assumption.
  - assert (Hcat : forall v, matches (Cat (deriv c r1) r2) v -> matches (Cat r1 r2) (c :: v)).
    { intros v Hm. inversion Hm; subst.
      change (c :: u ++ v0)%list with ((c :: u) ++ v0)%list.
      constructor; [apply IH1|]; assumption. }
    assert (Hinv : forall v, matches (Cat r1 r2) (c :: v) ->
              matches (Cat (deriv c r1) r2) v \/ (matches r1 [] /\ matches r2 (c :: v))).
    { intros v Hm. remember (c :: v) as cv eqn:Hcv.
      inversion Hm as [| | | |? ? u v0 Hu Hv [E1 E2] Heq|  |]; subst.
      destruct u as [|x u]; simpl in Heq.
      - right. subst. auto.
      - left. injection Heq as -> <-. constructor; [apply IH1|]; assumption. }
    destruct (nullable r1) eqn:Hn.
    + split; intros Hm.
      * inversion Hm; subst; [apply Hcat; assumption|].
        change (c :: w) with ([] ++ c :: w)%list.
        constructor; [apply nullable_matches; exact Hn | apply IH2; assumption].
      * destruct (Hinv _ Hm) as [H|[_ H]]; [apply MAltL | apply MAltR, IH2]; assumption.
    + split; intros Hm; [apply Hcat; assumption|].
      destruct (Hinv _ Hm) as [H|[H _]]; [assumption|].
      apply nullable_matches in H. congruence.
  - split; intros Hm.
    + inversion Hm; subst.
      change (c :: u ++ v)%list with ((c :: u) ++ v)%list.
      constructor; [apply IH|]; assumption.
    + apply star_cons_inv in Hm as (u & v & -> & Hu & Hv).
      constructor; [apply IH|]; assumption.
Qed.

Lemma fullmatch_matches (r : regex) (s : list ascii) :
  fullmatch r s = true <-> matches r s.
Proof.
  revert r. induction s as [|c s IH]; intros r; cbn [fullmatch].
  - apply nullable_matches.
  - rewrite IH. apply deriv_matches.
Qed.

(** [match_at_start] accepts exactly the strings with a prefix in the
    language of the pattern. *)
Lemma match_at_start_prefix (r : regex) (s : list ascii) :
  match_at_start r s = true <-> matches_prefix r s.
Proof.
  unfold matches_prefix.
  revert r. induction s as [|c s IH]; intros r; cbn [match_at_start].
  - rewrite orb_false_r, nullable_matches. split.
    + intros Hm. exists [], []. auto.
    + intros (u & w & Hs & Hm). symmetry in Hs. apply app_eq_nil in Hs as [-> _].
      exact Hm.
  - rewrite orb_true_iff, nullable_matches, IH. split.
    + intros [Hm | (u & w & -> & Hm)].
      * exists [], (c :: s). auto.
      * exists (c :: u), w. split; [reflexivity|]. apply deriv_matches. exact Hm.
    + intros (u & w & Hs & Hm). destruct u as [|x u]; simpl in Hs.
      * left. exact Hm.
      * right. injection Hs as <- ->. exists u, w. split; [reflexivity|].
        apply deriv_matches. exact Hm.
Qed.

End RegexFacts.

(** ** Timestamps *)

(** C3 (the code departs from the claim).  A timestamp that is not a
    number makes [int] raise [ValueError] (a string such as "abc") or
    [TypeError] ([None]); the handler of both functions catches
    [RuntimeError] only, so the exception leaves the function and no "?"
    is returned, whatever the date library does. *)
Theorem timestamp_not_a_number_raises `{Externals} (self : BurrowClient) (w : World) :
  timestamp_to_date (JStr "abc") = Raise ValueError
  /\ timestamp_to_age (JStr "abc") self w = (Raise ValueError, self, w)
  /\ timestamp_to_date JNull = Raise TypeError
  /\ timestamp_to_age JNull self w = (Raise TypeError, self, w)
  /\ timestamp_to_date (JStr "abc") <> Ok "?"
  /\ fst (fst (timestamp_to_age (JStr "abc") self w)) <> Ok "?".
Proof.
  repeat split; try reflexivity; discriminate.
Qed.

(** ** The partition stats normalizer *)

Lemma get_partition_stats_obj (fields : list (string * json)) :
  get_partition_stats (JObj fields) =
  Ok {| st_topic := field_or (JStr "?") "topic" fields;
        st_lag := match assoc "current_lag" fields with
                  | Some current_lag => current_lag
                  | None => field_or (JInt 0) "lag" (end_fields fields)
                  end;
        st_offset := field_or (JInt 0) "offset" (end_fields fields);
        st_timestamp := field_or (JInt 0) "timestamp" (end_fields fields);
        st_status := field_or (JStr "?") "status" fields;
        st_owner := field_or (JStr "?") "owner" fields;
        st_partition := field_or (JStr "?") "partition" fields |}.
Proof.
  unfold get_partition_stats, field_or, end_fields. cbn [py_get py_in rbind].
  destruct (assoc "current_lag" fields) as [cl|];
    destruct (assoc "end" fields) as [[| | | | |e]|]; reflexivity.
Qed.

(** C2, as stated, fails: a record whose [current_lag] is [null] keeps
    [null] as its lag; 0 is not substituted. *)
Lemma get_partition_stats_null_current_lag :
  exists st,
    get_partition_stats
      (JObj [("current_lag", JNull); ("end", JObj [("lag", JInt 25)])]) = Ok st
    /\ st_lag st = JNull
    /\ st_lag st <> JInt 0.
Proof.
  eexists. split; [reflexivity|]. split; [reflexivity | discriminate].
Qed.

(** C2, amended.  For every partition object, the normalizer returns, and
    the lag is the value bound to [current_lag] whenever the key is there
    (whatever the value, [null] included), also when [end.lag] is there
    too; otherwise it is [end.lag], and 0 when [end] is not an object or
    has no [lag]. *)
Theorem get_partition_stats_lag (fields : list (string * json)) :
  exists st,
    get_partition_stats (JObj fields) = Ok st
    /\ st_lag st =
       match assoc "current_lag" fields with
       | Some current_lag => current_lag
       | None =>
           match assoc "end" fields with
           | Some (JObj end_) =>
               match assoc "lag" end_ with
               | Some lag => lag
               | None => JInt 0
               end
           | _ => JInt 0
           end
       end.
Proof.
  eexists. split; [apply get_partition_stats_obj|]. cbn [st_lag].
  unfold field_or, end_fields.
  destruct (assoc "current_lag" fields); [reflexivity|].
  destruct (assoc "end" fields) as [[| | | | |e]|]; reflexivity.
Qed.

(** ** The filters *)

Section Filters.
Context `{Externals}.

Lemma re_match_prefix (pattern value : string) (r : Regex.regex) :
  re_compile pattern = Ok r ->
  exists b, re_match pattern (JStr value) = Ok b
            /\ (b = true <-> matches_prefix r (list_ascii_of_string value)).
Proof.
  intros Hr. unfold re_match. rewrite Hr. cbn [rbind].
  eexists. split; [reflexivity|]. apply match_at_start_prefix.
Qed.

Lemma truthy_str (s : string) : s <> "" -> truthy (JStr s) = true.
Proof.
  intros Hs. cbn [truthy]. destruct (String.eqb_spec s ""); [contradiction | reflexivity].
Qed.

(** C5. With no pattern set the two filters answer true for every value;
    with a non-empty pattern they answer false for an absent or empty
    value; and for any other string they answer whether some prefix of
    the value is matched by the pattern: the match is anchored at the
    start only. *)
Theorem match_filter_rules (self : BurrowClient) :
  (filter_topic self = None -> forall value, match_topic self value = Ok true)
  /\ (forall pattern, filter_topic self = Some pattern -> pattern <> "" ->
        match_topic self JNull = Ok false /\ match_topic self (JStr "") = Ok false)
  /\ (forall pattern r value,
        filter_topic self = Some pattern -> pattern <> "" -> value <> "" ->
        re_compile pattern = Ok r ->
        exists b, match_topic self (JStr value) = Ok b
                  /\ (b = true <-> matches_prefix r (list_ascii_of_string value)))
  /\ (filter_consumer self = None -> forall value, match_consumer self value = Ok true)
  /\ (forall pattern, filter_consumer self = Some pattern -> pattern <> "" ->
        match_consumer self JNull = Ok false /\ match_consumer self (JStr "") = Ok false)
  /\ (forall pattern r value,
        filter_consumer self = Some pattern -> pattern <> "" -> value <> "" ->
        re_compile pattern = Ok r ->
        exists b, match_consumer self (JStr value) = Ok b
                  /\ (b = true <-> matches_prefix r (list_ascii_of_string value))).
Proof.
  unfold match_topic, match_consumer.
  split; [intros ->; reflexivity|].
  split; [intros pattern -> Hp; rewrite (truthy_str _ Hp); split; reflexivity|].
  split.
  { intros pattern r value -> Hp Hv Hr.
    rewrite (truthy_str _ Hp), (truthy_str _ Hv). cbn [negb].
    apply re_match_prefix. exact Hr. }
  split; [intros ->; reflexivity|].
  split; [intros pattern -> Hp; rewrite (truthy_str _ Hp); split; reflexivity|].
  intros pattern r value -> Hp Hv Hr.
  rewrite (truthy_str _ Hp), (truthy_str _ Hv). cbn [negb].
  apply re_match_prefix. exact Hr.
Qed.

(** C9. A pattern that is the empty string counts as no filter: both
    filters answer true for every value, the absent and the empty one
    included. *)
Theorem empty_pattern_is_no_filter (self : BurrowClient) (value : json) :
  match_topic (set_filter_topic (Some "") self) value = Ok true
  /\ match_consumer (set_filter_consumer (Some "") self) value = Ok true
  /\ match_topic (set_filter_topic (Some "") self) JNull = Ok true
  /\ match_topic (set_filter_topic (Some "") self) (JStr "") = Ok true
  /\ match_consumer (set_filter_consumer (Some "") self) JNull = Ok true
  /\ match_consumer (set_filter_consumer (Some "") self) (JStr "") = Ok true.
Proof. repeat split. Qed.

End Filters.

(** The filter "top" lets "topicA" pass although it does not match the
    whole name, and stops the empty and the absent name. *)
Lemma match_filter_rules_witness :
  let self := set_filter_consumer (Some "top") (set_filter_topic (Some "top") Fixtures.client) in
  (exists b, @match_topic Fixtures.test_library self (JStr "topicA") = Ok b
             /\ (b = true <->
                 matches_prefix (Regex.literal (list_ascii_of_string "top"))
                   (list_ascii_of_string "topicA")))
  /\ @match_topic Fixtures.test_library self (JStr "topicA") = Ok true
  /\ Regex.fullmatch (Regex.literal (list_ascii_of_string "top"))
       (list_ascii_of_string "topicA") = false
  /\ @match_topic Fixtures.test_library self JNull = Ok false
  /\ @match_consumer Fixtures.test_library self (JStr "") = Ok false
  /\ (forall value, @match_topic Fixtures.test_library Fixtures.client value = Ok true).
Proof.
  intros self.
  destruct (@match_filter_rules Fixtures.test_library self) as (_ & H2 & H3 & _ & H5 & _).
  destruct (@match_filter_rules Fixtures.test_library Fixtures.client) as (H1 & _).
  split.
  { apply (H3 "top"); [reflexivity | discriminate | discriminate | reflexivity]. }
  split; [reflexivity|]. split; [reflexivity|].
  split; [apply (H2 "top"); [reflexivity | discriminate]|].
  split; [apply (H5 "top"); [reflexivity | discriminate]|].
  apply H1. reflexivity.
Defined.

(** ** Missing fields in the consumer report *)

(** C4 (the code departs from the claim).  An entry of a consumer-detail
    payload without [current-lag] gets the default "?", which
    [format_number] then passes to [int]: [ValueError].  An entry whose
    [offsets] are empty or absent gets the empty list, of which [max] is
    taken: [ValueError] again.  Either aborts the row, whatever the
    libraries do, and with it the whole report of the test server. *)
Theorem report_consumers_missing_field_raises :
  (forall (E : Externals) (self : BurrowClient) (consumer topic : string)
          (owner : json) (c : BurrowClient) (w : World),
      @consumer_detail_row E self consumer topic
        (JObj [("offsets", JArr [Fixtures.offset_entry 0 2526 1511200836090]);
               ("owner", owner)]) c w
      = (Raise ValueError, c, w))
  /\ (forall (E : Externals) (self : BurrowClient) (consumer topic : string)
             (lag owner : json) (c : BurrowClient) (w : World),
        @consumer_detail_row E self consumer topic
          (JObj [("current-lag", lag); ("offsets", JArr []); ("owner", owner)]) c w
        = (Raise ValueError, c, w)
        /\ @consumer_detail_row E self consumer topic
             (JObj [("current-lag", lag); ("owner", owner)]) c w
           = (Raise ValueError, c, w))
  /\ fst (fst (@report_consumers
                 (Fixtures.group1_details Fixtures.DETAILS_WITHOUT_CURRENT_LAG)
                 "clustername1" Fixtures.client fresh_world))
     = Raise ValueError
  /\ fst (fst (@report_consumers
                 (Fixtures.group1_details Fixtures.DETAILS_WITH_EMPTY_OFFSETS)
                 "clustername1" Fixtures.client fresh_world))
     = Raise ValueError
  /\ fst (fst (@report_consumers
                 (Fixtures.group1_details Fixtures.DETAILS_WITHOUT_OFFSETS)
                 "clustername1" Fixtures.client fresh_world))
     = Raise ValueError
  /\ (forall self topic, topic_row self topic (JArr []) = Raise ValueError).
Proof.
  split; [reflexivity|].
  split; [intros; split; reflexivity|].
  split; [vm_compute; reflexivity|].
  split; [vm_compute; reflexivity|].
  split; [vm_compute; reflexivity|].
  reflexivity.
Qed.

(** ** The order of strings *)

Section StringOrder.

Lemma ascii_compare_lt_trans (a b c : ascii) :
  Ascii.compare a b = Lt -> Ascii.compare b c = Lt -> Ascii.compare a c = Lt.
Proof.
  unfold Ascii.compare. rewrite !N.compare_lt_iff. lia.
Qed.

Lemma str_compare_refl (s : string) : String.compare s s = Eq.
Proof.
  induction s as [|c s IH]; [reflexivity|]. cbn [String.compare].
  unfold Ascii.compare. rewrite N.compare_refl. exact IH.
Qed.

Lemma str_compare_lt_trans (a b c : string) :
  String.compare a b = Lt -> String.compare b c = Lt -> String.compare a c = Lt.
Proof.
  revert b c. induction a as [|x a IH]; intros [|y b] [|z c]; cbn [String.compare];
    try discriminate; try reflexivity.
  destruct (Ascii.compare x y) eqn:Hxy; try discriminate.
  - apply Ascii.compare_eq_iff in Hxy as ->.
    destruct (Ascii.compare y z); try discriminate; [apply IH | reflexivity].
  - intros _. destruct (Ascii.compare y z) eqn:Hyz; try discriminate; intros _.
    + apply Ascii.compare_eq_iff in Hyz as ->. rewrite Hxy. reflexivity.
    + rewrite (ascii_compare_lt_trans _ _ _ Hxy Hyz). reflexivity.
Qed.

Lemma str_le_cases (s t : string) : str_le s t <-> s = t \/ str_lt s t.
Proof.
  unfold str_le, str_lt, str_ltb. rewrite (String.compare_antisym t s).
  destruct (String.compare s t) eqn:Hc; cbn [CompOpp].
  - apply String.compare_eq_iff in Hc. intuition.
  - intuition.
  - split; [discriminate|]. intros [->|H]; [|discriminate H].
    rewrite str_compare_refl in Hc. discriminate Hc.
Qed.

Lemma str_lt_trans (a b c : string) : str_lt a b -> str_lt b c -> str_lt a c.
Proof.
  unfold str_lt, str_ltb. intros H1 H2.
  destruct (String.compare a b) eqn:Hab; try discriminate H1.
  destruct (String.compare b c) eqn:Hbc; try discriminate H2.
  rewrite (str_compare_lt_trans _ _ _ Hab Hbc). reflexivity.
Qed.

Lemma str_le_refl (s : string) : str_le s s.
Proof. apply str_le_cases. left. reflexivity. Qed.

Lemma str_le_trans (a b c : string) : str_le a b -> str_le b c -> str_le a c.
Proof.
  rewrite !str_le_cases. intros [->|H1] [->|H2]; auto.
  right. eapply str_lt_trans; eassumption.
Qed.

Lemma str_lt_le (a b : string) : str_lt a b -> str_le a b.
Proof. intros Hl. apply str_le_cases. right. exact Hl. Qed.

End StringOrder.

(** ** The insertion sort *)

Section SortBy.
Context {A : Type} (lt : A -> A -> result bool).

Lemma insert_by_perm (x : A) (l l' : list A) :
  insert_by lt x l = Ok l' -> Permutation (x :: l) l'.
Proof.
  revert l'. induction l as [|y l IH]; intros l'; cbn [insert_by].
  - intros [= <-]. reflexivity.
  - destruct (lt y x) as [[|]|e]; cbn [rbind]; try discriminate.
    + destruct (insert_by lt x l) as [r|e]; cbn [rbind]; try discriminate.
      intros [= <-]. rewrite perm_swap. constructor. apply IH. reflexivity.
    + intros [= <-]. reflexivity.
Qed.

Lemma sort_by_perm (l l' : list A) : sort_by lt l = Ok l' -> Permutation l l'.
Proof.
  revert l'. induction l as [|x l IH]; intros l'; cbn [sort_by].
  - intros [= <-]. reflexivity.
  - destruct (sort_by lt l) as [s|e]; cbn [rbind]; try discriminate.
    intros Hi. apply insert_by_perm in Hi. rewrite <- Hi. constructor. apply IH.
    reflexivity.
Qed.

Lemma insert_by_total (x : A) (l : list A) :
  (forall y, In y l -> is_ok (lt y x) = true) ->
  exists l', insert_by lt x l = Ok l'.
Proof.
  induction l as [|y l IH]; intros Hok; cbn [insert_by]; [eauto|].
  pose proof (Hok y (or_introl eq_refl)) as Hy.
  destruct (lt y x) as [[|]|e]; try discriminate Hy; cbn [rbind]; [|eauto].
  destruct IH as [r ->]; [intros z Hz; apply Hok; right; exact Hz|].
  cbn [rbind]. eauto.
Qed.

Lemma sort_by_total (l : list A) :
  (forall x y, In x l -> In y l -> is_ok (lt x y) = true) ->
  exists l', sort_by lt l = Ok l'.
Proof.
  induction l as [|x l IH]; intros Hok; cbn [sort_by]; [eauto|].
  destruct IH as [s Hs]; [intros a b Ha Hb; apply Hok; right; assumption|].
  rewrite Hs. cbn [rbind]. apply insert_by_total.
  intros y Hy. apply Hok; [right | left; reflexivity].
  eapply Permutation_in; [symmetry; eapply sort_by_perm; exact Hs | exact Hy].
Qed.

(** Sortedness for an order [le] that every answer of [lt] respects on
    the items at hand, those satisfying [P]. *)
Context (P : A -> Prop) (le : A -> A -> Prop).
Context (le_trans : forall a b c, le a b -> le b c -> le a c).
Context (lt_le : forall x y b, P x -> P y -> lt x y = Ok b -> if b then le x y else le y x).

Lemma insert_by_sorted (x : A) (l l' : list A) :
  P x -> Forall P l ->
  StronglySorted le l -> insert_by lt x l = Ok l' -> StronglySorted le l'.
Proof using le_trans lt_le.
  revert l'. induction l as [|y l IH]; intros l' Px Pl Hs; cbn [insert_by].
  - intros [= <-]. repeat constructor.
  - inversion Hs as [|? ? Hs' Hy]; subst.
    inversion Pl as [|? ? Py Pl']; subst.
    destruct (lt y x) as [[|]|e] eqn:Hyx; cbn [rbind]; try discriminate.
    + destruct (insert_by lt x l) as [r|e] eqn:Hr; cbn [rbind]; try discriminate.
      intros [= <-]. constructor; [apply IH; auto|].
      apply (Permutation_Forall (insert_by_perm _ _ _ Hr)).
      constructor; [exact (lt_le _ _ _ Py Px Hyx) | exact Hy].
    + intros [= <-]. pose proof (lt_le _ _ _ Py Px Hyx) as Hxy. cbn in Hxy.
      constructor; [exact Hs|]. constructor; [exact Hxy|].
      eapply List.Forall_impl; [|exact Hy]. intros z Hz. eapply le_trans; eassumption.
Qed.

Lemma sort_by_sorted (l l' : list A) :
  Forall P l -> sort_by lt l = Ok l' -> StronglySorted le l'.
Proof using le_trans lt_le.
  revert l'. induction l as [|x l IH]; intros l' Pl; cbn [sort_by].
  - intros [= <-]. constructor.
  - inversion Pl as [|? ? Px Pl']; subst.
    destruct (sort_by lt l) as [s|e] eqn:Hs; cbn [rbind]; try discriminate.
    apply insert_by_sorted; auto.
    apply (Permutation_Forall (sort_by_perm _ _ Hs)). exact Pl'.
Qed.

End SortBy.

(** ** The owners of a status snapshot *)

Section Owners.
Context `{Externals}.

Lemma scalar_eqb_refl (k : scalar) : scalar_eqb k k = true.
Proof.
  destruct k as [|b|n|s]; unfold scalar_eqb; cbn.
  - reflexivity.
  - destruct b; reflexivity.
  - apply Z.eqb_refl.
  - apply String.eqb_refl.
Qed.

Lemma scalar_eqb_str (s : string) (k : scalar) :
  scalar_eqb (SStr s) k = true -> k = SStr s.
Proof.
  destruct k as [|b|n|t]; unfold scalar_eqb; cbn; try discriminate.
  intros Hs. apply String.eqb_eq in Hs. congruence.
Qed.

Lemma hashable_json (v : json) (k : scalar) : hashable v = Ok k -> json_of_scalar k = v.
Proof.
  destruct v; cbn; intros Hk; try discriminate Hk; injection Hk as <-; reflexivity.
Qed.

Lemma set_add_incl (x k : scalar) (s : list scalar) : In k s -> In k (set_add x s).
Proof.
  unfold set_add. destruct (existsb (scalar_eqb x) s); [auto|].
  intros Hk. apply in_or_app. left. exact Hk.
Qed.

Lemma set_add_in (x : scalar) (s : list scalar) :
  exists k, In k (set_add x s) /\ scalar_eqb x k = true.
Proof.
  unfold set_add. destruct (existsb (scalar_eqb x) s) eqn:He.
  - apply existsb_exists in He as (k & Hk & Hx). eauto.
  - exists x. split; [apply in_or_app; right; left; reflexivity | apply scalar_eqb_refl].
Qed.

Lemma set_add_origin (x k : scalar) (s : list scalar) :
  In k (set_add x s) -> In k s \/ k = x.
Proof.
  unfold set_add. destruct (existsb (scalar_eqb x) s); [auto|].
  intros Hk. apply in_app_or in Hk as [Hk|[Hk|[]]]; auto.
Qed.

Lemma set_add_NoDup (x : scalar) (s : list scalar) : NoDup s -> NoDup (set_add x s).
Proof.
  unfold set_add. destruct (existsb (scalar_eqb x) s) eqn:He; [auto|].
  intros Hs. apply NoDup_app. split; [exact Hs|]. split; [|apply NoDup_singleton].
  intros k Hk Hx. apply list_elem_of_In in Hk. apply list_elem_of_In in Hx.
  destruct Hx as [->|[]].
  assert (existsb (scalar_eqb k) s = true)
    by (apply existsb_exists; exists k; split; [exact Hk | apply scalar_eqb_refl]).
  congruence.
Qed.

(** What one partition does to the set of owners. *)
Lemma tally_partition_owners (self : BurrowClient) (acc acc' : tally) (p : json) :
  tally_partition self acc p = Ok acc' ->
  exists st passes,
    get_partition_stats p = Ok st
    /\ match_topic self (st_topic st) = Ok passes
    /\ if passes && truthy (st_owner st)
       then exists k, hashable (st_owner st) = Ok k
                      /\ t_owners acc' = set_add k (t_owners acc)
       else t_owners acc' = t_owners acc.
Proof.
  unfold tally_partition.
  destruct (get_partition_stats p) as [st|e]; cbn [rbind]; [|discriminate].
  destruct (match_topic self (st_topic st)) as [passes|e] eqn:Hpass; cbn [rbind];
    [|discriminate].
  intros Hacc. exists st, passes. split; [reflexivity|]. split; [exact Hpass|].
  destruct passes; cbn [negb andb] in *; [|injection Hacc as <-; reflexivity].
  destruct (py_gt (st_offset st) (t_max_offset acc)); cbn [rbind] in Hacc; [|discriminate].
  destruct (py_gt (st_timestamp st) (t_max_timestamp acc)); cbn [rbind] in Hacc;
    [|discriminate].
  destruct (if truthy (st_topic st) then _ else _); cbn [rbind] in Hacc; [|discriminate].
  destruct (truthy (st_owner st)).
  - destruct (hashable (st_owner st)) as [k|e]; cbn [rbind] in Hacc; [|discriminate].
    injection Hacc as <-. exists k. split; reflexivity.
  - cbn [rbind] in Hacc. injection Hacc as <-. reflexivity.
Qed.

(** The owners after the whole loop: nothing is lost, every member comes
    from a partition that passed the filter and has a truthy owner, every
    such string owner is a member, and no member occurs twice. *)
Lemma tally_partitions_owners (self : BurrowClient) (ps : list json) (acc acc' : tally) :
  tally_partitions self acc ps = Ok acc' ->
  (forall k, In k (t_owners acc) -> In k (t_owners acc'))
  /\ (forall k, In k (t_owners acc') ->
        In k (t_owners acc) \/
        exists p st, In p ps /\ get_partition_stats p = Ok st
                     /\ match_topic self (st_topic st) = Ok true
                     /\ truthy (st_owner st) = true
                     /\ st_owner st = json_of_scalar k)
  /\ (forall p st s, In p ps -> get_partition_stats p = Ok st ->
        match_topic self (st_topic st) = Ok true ->
        st_owner st = JStr s -> s <> "" -> In (SStr s) (t_owners acc'))
  /\ (NoDup (t_owners acc) -> NoDup (t_owners acc')).
Proof.
  revert acc. induction ps as [|p ps IH]; intros acc; cbn [tally_partitions].
  - intros [= <-]. repeat split; auto. intros p st s [].
  - destruct (tally_partition self acc p) as [acc1|e] eqn:Hstep; cbn [rbind];
      [|discriminate].
    intros Hrest. destruct (IH _ Hrest) as (Hkeep & Horigin & Hadded & Hnodup).
    apply tally_partition_owners in Hstep as (st & passes & Hst & Hpass & Hown).
    repeat split.
    + intros k Hk. apply Hkeep.
      destruct (passes && truthy (st_owner st)).
      * destruct Hown as (k0 & _ & ->). apply set_add_incl. exact Hk.
      * rewrite Hown. exact Hk.
    + intros k Hk. destruct (Horigin k Hk) as [Hk1|(q & sq & Hq & ?)].
      * destruct (passes && truthy (st_owner st)) eqn:Hb.
        -- destruct Hown as (k0 & Hk0 & Hown). rewrite Hown in Hk1.
           apply set_add_origin in Hk1 as [Hk1| ->]; [left; exact Hk1|].
           right. exists p, st. apply andb_true_iff in Hb as [-> Hb].
           split; [left; reflexivity|]. repeat split; auto.
           symmetry. apply hashable_json. exact Hk0.
        -- left. rewrite <- Hown. exact Hk1.
      * right. exists q, sq. split; [right; exact Hq | assumption].
    + intros q sq s [<-|Hq] Hsq Hpq Hoq Hs.
      * rewrite Hst in Hsq. injection Hsq as <-. rewrite Hpass in Hpq.
        injection Hpq as ->. rewrite Hoq in Hown.
        rewrite (truthy_str _ Hs) in Hown. cbn [andb hashable] in Hown.
        destruct Hown as (k0 & [= <-] & Hown). apply Hkeep. rewrite Hown.
        destruct (set_add_in (SStr s) (t_owners acc)) as (k' & Hk' & He).
        apply scalar_eqb_str in He as ->. exact Hk'.
      * eapply Hadded; eassumption.
    + intros Hnd. apply Hnodup.
      destruct (passes && truthy (st_owner st)).
      * destruct Hown as (k0 & _ & ->). apply set_add_NoDup. exact Hnd.
      * rewrite Hown. exact Hnd.
Qed.

End Owners.

(** ** Reasoning about methods *)

Section Methods.

Lemma mbind_ok {A B} (m : M A) (k : A -> M B) c w b c' w' :
  mbind m k c w = (Ok b, c', w') ->
  exists a c1 w1, m c w = (Ok a, c1, w1) /\ k a c1 w1 = (Ok b, c', w').
Proof.
  unfold mbind. destruct (m c w) as [[[a|e] c1] w1]; [eauto 6 | discriminate].
Qed.

Lemma mret_ok {A} (x a : A) c w c' w' :
  mret x c w = (Ok a, c', w') -> a = x /\ c' = c /\ w' = w.
Proof. unfold mret. intros [= -> -> ->]. auto. Qed.

Lemma mbind_lift {A B} (r : result A) (k : A -> M B) c w :
  mbind (lift r) k c w = match r with Ok a => k a c w | Raise e => (Raise e, c, w) end.
Proof. unfold mbind, lift. destruct r; reflexivity. Qed.

Lemma mbind_mret {A B} (a : A) (k : A -> M B) c w : mbind (mret a) k c w = k a c w.
Proof. reflexivity. Qed.

Lemma mbind_get_self {B} (k : BurrowClient -> M B) c w : mbind get_self k c w = k c c w.
Proof. reflexivity. Qed.

End Methods.

(** Take a successful run of binds apart, one step at a time. *)
Ltac minv H :=
  repeat match type of H with
  | mbind (lift ?r) _ _ _ = (Ok _, _, _) =>
      rewrite mbind_lift in H;
      let E := fresh "E" in
      destruct r eqn:E; [|discriminate H]
  | mbind get_self _ _ _ = (Ok _, _, _) => rewrite mbind_get_self in H
  | mbind (mret _) _ _ _ = (Ok _, _, _) => rewrite mbind_mret in H
  end.

(** Split on the answer of a filter in a step of a loop. *)
Ltac on_filter H :=
  match type of H with
  | (if negb ?b then _ else _) _ _ = _ => destruct b; cbn [negb] in H
  end.

(** ** The consumer-status summary *)

Section StatusSummary.
Context `{Externals}.

Lemma rmapM_as_str (l : list json) (strs : list string) :
  rmapM as_str l = Ok strs -> l = map JStr strs.
Proof.
  revert strs. induction l as [|x l IH]; intros strs; cbn [rmapM].
  - intros [= <-]. reflexivity.
  - destruct x; cbn [as_str rbind]; try discriminate.
    destruct (rmapM as_str l) as [r|e]; cbn [rbind]; [|discriminate].
    intros [= <-]. cbn [map]. rewrite (IH r eq_refl). reflexivity.
Qed.

Lemma map_scalar_strs (l : list scalar) (strs : list string) :
  map json_of_scalar l = map JStr strs -> l = map SStr strs.
Proof.
  revert strs. induction l as [|k l IH]; intros [|s strs]; cbn [map]; try discriminate.
  - reflexivity.
  - intros [= Hk Hl]. destruct k; try discriminate Hk. injection Hk as ->.
    rewrite (IH _ Hl). reflexivity.
Qed.

Lemma sorted_le_nodup_lt (l : list string) :
  StronglySorted str_le l -> NoDup l -> StronglySorted str_lt l.
Proof.
  induction 1 as [|a l Hs IH Ha]; intros Hnd; [constructor|].
  apply NoDup_cons in Hnd as [Hna Hnd].
  constructor; [apply IH; exact Hnd|].
  rewrite List.Forall_forall in *. intros b Hb.
  destruct (proj1 (str_le_cases a b) (Ha b Hb)) as [->|Hl]; [|exact Hl].
  exfalso. apply Hna, list_elem_of_In, Hb.
Qed.

Lemma sorted_map_JStr (strs : list string) :
  StronglySorted (fun a b => exists s t, a = JStr s /\ b = JStr t /\ str_le s t)
    (map JStr strs) ->
  StronglySorted str_le strs.
Proof.
  induction strs as [|s strs IH]; cbn [map]; intros Hs; [constructor|].
  inversion Hs as [|? ? Hs' Hall]; subst. constructor; [apply IH; exact Hs'|].
  rewrite List.Forall_forall in *. intros t Ht.
  destruct (Hall (JStr t) (in_map _ _ _ Ht)) as (s' & t' & [= <-] & [= <-] & Hle).
  exact Hle.
Qed.

Lemma NoDup_map_SStr (strs : list string) : NoDup (map SStr strs) -> NoDup strs.
Proof.
  induction strs as [|s strs IH]; cbn [map]; intros Hnd; [constructor|].
  apply NoDup_cons in Hnd as [Hs Hnd]. constructor; [|apply IH; exact Hnd].
  intros Hin. apply Hs. apply list_elem_of_In, in_map, list_elem_of_In, Hin.
Qed.

(** The owners column: the members of the set, each once, in order, with
    commas between them. *)
Lemma owners_string_spec (owners : list scalar) (s : string) :
  NoDup owners -> owners_string owners = Ok s ->
  exists strs, s = String.concat "," strs
               /\ Permutation owners (map SStr strs)
               /\ StronglySorted str_lt strs.
Proof.
  intros Hnd. unfold owners_string, py_sorted, py_join.
  destruct (sort_by py_lt (map json_of_scalar owners)) as [sorted|e] eqn:Hsort;
    cbn [rbind]; [|discriminate].
  destruct (rmapM as_str sorted) as [strs|e] eqn:Hstrs; cbn [rbind]; [|discriminate].
  intros [= <-]. apply rmapM_as_str in Hstrs as ->.
  pose proof (sort_by_perm _ _ _ Hsort) as Hperm.
  destruct (Permutation_map_inv _ _ (Permutation_sym Hperm)) as (l3 & Hl3 & Hperm3).
  symmetry in Hl3. apply map_scalar_strs in Hl3 as ->.
  exists strs. split; [reflexivity|]. split; [exact Hperm3|].
  apply sorted_le_nodup_lt.
  - apply sorted_map_JStr.
    eapply (sort_by_sorted py_lt (fun j => exists s, j = JStr s)); [| |idtac|exact Hsort].
    + intros a b c (s1 & t1 & -> & -> & H1) (s2 & t2 & [= <-] & -> & H2).
      exists s1, t2. split; [reflexivity|]. split; [reflexivity|].
      eapply str_le_trans; eassumption.
    + intros x y b [sx ->] [sy ->]. cbn [py_lt]. intros [= <-].
      destruct (str_ltb sx sy) eqn:Hlt.
      * exists sx, sy. split; [reflexivity|]. split; [reflexivity|].
        apply str_lt_le. exact Hlt.
      * exists sy, sx. split; [reflexivity|]. split; [reflexivity|]. exact Hlt.
    + apply (Permutation_Forall (Permutation_sym Hperm)).
      apply List.Forall_forall. intros j Hj. apply in_map_iff in Hj as (s & <- & _).
      eauto.
  - apply NoDup_map_SStr. rewrite <- Hperm3. exact Hnd.
Qed.

Lemma summary_lag_obj (fields : list (string * json)) :
  summary_lag (JObj fields) =
  match assoc "maxlag" fields with
  | Some maxlag =>
      if truthy maxlag then rmap st_lag (get_partition_stats maxlag) else Ok (JInt 0)
  | None => Ok (JInt 0)
  end.
Proof.
  unfold summary_lag. cbn [py_in py_getitem rbind].
  destruct (assoc "maxlag" fields) as [m|]; cbn [rbind]; [|reflexivity].
  destruct (truthy m); cbn [rbind]; [|reflexivity].
  unfold rmap. destruct (get_partition_stats m); reflexivity.
Qed.

Lemma format_number_zero (self : BurrowClient) : format_number self (JInt 0) = Ok "0".
Proof. unfold format_number. cbn. destruct (decimal self); reflexivity. Qed.

(** What a finished row of the summary is made of. *)
Lemma status_row_inv (self : BurrowClient) (consumer : string) (cs : json)
    c w row c' w' :
  status_row self consumer cs c w = (Ok row, c', w') ->
  exists lag status total_lag pj partitions acc lag_t total_t offset_t ts_t date age,
    summary_lag cs = Ok lag
    /\ py_get cs "status" (JStr "?") = Ok status
    /\ py_get cs "totallag" (JInt 0) = Ok total_lag
    /\ py_get cs "partitions" (JArr []) = Ok pj
    /\ py_iter pj = Ok partitions
    /\ tally_partitions self empty_tally partitions = Ok acc
    /\ format_number self lag = Ok lag_t
    /\ format_number self total_lag = Ok total_t
    /\ format_number self (t_max_offset acc) = Ok offset_t
    /\ format_number self (t_max_timestamp acc) = Ok ts_t
    /\ timestamp_to_date (t_max_timestamp acc) = Ok date
    /\ timestamp_to_age (t_max_timestamp acc) c w = (Ok age, c', w')
    /\ if verbose self then
         exists owners_t topics_t,
           owners_string (t_owners acc) = Ok owners_t
           /\ topics_string (t_topics acc) = Ok topics_t
           /\ row = [text consumer; status; text lag_t; text total_t; text offset_t;
                     text ts_t; text date; text age; text owners_t; text topics_t]
       else
         row = [text consumer; status; text lag_t; text total_t; text offset_t;
                text ts_t; text date; text age].
Proof.
  unfold status_row. intros Hrow. minv Hrow.
  destruct (verbose self) eqn:Hv; minv Hrow.
  - apply mbind_ok in Hrow as (age & c1 & w1 & Hage & Hret).
    apply mret_ok in Hret as (-> & -> & ->).
    do 12 eexists. repeat (split; [first [eassumption | reflexivity]|]).
    do 2 eexists. repeat (split; [first [eassumption | reflexivity]|]). reflexivity.
  - apply mbind_ok in Hrow as (age & c1 & w1 & Hage & Hret).
    apply mret_ok in Hret as (-> & -> & ->).
    do 12 eexists. repeat (split; [first [eassumption | reflexivity]|]). reflexivity.
Qed.

End StatusSummary.

Section StatusClaims.
Context `{Externals}.

(** The owners column of a verbose row, from the partitions of the
    snapshot. *)
Lemma owners_column (self : BurrowClient) (partitions : list json) (acc : tally)
    (owners_t : string) :
  tally_partitions self empty_tally partitions = Ok acc ->
  owners_string (t_owners acc) = Ok owners_t ->
  exists owners,
    owners_t = String.concat "," owners
    /\ StronglySorted str_lt owners
    /\ forall o, In o owners <->
         o <> "" /\
         exists p st, In p partitions /\ get_partition_stats p = Ok st
                      /\ match_topic self (st_topic st) = Ok true
                      /\ st_owner st = JStr o.
Proof.
  intros Hacc Hstr.
  destruct (tally_partitions_owners _ _ _ _ Hacc) as (_ & Horigin & Hadded & Hnodup).
  destruct (owners_string_spec _ _ (Hnodup (NoDup_nil_2)) Hstr)
    as (owners & -> & Hperm & Hsorted).
  exists owners. split; [reflexivity|]. split; [exact Hsorted|].
  assert (Hmem : forall o, In o owners <-> In (SStr o) (t_owners acc)).
  { intros o. split; intros Ho.
    - eapply Permutation_in; [symmetry; exact Hperm|]. apply in_map. exact Ho.
    - eapply Permutation_in in Ho; [|exact Hperm].
      apply in_map_iff in Ho as (o' & [= ->] & Ho'). exact Ho'. }
  intros o. rewrite Hmem. split.
  - intros Ho. destruct (Horigin _ Ho) as [[]|(p & st & Hp & Hst & Hpass & Htruthy & Hown)].
    cbn [json_of_scalar] in Hown. split.
    + intros ->. rewrite Hown in Htruthy. discriminate Htruthy.
    + eauto 8.
  - intros (Hne & p & st & Hp & Hst & Hpass & Hown). eapply Hadded; eassumption.
Qed.

End StatusClaims.

(** C10. A partition record without an [owner] key is normalized to the
    owner "?", which is a non-empty string: when the record passes the
    topic filter, "?" is one of the names of the verbose owners column,
    while the empty string never is.  For a snapshot with the owners ""
    and absent the column is "?". *)
Theorem absent_owner_shows_question_mark :
  (forall (E : Externals) (self : BurrowClient) (consumer : string)
          (fields : list (string * json)) c w row c' w'
          (partitions : list json) (partition : list (string * json)),
      verbose self = true ->
      status_row self consumer (JObj fields) c w = (Ok row, c', w') ->
      py_iter (field_or (JArr []) "partitions" fields) = Ok partitions ->
      In (JObj partition) partitions ->
      assoc "owner" partition = None ->
      match_topic self (field_or (JStr "?") "topic" partition) = Ok true ->
      (exists st, get_partition_stats (JObj partition) = Ok st
                  /\ st_owner st = JStr "?")
      /\ exists owners,
           nth_error row 8 = Some (text (String.concat "," owners))
           /\ In "?" owners
           /\ ~ In "" owners)
  /\ (let self := set_verbose true Fixtures.client in
      fst (fst (@status_row Fixtures.test_library self "group1"
                  Fixtures.STATUS_ABSENT_OWNER self fresh_world))
      = Ok [text "group1"; text "OK"; text "0"; text "0"; text "2542";
            text "1511780580382"; text "1511780580382"; text "0";
            text "?"; text "topicA[2]"]).
Proof.
  split; [|vm_compute; reflexivity].
  intros E self consumer fields c w row c' w' partitions partition
         Hv Hrow Hparts Hin Howner Hpass.
  assert (Hst : get_partition_stats (JObj partition)
                = Ok {| st_topic := field_or (JStr "?") "topic" partition;
                        st_lag := match assoc "current_lag" partition with
                                  | Some current_lag => current_lag
                                  | None => field_or (JInt 0) "lag" (end_fields partition)
                                  end;
                        st_offset := field_or (JInt 0) "offset" (end_fields partition);
                        st_timestamp := field_or (JInt 0) "timestamp" (end_fields partition);
                        st_status := field_or (JStr "?") "status" partition;
                        st_owner := JStr "?";
                        st_partition := field_or (JStr "?") "partition" partition |}).
  { rewrite get_partition_stats_obj. unfold field_or at 6. rewrite Howner. reflexivity. }
  split; [eexists; split; [exact Hst | reflexivity]|].
  apply status_row_inv in Hrow
    as (lag & status & total_lag & pj & partitions' & acc & lag_t & total_t & offset_t
        & ts_t & date & age & _ & _ & _ & Hpj & Hparts' & Hacc & _ & _ & _ & _ & _ & _
        & Hrow).
  cbn [py_get] in Hpj. injection Hpj as <-.
  unfold field_or in Hparts. rewrite Hparts in Hparts'. injection Hparts' as <-.
  rewrite Hv in Hrow. destruct Hrow as (owners_t & topics_t & Hown & _ & ->).
  destruct (owners_column _ _ _ _ Hacc Hown) as (owners & -> & _ & Hmem).
  exists owners. split; [reflexivity|]. split.
  - apply Hmem. split; [discriminate|]. eexists _, _.
    split; [exact Hin|]. split; [exact Hst|]. split; [exact Hpass | reflexivity].
  - intros Hempty. apply Hmem in Hempty as [Hne _]. contradiction.
Qed.

(** The snapshot whose second partition has no owner. *)
Lemma absent_owner_shows_question_mark_witness :
  exists owners,
    nth_error [text "group1"; text "OK"; text "0"; text "0"; text "2542";
               text "1511780580382"; text "1511780580382"; text "0";
               text "?"; text "topicA[2]"] 8
    = Some (text (String.concat "," owners))
    /\ In "?" owners /\ ~ In "" owners.
Proof.
  destruct absent_owner_shows_question_mark as (Hgen & _).
  pose (self := set_verbose true Fixtures.client).
  refine (proj2 (Hgen Fixtures.test_library self "group1"
            [("status", JStr "OK"); ("totallag", JInt 0);
             ("partitions", JArr [Fixtures.partition_of "topicA" (Some "") 0;
                                  Fixtures.partition_of "topicA" None 1])]
            self fresh_world _ self {| requests := []; clock_reads := 1; stdout := [] |}
            [Fixtures.partition_of "topicA" (Some "") 0;
             Fixtures.partition_of "topicA" None 1]
            [("current_lag", JInt 0);
             ("end", Fixtures.offset_entry 25 2542 1511780580382);
             ("partition", JInt 1); ("status", JStr "OK"); ("topic", JStr "topicA")]
            _ _ _ _ _ _)).
  - reflexivity.
  - vm_compute. reflexivity.
  - reflexivity.
  - right. left. reflexivity.
  - reflexivity.
  - reflexivity.
Defined.

(** ** The topic report *)

Section TopicRows.

Lemma py_lt_arr (xs ys : list json) : py_lt (JArr xs) (JArr ys) = list_lt xs ys.
Proof.
  destruct xs, ys; reflexivity.
Qed.

Lemma same_kind_lt (a b : json) : same_kind a b = true -> exists r, py_lt a b = Ok r.
Proof. destruct a, b; cbn; try discriminate; eauto. Qed.

Lemma list_lt_aligned (xs ys : list json) :
  aligned xs ys -> exists b, list_lt xs ys = Ok b.
Proof.
  induction 1 as [ys|xs|x y xs ys Hk _ IH].
  - destruct ys; cbn; eauto.
  - destruct xs; cbn; eauto.
  - cbn [list_lt]. destruct (py_eqb x y); [exact IH | apply same_kind_lt, Hk].
Qed.

Lemma aligned_strs (a b : list string) : aligned (map JStr a) (map JStr b).
Proof.
  revert b. induction a as [|x a IH]; intros [|y b]; cbn [map]; try constructor; auto.
Qed.

Lemma max_from_ints (best : Z) (l : list Z) :
  max_from (JInt best) (map JInt l) = Ok (JInt (list_max best l)).
Proof.
  unfold list_max. revert best. induction l as [|x l IH]; intros best; [reflexivity|].
  cbn [map max_from py_gt py_lt as_num rbind fold_left].
  replace (if best <? x then JInt x else JInt best) with (JInt (Z.max best x))
    by (destruct (Z.ltb_spec best x); f_equal; lia).
  apply IH.
Qed.

Lemma min_from_ints (best : Z) (l : list Z) :
  min_from (JInt best) (map JInt l) = Ok (JInt (list_min best l)).
Proof.
  unfold list_min. revert best. induction l as [|x l IH]; intros best; [reflexivity|].
  cbn [map min_from py_lt as_num rbind fold_left].
  replace (if x <? best then JInt x else JInt best) with (JInt (Z.min best x))
    by (destruct (Z.ltb_spec x best); f_equal; lia).
  apply IH.
Qed.

Lemma list_max_spec (z : Z) (l : list Z) :
  In (list_max z l) (z :: l) /\ Forall (fun x => x <= list_max z l) (z :: l).
Proof.
  unfold list_max. revert z. induction l as [|x l IH]; intros z; cbn [fold_left].
  - split; [left; reflexivity | repeat constructor; lia].
  - destruct (IH (Z.max z x)) as [Hin Hall]. split.
    + destruct Hin as [Hin|Hin]; [|right; right; exact Hin].
      rewrite <- Hin. destruct (Z.max_spec z x) as [[_ ->]|[_ ->]]; cbn; auto.
    + inversion Hall as [|? ? Hm Hl]; subst.
      constructor; [lia|]. constructor; [lia | exact Hl].
Qed.

Lemma list_min_spec (z : Z) (l : list Z) :
  In (list_min z l) (z :: l) /\ Forall (fun x => list_min z l <= x) (z :: l).
Proof.
  unfold list_min. revert z. induction l as [|x l IH]; intros z; cbn [fold_left].
  - split; [left; reflexivity | repeat constructor; lia].
  - destruct (IH (Z.min z x)) as [Hin Hall]. split.
    + destruct Hin as [Hin|Hin]; [|right; right; exact Hin].
      rewrite <- Hin. destruct (Z.min_spec z x) as [[_ ->]|[_ ->]]; cbn; auto.
    + inversion Hall as [|? ? Hm Hl]; subst.
      constructor; [lia|]. constructor; [lia | exact Hl].
Qed.

Lemma format_number_int (self : BurrowClient) (n : Z) :
  format_number self (JInt n) = Ok (number_text self n).
Proof.
  unfold format_number, number_text. cbn [py_int rbind]. destruct (decimal self); reflexivity.
Qed.

Lemma rmapM_format_ints (self : BurrowClient) (l : list Z) :
  rmapM (format_number self) (map JInt l) = Ok (map (number_text self) l).
Proof.
  induction l as [|x l IH]; [reflexivity|].
  cbn [map rmapM]. rewrite format_number_int, IH. reflexivity.
Qed.

(** A row of the compact report, for a list of integer offsets. *)
Lemma topic_row_ints (self : BurrowClient) (topic : string) (z : Z) (zs : list Z) :
  verbose self = false ->
  topic_row self topic (JArr (map JInt (z :: zs)))
  = Ok [text topic; JInt (Z.of_nat (length (z :: zs)));
        text (number_text self (list_min z zs)); text (number_text self (list_max z zs))].
Proof.
  intros Hv. unfold topic_row. cbn [py_iter rbind].
  rewrite rmapM_format_ints. cbn [map py_max py_min].
  rewrite max_from_ints, min_from_ints. cbn [rbind]. rewrite Hv.
  rewrite !format_number_int. cbn [rbind length]. rewrite List.length_map. reflexivity.
Qed.

(** What any finished row of the report is made of. *)
Lemma topic_row_inv (self : BurrowClient) (topic : string) (details : json)
    (row : list json) :
  topic_row self topic details = Ok row ->
  exists offsets vmin vmax texts,
    py_iter details = Ok offsets
    /\ py_min offsets = Ok vmin
    /\ py_max offsets = Ok vmax
    /\ rmapM (format_number self) offsets = Ok texts
    /\ if verbose self then
         row = [text topic; JInt (Z.of_nat (length offsets));
                text (String.concat "," texts)]
       else
         exists tmin tmax,
           format_number self vmin = Ok tmin
           /\ format_number self vmax = Ok tmax
           /\ row = [text topic; JInt (Z.of_nat (length offsets)); text tmin; text tmax].
Proof.
  unfold topic_row.
  destruct (py_iter details) as [offsets|e]; cbn [rbind]; [|discriminate].
  destruct (py_max offsets) as [vmax|e] eqn:Hmax; cbn [rbind]; [|discriminate].
  destruct (py_min offsets) as [vmin|e] eqn:Hmin; cbn [rbind]; [|discriminate].
  destruct (rmapM (format_number self) offsets) as [texts|e] eqn:Htexts; cbn [rbind];
    [|discriminate].
  intros Hrow. exists offsets, vmin, vmax, texts.
  split; [reflexivity|]. split; [exact Hmin|]. split; [exact Hmax|].
  split; [exact Htexts|].
  destruct (verbose self).
  - injection Hrow as <-. reflexivity.
  - destruct (format_number self vmin) as [tmin|e]; cbn [rbind] in Hrow; [|discriminate].
    destruct (format_number self vmax) as [tmax|e]; cbn [rbind] in Hrow; [|discriminate].
    injection Hrow as <-. exists tmin, tmax. auto.
Qed.

Lemma topic_row_has_shape (self : BurrowClient) (topic : string) (details : json)
    (row : list json) :
  topic_row self topic details = Ok row -> topic_row_shape row /\ row_name row = topic.
Proof.
  intros Hrow. apply topic_row_inv in Hrow as (offsets & vmin & vmax & texts & _ & _ & _ & _ & Hrow).
  destruct (verbose self).
  - subst row. split; [|reflexivity].
    exists topic, (Z.of_nat (length offsets)), [String.concat "," texts]. reflexivity.
  - destruct Hrow as (tmin & tmax & _ & _ & ->). split; [|reflexivity].
    exists topic, (Z.of_nat (length offsets)), [tmin; tmax]. reflexivity.
Qed.

End TopicRows.

Section TopicTable.
Context `{Externals}.

Lemma keyed_rows (l : list (list json)) :
  Forall topic_row_shape l -> rmapM (decorate 0) l = Ok (map keyed l).
Proof.
  induction 1 as [|r l (name & count & cells & ->) _ IH]; [reflexivity|].
  cbn [rmapM decorate nth_error rbind map]. rewrite IH. reflexivity.
Qed.

Lemma keyed_aligned (r1 r2 : list json) :
  topic_row_shape r1 -> topic_row_shape r2 -> aligned (keyed r1) (keyed r2).
Proof.
  intros (n1 & k1 & t1 & ->) (n2 & k2 & t2 & ->). unfold keyed. cbn [row_name].
  repeat (constructor; [reflexivity|]). apply aligned_strs.
Qed.

Lemma keyed_lt (r1 r2 : list json) :
  topic_row_shape r1 -> topic_row_shape r2 ->
  exists b, row_lt (keyed r1) (keyed r2) = Ok b
            /\ if b then str_le (row_name r1) (row_name r2)
               else str_le (row_name r2) (row_name r1).
Proof.
  intros Hs1 Hs2. unfold row_lt. rewrite py_lt_arr.
  pose proof (keyed_aligned _ _ Hs1 Hs2) as Hal.
  unfold keyed in *. cbn [list_lt py_eqb py_lt].
  destruct (String.eqb_spec (row_name r1) (row_name r2)) as [Heq|Hne].
  - inversion Hal as [| |? ? ? ? _ Hal']; subst.
    destruct (list_lt_aligned _ _ Hal') as [b Hb]. exists b. split; [exact Hb|].
    rewrite Heq. destruct b; apply str_le_refl.
  - eexists. split; [reflexivity|].
    destruct (str_ltb (row_name r1) (row_name r2)) eqn:Hlt.
    + apply str_lt_le. exact Hlt.
    + exact Hlt.
Qed.

(** Sorting a table of topic rows by its first column never fails, keeps
    the rows and puts them in the order of their names. *)
Lemma get_rows_by_name (t : PrettyTable) (column : string) :
  index_of column (field_names t) = Some 0%nat ->
  Forall topic_row_shape (rows t) ->
  exists sorted,
    get_rows (Some column) t = Ok sorted
    /\ Permutation (rows t) sorted
    /\ sorted_by_name sorted.
Proof.
  intros Hcol Hshape. unfold get_rows. rewrite Hcol, (keyed_rows _ Hshape). cbn [rbind].
  set (P := fun d : list json => exists r, topic_row_shape r /\ d = keyed r).
  assert (HP : Forall P (map keyed (rows t))).
  { apply List.Forall_forall. intros d Hd. apply in_map_iff in Hd as (r & <- & Hr).
    exists r. split; [|reflexivity]. rewrite List.Forall_forall in Hshape. auto. }
  destruct (sort_by_total row_lt (map keyed (rows t))) as [sorted Hsorted].
  { rewrite List.Forall_forall in HP.
    intros x y Hx Hy. destruct (HP x Hx) as (r1 & H1 & ->).
    destruct (HP y Hy) as (r2 & H2 & ->).
    destruct (keyed_lt _ _ H1 H2) as (b & -> & _). reflexivity. }
  unfold sort_rows. rewrite Hsorted. cbn [rbind].
  pose proof (sort_by_perm _ _ _ Hsorted) as Hperm.
  assert (HPs : Forall P sorted) by (apply (Permutation_Forall Hperm); exact HP).
  eexists. split; [reflexivity|]. split.
  - rewrite <- (Permutation_map (@tl json) Hperm), List.map_map. cbn [keyed tl].
    rewrite List.map_id. reflexivity.
  - assert (Hs : StronglySorted (fun a b => str_le (row_name a) (row_name b)) sorted).
    { eapply (sort_by_sorted row_lt P); [| |exact HP|exact Hsorted].
      - intros a b c. apply str_le_trans.
      - intros x y b (r1 & H1 & ->) (r2 & H2 & ->) Hlt.
        destruct (keyed_lt _ _ H1 H2) as (b' & Hb' & Hle).
        rewrite Hlt in Hb'. injection Hb' as <-. exact Hle. }
    unfold sorted_by_name. clear -Hs HPs.
    induction Hs as [|d l Hs IH Hd]; cbn [map]; [constructor|].
    inversion HPs as [|? ? (r & _ & ->) HPl]; subst.
    constructor; [apply IH; exact HPl|].
    rewrite List.Forall_forall in *. intros x Hx.
    apply in_map_iff in Hx as (d' & <- & Hd').
    destruct (HPl d' Hd') as (r' & _ & ->). cbn [keyed tl].
    exact (Hd _ Hd').
Qed.

End TopicTable.

(** ** The response cache *)

Section Cache.
Context `{Externals}.

Lemma request_sends (paths : list string) (self : BurrowClient) (w : World) :
  exists w1,
    request paths self w
    = (http_get_json (requests w) (address self paths), self, w1)
    /\ requests w1 = address self paths :: requests w.
Proof.
  unfold request, mbind, get_self, get_world, set_world, lift, output, mret.
  destruct (debug self); eexists; split; reflexivity.
Qed.

Lemma cache_of_store (c c' : cache) (key : string) (v : json) (self : BurrowClient) :
  cache_of c' (store c key v self)
  = if decide (c = c') then <[key := v]> (cache_of c' self) else cache_of c' self.
Proof. destruct c, c'; reflexivity. Qed.

Lemma stored_store_same (c : cache) (key : string) (v : json) (self : BurrowClient) :
  stored (SlotKey c key) (store c key v self) = Some v.
Proof.
  cbn [stored]. rewrite cache_of_store. destruct (decide (c = c)); [|contradiction].
  apply lookup_insert_eq.
Qed.

Lemma stored_store_other (s : slot) (c : cache) (key : string) (v : json)
    (self : BurrowClient) :
  s <> SlotKey c key -> stored s (store c key v self) = stored s self.
Proof.
  intros Hs. destruct s as [|c' key']; [reflexivity|].
  cbn [stored]. rewrite cache_of_store. destruct (decide (c = c')) as [->|]; [|reflexivity].
  apply lookup_insert_ne. congruence.
Qed.

Lemma fetch_cached_hit (c : cache) (key : string) (paths : list string)
    (field : string) (default : json) (self : BurrowClient) (w : World) (v : json) :
  cache_of c self !! key = Some v ->
  fetch_cached c key paths field default self w = (Ok v, self, w).
Proof.
  intros Hv. unfold fetch_cached. rewrite mbind_get_self, Hv. reflexivity.
Qed.

Lemma fetch_cached_miss (c : cache) (key : string) (paths : list string)
    (field : string) (default : json) (self : BurrowClient) (w : World) :
  cache_of c self !! key = None ->
  exists r self1 w1,
    fetch_cached c key paths field default self w = (r, self1, w1)
    /\ miss_outcome (SlotKey c key) (address self paths) self w r self1 w1.
Proof.
  intros Hv. unfold fetch_cached. rewrite mbind_get_self, Hv.
  destruct (request_sends paths self w) as (w1 & Hreq & Hsent).
  unfold mbind at 1. rewrite Hreq.
  destruct (http_get_json (requests w) (address self paths)) as [data|e].
  - rewrite mbind_lift. destruct (py_get data field default) as [v|e].
    + destruct (truthy v) eqn:Hv'; unfold mbind, set_self, mret.
      * eexists _, _, _. split; [reflexivity|]. split; [exact Hsent|].
        rewrite Hv'. split; [apply stored_store_same|].
        intros s' Hs'. apply stored_store_other. exact Hs'.
      * eexists _, _, _. split; [reflexivity|]. split; [exact Hsent|].
        rewrite Hv'. reflexivity.
    + eexists _, _, _. split; [reflexivity|]. split; [exact Hsent | reflexivity].
  - eexists _, _, _. split; [reflexivity|]. split; [exact Hsent | reflexivity].
Qed.

Lemma clusters_hit (self : BurrowClient) (w : World) (v : json) :
  stored SlotClusters self = Some v -> clusters self w = (Ok v, self, w).
Proof.
  cbn [stored]. unfold clusters. rewrite mbind_get_self.
  destruct (truthy (_clusters self)); [|discriminate]. intros [= <-]. reflexivity.
Qed.

Lemma clusters_miss (self : BurrowClient) (w : World) :
  stored SlotClusters self = None ->
  exists r self1 w1,
    clusters self w = (r, self1, w1)
    /\ miss_outcome SlotClusters (address self []) self w r self1 w1.
Proof.
  cbn [stored]. unfold clusters. rewrite mbind_get_self.
  destruct (truthy (_clusters self)); [discriminate|]. intros _.
  destruct (request_sends [] self w) as (w1 & Hreq & Hsent).
  unfold mbind at 1. rewrite Hreq.
  destruct (http_get_json (requests w) (address self [])) as [data|e].
  - rewrite mbind_lift. destruct (py_get data "clusters" (JArr [])) as [v|e].
    + destruct (truthy v) eqn:Hv'; unfold mbind, set_self, mret.
      * eexists _, _, _. split; [reflexivity|]. split; [exact Hsent|].
        rewrite Hv'. split; [cbn; rewrite Hv'; reflexivity|].
        intros [|c key] Hs'; [contradiction | reflexivity].
      * eexists _, _, _. split; [reflexivity|]. split; [exact Hsent|].
        rewrite Hv'. reflexivity.
    + eexists _, _, _. split; [reflexivity|]. split; [exact Hsent | reflexivity].
  - eexists _, _, _. split; [reflexivity|]. split; [exact Hsent | reflexivity].
Qed.

(** The seven accessors at once. *)
Lemma perform_hit (q : call) (self : BurrowClient) (w : World) (v : json) :
  stored (slot_of q) self = Some v -> perform q self w = (Ok v, self, w).
Proof.
  destruct q; cbn [slot_of perform];
    [apply clusters_hit | cbn [stored]; apply fetch_cached_hit..].
Qed.

Lemma perform_miss (q : call) (self : BurrowClient) (w : World) :
  stored (slot_of q) self = None ->
  exists r self1 w1,
    perform q self w = (r, self1, w1)
    /\ miss_outcome (slot_of q) (address self (paths_of q)) self w r self1 w1.
Proof.
  destruct q; cbn [slot_of perform paths_of];
    [apply clusters_miss | cbn [stored]; apply fetch_cached_miss..].
Qed.



(** A call that returns a truthy value leaves it stored. *)
Lemma perform_stores (q : call) (self : BurrowClient) (w : World) v self1 w1 :
  perform q self w = (Ok v, self1, w1) -> truthy v = true ->
  stored (slot_of q) self1 = Some v.
Proof.
  intros Hq Hv. destruct (stored (slot_of q) self) as [u|] eqn:Hs.
  - rewrite (perform_hit _ _ _ _ Hs) in Hq. injection Hq as <- <- <-. exact Hs.
  - destruct (perform_miss q self w Hs) as (r & self2 & w2 & Hq2 & _ & Hout).
    rewrite Hq in Hq2. injection Hq2 as <- <- <-. rewrite Hv in Hout. apply Hout.
Qed.



End Cache.



(** * Further properties of the client *)

(** ** Output and requests *)

Section Transport.
Context `{Externals}.

Lemma ends_with_newline_append (s : string) :
  ends_with_newline (String.append s newline) = true.
Proof.
  unfold ends_with_newline. rewrite chars_append, rev_app_distr. reflexivity.
Qed.

(** X1. [output] writes exactly one text, which ends with a line feed: the
    message itself when it ends with one already, the message followed by
    one line feed otherwise.  It sends nothing, reads no clock, leaves the
    client as it is and never raises. *)
Theorem output_writes_one_line (message : string) (self : BurrowClient) (w : World) :
  exists text w1,
    output message self w = (Ok tt, self, w1)
    /\ stdout w1 = text :: stdout w
    /\ requests w1 = requests w
    /\ clock_reads w1 = clock_reads w
    /\ ends_with_newline text = true
    /\ (text = message
        \/ (ends_with_newline message = false /\ text = String.append message newline)).
Proof.
  unfold output, set_world.
  destruct (ends_with_newline message) eqn:He.
  - eexists _, _. split; [reflexivity|]. cbn [stdout requests clock_reads].
    repeat split; auto.
  - eexists _, _. split; [reflexivity|]. cbn [stdout requests clock_reads].
    repeat split; auto. apply ends_with_newline_append.
Qed.

(** X2. [request] sends exactly one request, to the address of its path,
    and returns what the server answers to it given the requests before;
    it leaves the client and the clock as they are, and writes exactly
    one line, made of "=> GET: " and the address, when [debug] is set and
    nothing otherwise, whether the server answers or raises. *)
Theorem request_sends_once (paths : list string) (self : BurrowClient) (w : World) :
  exists w1,
    request paths self w
    = (http_get_json (requests w) (address self paths), self, w1)
    /\ requests w1 = address self paths :: requests w
    /\ clock_reads w1 = clock_reads w
    /\ (debug self = false -> stdout w1 = stdout w)
    /\ (debug self = true ->
        exists line,
          stdout w1 = line :: stdout w
          /\ ends_with_newline line = true
          /\ (line = String.append "=> GET: " (address self paths)
              \/ line = String.append (String.append "=> GET: " (address self paths))
                          newline)).
Proof.
  unfold request. rewrite mbind_get_self.
  destruct (debug self) eqn:Hd.
  - destruct (output_writes_one_line (String.append "=> GET: " (address self paths)) self w)
      as (text & w0 & Hout & Hstd & Hreq & Hclock & Hnl & Htext).
    unfold mbind at 1. rewrite Hout.
    unfold mbind, get_world, set_world, lift.
    eexists. split; [rewrite Hreq; reflexivity|]. cbn [requests clock_reads stdout].
    split; [rewrite ?Hreq; reflexivity|]. split; [exact Hclock|].
    split; [discriminate|]. intros _. exists text. split; [exact Hstd|].
    split; [exact Hnl|]. destruct Htext as [->|[_ ->]]; auto.
  - unfold mbind, mret, get_world, set_world, lift.
    eexists. split; [reflexivity|]. cbn [requests clock_reads stdout].
    repeat split; auto. discriminate.
Qed.

End Transport.

(** The debug echo of the test client. *)
Lemma request_sends_once_witness :
  exists w1,
    @request Fixtures.test_library ["clustername1"; "topic"]
      (init "http://127.0.0.1:8000" "v3/kafka" false true) fresh_world
    = (Ok Fixtures.RESPONSE_TOPICS, init "http://127.0.0.1:8000" "v3/kafka" false true, w1)
    /\ exists line,
         stdout w1 = [line]
         /\ ends_with_newline line = true.
Proof.
  destruct (@request_sends_once Fixtures.test_library ["clustername1"; "topic"]
              (init "http://127.0.0.1:8000" "v3/kafka" false true) fresh_world)
    as (w1 & Hreq & _ & _ & _ & Hdebug).
  exists w1. split; [exact Hreq|].
  destruct (Hdebug eq_refl) as (line & Hline & Hnl & _).
  exists line. split; [exact Hline | exact Hnl].
Defined.

(** ** Addresses and cache keys *)

Section Keys.

Lemma append_cancel (s t1 t2 : string) :
  String.append s t1 = String.append s t2 -> t1 = t2.
Proof.
  induction s as [|c s IH]; [auto|].
  change (String.append (String c s) ?t) with (String c (String.append s t)).
  intros [= Heq]. auto.
Qed.

Lemma append_empty_r (s : string) : String.append s "" = s.
Proof.
  induction s as [|c s IH]; [reflexivity|].
  change (String.append (String c s) "") with (String c (String.append s "")).
  rewrite IH. reflexivity.
Qed.


Lemma has_char_cons (c x : ascii) (s : string) :
  has_char c (String x s) = Ascii.eqb c x || has_char c s.
Proof. reflexivity. Qed.

(** Two texts free of [c], each followed by nothing or by something that
    starts with [c], are equal only piece by piece. *)
Lemma split_at_char (c : ascii) (x y r1 r2 : string) :
  has_char c x = false -> has_char c y = false ->
  (r1 = "" \/ exists r, r1 = String c r) ->
  (r2 = "" \/ exists r, r2 = String c r) ->
  String.append x r1 = String.append y r2 -> x = y /\ r1 = r2.
Proof.
  revert y. induction x as [|a x IH]; intros [|b y] Hx Hy H1 H2.
  - auto.
  - change (String.append "" r1) with r1.
    change (String.append (String b y) r2) with (String b (String.append y r2)).
    intros ->. destruct H1 as [H1|[r H1]]; [discriminate H1|].
    injection H1 as <- _. rewrite has_char_cons, Ascii.eqb_refl in Hy. discriminate Hy.
  - change (String.append "" r2) with r2.
    change (String.append (String a x) r1) with (String a (String.append x r1)).
    intros <-. destruct H2 as [H2|[r H2]]; [discriminate H2|].
    injection H2 as <- _. rewrite has_char_cons, Ascii.eqb_refl in Hx. discriminate Hx.
  - change (String.append (String a x) r1) with (String a (String.append x r1)).
    change (String.append (String b y) r2) with (String b (String.append y r2)).
    intros [= -> Heq].
    rewrite has_char_cons in Hx, Hy.
    apply orb_false_iff in Hx as [_ Hx]. apply orb_false_iff in Hy as [_ Hy].
    destruct (IH y Hx Hy H1 H2 Heq) as [-> ->]. auto.
Qed.

Lemma concat_path_suffix (a : string) (paths : list string) :
  String.concat "/" (a :: paths) = String.append a (path_suffix paths).
Proof.
  revert a. induction paths as [|x paths IH]; intros a.
  - cbn [String.concat path_suffix]. rewrite append_empty_r. reflexivity.
  - change (String.concat "/" (a :: x :: paths))
      with (String.append a (String.append "/" (String.concat "/" (x :: paths)))).
    rewrite IH. reflexivity.
Qed.

Lemma path_suffix_shape (paths : list string) :
  path_suffix paths = "" \/ exists r, path_suffix paths = String "/" r.
Proof. destruct paths; [left | right; eexists]; reflexivity. Qed.

Lemma path_suffix_inj (p1 p2 : list string) :
  Forall (fun x => has_char "/" x = false) p1 ->
  Forall (fun x => has_char "/" x = false) p2 ->
  path_suffix p1 = path_suffix p2 -> p1 = p2.
Proof.
  intros H1. revert p2. induction H1 as [|x p1 Hx _ IH]; intros p2 H2.
  - destruct p2; [reflexivity | discriminate].
  - destruct H2 as [|y p2 Hy H2]; [discriminate|].
    cbn [path_suffix].
    change (String.append "/" ?t) with (String "/" t).
    intros [= Heq].
    destruct (split_at_char "/" x y _ _ Hx Hy (path_suffix_shape p1) (path_suffix_shape p2) Heq)
      as [-> Hrest].
    rewrite (IH p2 H2 Hrest). reflexivity.
Qed.

Lemma address_path_suffix (self : BurrowClient) (paths : list string) :
  address self paths
  = String.append (url self) (String.append "/" (String.append (api self) (path_suffix paths))).
Proof.
  unfold address. cbn [app]. rewrite concat_path_suffix. reflexivity.
Qed.

Lemma paths_of_inj (q1 q2 : call) : paths_of q1 = paths_of q2 -> q1 = q2.
Proof.
  destruct q1, q2; cbn [paths_of]; intros Heq; try discriminate Heq;
    try reflexivity; injection Heq; intros; subst; try discriminate; reflexivity.
Qed.

(** X3. Path components without a slash give different addresses for
    different paths, so two accessor calls with different arguments never
    ask for the same address.  A slash in a name breaks this: the details
    of a cluster named "a/topic" and the topic list of the cluster "a"
    have the same address. *)
Theorem addresses_distinct :
  (forall (self : BurrowClient) (p1 p2 : list string),
      Forall (fun x => has_char "/" x = false) p1 ->
      Forall (fun x => has_char "/" x = false) p2 ->
      address self p1 = address self p2 -> p1 = p2)
  /\ (forall (self : BurrowClient) (q1 q2 : call),
        Forall (fun x => has_char "/" x = false) (paths_of q1) ->
        Forall (fun x => has_char "/" x = false) (paths_of q2) ->
        address self (paths_of q1) = address self (paths_of q2) -> q1 = q2)
  /\ (forall self : BurrowClient,
        address self (paths_of (CallClusterDetails "a/topic"))
        = address self (paths_of (CallTopics "a"))).
Proof.
  assert (Hpaths : forall (self : BurrowClient) (p1 p2 : list string),
             Forall (fun x => has_char "/" x = false) p1 ->
             Forall (fun x => has_char "/" x = false) p2 ->
             address self p1 = address self p2 -> p1 = p2).
  { intros self p1 p2 H1 H2. rewrite !address_path_suffix. intros Heq.
    apply append_cancel, append_cancel, append_cancel in Heq.
    apply path_suffix_inj; assumption. }
  split; [exact Hpaths|]. split.
  - intros self q1 q2 H1 H2 Heq. apply paths_of_inj. eapply Hpaths; eassumption.
  - intros self. rewrite !address_path_suffix. reflexivity.
Qed.

(** The topic list and the consumer list of one cluster. *)
Lemma addresses_distinct_witness :
  CallTopics "clustername1" = CallTopics "clustername1"
  /\ address Fixtures.client (paths_of (CallTopics "clustername1"))
     <> address Fixtures.client (paths_of (CallConsumers "clustername1")).
Proof.
  destruct addresses_distinct as (_ & Hcalls & _).
  split.
  - apply (Hcalls Fixtures.client (CallTopics "clustername1") (CallTopics "clustername1"));
      [repeat constructor | repeat constructor | reflexivity].
  - intros Heq.
    assert (Hq : CallTopics "clustername1" = CallConsumers "clustername1")
      by (apply (Hcalls Fixtures.client); [repeat constructor | repeat constructor | exact Heq]).
    discriminate Hq.
Defined.

(** X4. The key of the two-part caches is unique as long as the cluster
    name has no hyphen: equal keys then mean the same cluster and the
    same name.  With hyphens two different pairs can share a key (cluster
    "a-b" with topic "c", cluster "a" with topic "b-c"), and whenever two
    pairs share a key, the second is answered from the cache with the
    payload fetched for the first, without a request. *)
Theorem pair_key_unique_without_hyphen :
  (forall c1 n1 c2 n2 : string,
      has_char "-" c1 = false -> has_char "-" c2 = false ->
      pair_key c1 n1 = pair_key c2 n2 -> c1 = c2 /\ n1 = n2)
  /\ pair_key "a-b" "c" = pair_key "a" "b-c"
  /\ (forall (E : Externals) (c1 t1 c2 t2 : string) self w v self1 w1,
        pair_key c1 t1 = pair_key c2 t2 ->
        topic_details c1 t1 self w = (Ok v, self1, w1) ->
        truthy v = true ->
        topic_details c2 t2 self1 w1 = (Ok v, self1, w1)).
Proof.
  split; [|split; [reflexivity|]].
  - intros c1 n1 c2 n2 H1 H2. unfold pair_key.
    change (String.append "-" ?t) with (String "-" t). intros Heq.
    destruct (split_at_char "-" c1 c2 _ _ H1 H2
                (or_intror (ex_intro _ n1 eq_refl)) (or_intror (ex_intro _ n2 eq_refl)) Heq)
      as [-> [= ->]]. auto.
  - intros E c1 t1 c2 t2 self w v self1 w1 Hkey Hfetch Hv.
    apply (perform_hit (CallTopicDetails c2 t2)). cbn [slot_of]. rewrite <- Hkey.
    apply (perform_stores (CallTopicDetails c1 t1) self w v self1 w1 Hfetch Hv).
Qed.

(** Two hyphen-free clusters, and the two pairs that share the key
    "a-b-c" on a server that knows the first. *)
Lemma pair_key_unique_without_hyphen_witness :
  ("clustername1" = "clustername1" /\ "topicA" = "topicA")
  /\ (let E := Fixtures.library
                 [(["a-b"; "topic"; "c"],
                   Fixtures.envelope "offsets" (JArr [JInt 1; JInt 2]))] in
      @topic_details E "a" "b-c"
        (snd (fst (@topic_details E "a-b" "c" Fixtures.client fresh_world)))
        (snd (@topic_details E "a-b" "c" Fixtures.client fresh_world))
      = (Ok (JArr [JInt 1; JInt 2]),
         snd (fst (@topic_details E "a-b" "c" Fixtures.client fresh_world)),
         snd (@topic_details E "a-b" "c" Fixtures.client fresh_world))).
Proof.
  destruct pair_key_unique_without_hyphen as (Hinj & _ & Hshared).
  split.
  - apply (Hinj "clustername1" "topicA" "clustername1" "topicA"); reflexivity.
  - intros E.
    apply (Hshared E "a-b" "c" "a" "b-c" Fixtures.client fresh_world); reflexivity.
Defined.

End Keys.

(** ** What the accessors change *)

Section Frame.
Context `{Externals}.

Lemma request_result (paths : list string) (self : BurrowClient) (w : World) :
  exists w1,
    request paths self w
    = (http_get_json (requests w) (address self paths), self, w1)
    /\ requests w1 = address self paths :: requests w
    /\ clock_reads w1 = clock_reads w.
Proof.
  unfold request, mbind, get_self, get_world, set_world, lift, output, mret.
  destruct (debug self); eexists; repeat split; reflexivity.
Qed.

Lemma fetch_cached_change (q : call) (c : cache) (key : string) (paths : list string)
    (field : string) (default : json) (self : BurrowClient) (w : World) r self1 w1 :
  slot_of q = SlotKey c key ->
  fetch_cached c key paths field default self w = (r, self1, w1) ->
  changed_by q self r self1 /\ clock_reads w1 = clock_reads w.
Proof.
  intros Hslot. unfold fetch_cached, changed_by. rewrite mbind_get_self, Hslot.
  cbn [stored put].
  destruct (cache_of c self !! key) as [u|] eqn:Hu.
  - intros [= <- <- <-]. auto.
  - destruct (request_result paths self w) as (w2 & Hreq & _ & Hclock).
    unfold mbind at 1. rewrite Hreq.
    destruct (http_get_json (requests w) (address self paths)) as [data|e].
    + rewrite mbind_lift. destruct (py_get data field default) as [v|e].
      * destruct (truthy v) eqn:Hv; unfold mbind, set_self, mret;
          intros [= <- <- <-]; split; eauto 8.
      * intros [= <- <- <-]. auto.
    + intros [= <- <- <-]. auto.
Qed.

Lemma clusters_change (self : BurrowClient) (w : World) r self1 w1 :
  clusters self w = (r, self1, w1) ->
  changed_by CallClusters self r self1 /\ clock_reads w1 = clock_reads w.
Proof.
  unfold clusters, changed_by. rewrite mbind_get_self. cbn [slot_of stored put].
  destruct (truthy (_clusters self)) eqn:Hc.
  - intros [= <- <- <-]. auto.
  - destruct (request_result [] self w) as (w2 & Hreq & _ & Hclock).
    unfold mbind at 1. rewrite Hreq.
    destruct (http_get_json (requests w) (address self [])) as [data|e].
    + rewrite mbind_lift. destruct (py_get data "clusters" (JArr [])) as [v|e].
      * destruct (truthy v) eqn:Hv; unfold mbind, set_self, mret;
          intros [= <- <- <-]; split; eauto 8.
      * intros [= <- <- <-]. auto.
    + intros [= <- <- <-]. auto.
Qed.

Lemma perform_change (q : call) (self : BurrowClient) (w : World) r self1 w1 :
  perform q self w = (r, self1, w1) ->
  changed_by q self r self1 /\ clock_reads w1 = clock_reads w.
Proof.
  destruct q; cbn [perform]; [apply clusters_change | eapply fetch_cached_change..];
    reflexivity.
Qed.

Lemma put_settings (s : slot) (v : json) (self : BurrowClient) :
  same_settings self (put s v self).
Proof. destruct s as [|c key]; [|destruct c]; repeat split. Qed.

Lemma stored_put_other (s s' : slot) (v : json) (self : BurrowClient) :
  s' <> s -> stored s' (put s v self) = stored s' self.
Proof.
  intros Hs. destruct s as [|c key]; cbn [put].
  - destruct s'; [contradiction | reflexivity].
  - apply stored_store_other. exact Hs.
Qed.

Lemma same_settings_refl (self : BurrowClient) : same_settings self self.
Proof. repeat split. Qed.

(** X5. An accessor call changes nothing but its own slot: the settings
    of the client (addresses, display modes, enabled sections, filters)
    and what is stored for every other key stay as they are, the clock is
    not read, and a call that raises leaves the whole client as it
    was. *)
Theorem accessor_changes_own_slot_only (q : call) (self : BurrowClient) (w : World)
    r self1 w1 :
  perform q self w = (r, self1, w1) ->
  same_settings self self1
  /\ (forall s, s <> slot_of q -> stored s self1 = stored s self)
  /\ clock_reads w1 = clock_reads w
  /\ (forall e, r = Raise e -> self1 = self).
Proof.
  intros Hq. apply perform_change in Hq as [[->|(v & -> & Hv & Hs & ->)] Hclock].
  - split; [apply same_settings_refl|]. repeat split; auto.
  - split; [apply put_settings|]. split; [intros s Hne; apply stored_put_other; exact Hne|].
    split; [exact Hclock | discriminate].
Qed.

Lemma cons_neq {A} (a : A) (l : list A) : a :: l <> l.
Proof.
  intros Heq. apply (f_equal (@length A)) in Heq. cbn [length] in Heq. lia.
Qed.

Lemma holds_no_empty_put (s : slot) (v : json) (self : BurrowClient) :
  truthy v = true -> holds_no_empty self -> holds_no_empty (put s v self).
Proof.
  intros Hv [Hc Hd]. destruct s as [|c key]; cbn [put].
  - split; [right; exact Hv | exact Hd].
  - split; [exact Hc|]. intros c' key' v'. rewrite cache_of_store.
    destruct (decide (c = c')) as [->|]; [|apply Hd].
    destruct (decide (key = key')) as [->|Hne].
    + rewrite lookup_insert_eq. intros [= <-]. exact Hv.
    + rewrite lookup_insert_ne by exact Hne. apply Hd.
Qed.

Lemma perform_no_empty (q : call) (self : BurrowClient) (w : World) :
  holds_no_empty self -> holds_no_empty (snd (fst (perform q self w))).
Proof.
  intros Hinv. destruct (perform q self w) as [[r self1] w1] eqn:Hq. cbn [fst snd].
  apply perform_change in Hq as [[->|(v & _ & Hv & _ & ->)] _]; [exact Hinv|].
  apply holds_no_empty_put; assumption.
Qed.

Lemma run_no_empty (qs : list call) (self : BurrowClient) (w : World) :
  holds_no_empty self -> holds_no_empty (fst (run qs self w)).
Proof.
  revert self w. induction qs as [|q qs IH]; intros self w Hinv; [exact Hinv|].
  cbn [run]. pose proof (perform_no_empty q self w Hinv) as Hstep.
  destruct (perform q self w) as [[r self1] w1]. apply IH. exact Hstep.
Qed.

Lemma init_no_empty (u a : string) (v d : bool) : holds_no_empty (init u a v d).
Proof.
  split; [left; reflexivity|]. intros c key x. destruct c; cbn; rewrite lookup_empty;
    discriminate.
Qed.

(** X6. Nothing empty is ever kept: a new client holds no empty value,
    every accessor call keeps it so, hence so does every sequence of
    calls; and on such a client a call that sends no request returns a
    non-empty value. *)
Theorem cache_holds_no_empty_value :
  (forall (u a : string) (v d : bool), holds_no_empty (init u a v d))
  /\ (forall (qs : list call) (self : BurrowClient) (w : World),
        holds_no_empty self -> holds_no_empty (fst (run qs self w)))
  /\ (forall (q : call) (self : BurrowClient) (w : World) v self1 w1,
        holds_no_empty self ->
        perform q self w = (Ok v, self1, w1) ->
        requests w1 = requests w ->
        truthy v = true).
Proof.
  split; [exact init_no_empty|]. split; [exact run_no_empty|].
  intros q self w v self1 w1 [Hc Hd] Hq Hsame.
  destruct (stored (slot_of q) self) as [u|] eqn:Hs.
  - rewrite (perform_hit _ _ _ _ Hs) in Hq. injection Hq as <- <- <-.
    destruct (slot_of q) as [|c key]; cbn [stored] in Hs.
    + destruct (truthy (_clusters self)) eqn:Ht; [|discriminate Hs].
      injection Hs as <-. exact Ht.
    + eapply Hd. exact Hs.
  - destruct (perform_miss q self w Hs) as (r & self2 & w2 & Hq2 & Hsent & _).
    rewrite Hq in Hq2. injection Hq2 as <- <- <-.
    rewrite Hsame in Hsent. symmetry in Hsent. apply cons_neq in Hsent. contradiction.
Qed.

End Frame.

(** The topic list of the test server: fetched, it changes only its own
    slot. *)
Lemma accessor_changes_own_slot_only_witness :
  same_settings Fixtures.client
    (snd (fst (@perform Fixtures.test_library (CallTopics "clustername1")
                 Fixtures.client fresh_world)))
  /\ stored (SlotKey Consumers "clustername1")
       (snd (fst (@perform Fixtures.test_library (CallTopics "clustername1")
                    Fixtures.client fresh_world)))
     = None.
Proof.
  set (X := @perform Fixtures.test_library (CallTopics "clustername1")
              Fixtures.client fresh_world).
  assert (HX : X = (fst (fst X), snd (fst X), snd X))
    by (destruct X as [[? ?] ?]; reflexivity).
  destruct (@accessor_changes_own_slot_only Fixtures.test_library
              (CallTopics "clustername1") Fixtures.client fresh_world _ _ _ HX)
    as (Hset & Hother & _ & _).
  split; [exact Hset|].
  rewrite (Hother (SlotKey Consumers "clustername1")); [reflexivity | discriminate].
Defined.

(** After three calls on the test server, the second call for the topic
    list is a hit and returns the list. *)
Lemma cache_holds_no_empty_value_witness :
  holds_no_empty
    (fst (@run Fixtures.test_library
            [CallTopics "clustername1"; CallConsumers "clustername1"; CallClusters]
            Fixtures.client fresh_world))
  /\ truthy (JArr [JStr "topicA"; JStr "topicB"]) = true.
Proof.
  destruct (@cache_holds_no_empty_value Fixtures.test_library) as (Hinit & Hrun & Hhit).
  split.
  - apply Hrun. apply Hinit.
  - pose (s1 := snd (fst (@perform Fixtures.test_library (CallTopics "clustername1")
                            Fixtures.client fresh_world))).
    pose (w1 := snd (@perform Fixtures.test_library (CallTopics "clustername1")
                       Fixtures.client fresh_world)).
    apply (Hhit (CallTopics "clustername1") s1 w1 _ s1 w1).
    + apply (Hrun [CallTopics "clustername1"] Fixtures.client fresh_world). apply Hinit.
    + reflexivity.
    + reflexivity.
Defined.

(** ** Numbers and timestamps *)

Section Numbers.
Context `{Externals}.

Lemma py_int_str_of_int (n : Z) : py_int (JStr (str_of_int n)) = Ok n.
Proof. cbn [py_int]. rewrite int_of_str_of_int. reflexivity. Qed.

(** X7. [format_number] takes an integer or its text, as its docstring
    says: the decimal text of an integer is formatted like the integer
    itself, in both display modes, and in the plain mode a result is
    accepted again and comes back unchanged.  A boolean is formatted as
    the integer 1 or 0.  A string that is refused is refused with
    [ValueError] and nothing else; [None], a list and a dict are refused
    with [TypeError]. *)
Theorem format_number_accepts_text (self : BurrowClient) :
  (forall n : Z, format_number self (JStr (str_of_int n)) = format_number self (JInt n))
  /\ (forall (v : json) (t : string),
        decimal self = false ->
        format_number self v = Ok t -> format_number self (JStr t) = Ok t)
  /\ (forall b : bool,
        format_number self (JBool b) = format_number self (JInt (if b then 1 else 0)))
  /\ (forall (s : string) (e : exn),
        format_number self (JStr s) = Raise e -> e = ValueError)
  /\ format_number self JNull = Raise TypeError
  /\ (forall l : list json, format_number self (JArr l) = Raise TypeError)
  /\ (forall f : list (string * json), format_number self (JObj f) = Raise TypeError).
Proof.
  split; [|split; [|split; [|split; [|split; [|split]]]]].
  - intros n. unfold format_number. rewrite py_int_str_of_int. reflexivity.
  - intros v t Hd. unfold format_number. rewrite Hd.
    destruct (py_int v) as [n|e]; cbn [rbind]; [|discriminate].
    intros [= <-]. rewrite py_int_str_of_int. reflexivity.
  - intros b. reflexivity.
  - intros s e. unfold format_number. cbn [py_int].
    destruct (int_of_str s); cbn [rbind]; [destruct (decimal self); discriminate|].
    intros [= <-]. reflexivity.
  - reflexivity.
  - intros l. reflexivity.
  - intros f. reflexivity.
Qed.

Lemma parse_digits_rejects (c : ascii) (l : list ascii) :
  is_digit c = false -> c <> "_"%char -> In c l ->
  forall acc b, parse_digits acc b l = None.
Proof.
  intros Hd Hu. induction l as [|x l IH]; intros Hin acc b; [destruct Hin|].
  cbn [parse_digits]. destruct Hin as [->|Hin].
  - rewrite Hd. destruct (Ascii.eqb_spec c "_"%char); [contradiction | reflexivity].
  - destruct (is_digit x); [apply IH; exact Hin|].
    destruct (Ascii.eqb x "_" && b); [|reflexivity].
    destruct l as [|d l']; [reflexivity|].
    destruct (is_digit d); [apply IH; exact Hin | reflexivity].
Qed.

Lemma lstrip_keeps (c : ascii) (l : list ascii) :
  is_space c = false -> In c l -> In c (lstrip l).
Proof.
  intros Hc. induction l as [|x l IH]; [auto|]. cbn [lstrip].
  destruct (is_space x) eqn:Hx; [|auto].
  intros [->|Hin]; [congruence | apply IH; exact Hin].
Qed.

Lemma strip_keeps (c : ascii) (l : list ascii) :
  is_space c = false -> In c l -> In c (strip l).
Proof.
  intros Hc Hin. unfold strip.
  apply (proj1 (List.in_rev _ _)). apply lstrip_keeps; [exact Hc|].
  apply (proj1 (List.in_rev _ _)). apply lstrip_keeps; assumption.
Qed.

Lemma int_of_str_rejects (c : ascii) (s : string) :
  is_digit c = false -> is_space c = false -> c <> "_"%char ->
  c <> "+"%char -> c <> "-"%char ->
  has_char c s = true -> int_of_str s = None.
Proof.
  intros Hd Hs Hu Hplus Hminus Hin. unfold int_of_str.
  assert (Hc : In c (strip (list_ascii_of_string s))).
  { apply strip_keeps; [exact Hs|]. unfold has_char in Hin.
    apply existsb_exists in Hin as (x & Hx & Heq).
    apply Ascii.eqb_eq in Heq as ->. exact Hx. }
  pose proof (parse_digits_rejects c _ Hd Hu Hc 0 false) as Hall.
  destruct (strip (list_ascii_of_string s)) as [|x l]; [destruct Hc|].
  assert (Htail : x <> c -> parse_digits 0 false l = None).
  { intros Hx. apply parse_digits_rejects with (c := c); try assumption.
    destruct Hc as [Hc|Hc]; [contradiction | exact Hc]. }
  destruct (Ascii.eqb_spec x "+"%char) as [->|Hx1].
  - apply Htail. congruence.
  - destruct (Ascii.eqb_spec x "-"%char) as [->|Hx2].
    + rewrite Htail by congruence. reflexivity.
    + destruct x as [[|] [|] [|] [|] [|] [|] [|] [|]]; try exact Hall; contradiction.
Qed.

(** X8. A text with a comma in it is no number for [format_number]: it
    raises [ValueError].  So a grouped text of the decimal mode, such as
    "1,234,567", is not accepted back. *)
Theorem format_number_rejects_commas (self : BurrowClient) (s : string) :
  has_char "," s = true -> format_number self (JStr s) = Raise ValueError.
Proof.
  intros Hs. unfold format_number. cbn [py_int].
  rewrite (int_of_str_rejects ","%char s); try reflexivity; try discriminate. exact Hs.
Qed.

End Numbers.

(** The grouped text of 1234567. *)
Lemma format_number_rejects_commas_witness :
  format_number (set_decimal true Fixtures.client) (JInt 1234567) = Ok "1,234,567"
  /\ format_number (set_decimal true Fixtures.client) (JStr "1,234,567") = Raise ValueError.
Proof.
  split; [reflexivity|].
  apply (format_number_rejects_commas (set_decimal true Fixtures.client) "1,234,567").
  reflexivity.
Defined.

(** The text "1234567" and a text that is no number. *)
Lemma format_number_accepts_text_witness :
  format_number Fixtures.client (JStr "1234567") = Ok "1234567"
  /\ format_number Fixtures.client (JStr "12a") = Raise ValueError.
Proof.
  destruct (format_number_accepts_text Fixtures.client) as (_ & Hidem & _ & Herr & _).
  split.
  - apply (Hidem (JInt 1234567) "1234567"); reflexivity.
  - destruct (format_number Fixtures.client (JStr "12a")) as [t|e] eqn:Hrun.
    + vm_compute in Hrun. discriminate Hrun.
    + rewrite (Herr "12a" e Hrun). reflexivity.
Defined.

Section Timestamps.
Context `{Externals}.

Lemma py_int_not_runtime (v : json) : py_int v <> Raise RuntimeError.
Proof.
  destruct v as [|b|n|s|l|f]; cbn [py_int]; try discriminate.
  destruct (int_of_str s); discriminate.
Qed.

(** X9. [timestamp_to_date] never lets a [RuntimeError] out, and the
    sentinel "?" comes from nowhere else: a result is either the text of
    the date the library made of the integer, or "?" because the library
    raised [RuntimeError] on it.  Any other exception of the conversion
    or of the library is passed on as it is. *)
Theorem timestamp_to_date_outcomes (timestamp : json) :
  (forall s, timestamp_to_date timestamp = Ok s ->
     exists ms,
       py_int timestamp = Ok ms
       /\ ((exists date, fromtimestamp ms = Ok date /\ s = str_datetime date)
           \/ (fromtimestamp ms = Raise RuntimeError /\ s = "?")))
  /\ (forall e, timestamp_to_date timestamp = Raise e ->
        e <> RuntimeError
        /\ (py_int timestamp = Raise e
            \/ exists ms, py_int timestamp = Ok ms /\ fromtimestamp ms = Raise e)).
Proof.
  unfold timestamp_to_date.
  pose proof (py_int_not_runtime timestamp) as Hnr.
  destruct (py_int timestamp) as [ms|e0]; cbn [rbind except_RuntimeError].
  - destruct (fromtimestamp ms) as [date|e1] eqn:Hdate; cbn [rbind except_RuntimeError].
    + split; [|discriminate]. intros s [= <-]. exists ms. split; [reflexivity|].
      left. eauto.
    + destruct e1; cbn; split; try discriminate; try (intros e [= <-]; split;
        [discriminate | right; eauto]).
      intros s [= <-]. exists ms. split; [reflexivity|]. right. auto.
  - destruct e0; try contradiction; split; try discriminate;
      intros e [= <-]; split; try discriminate; auto.
Qed.

(** X10. [timestamp_to_age] reads the clock once, after the timestamp has
    been converted and made a date, and not at all when either step
    raises; it subtracts that date from the clock reading.  It changes
    neither the client nor the requests nor the output, and lets no
    [RuntimeError] out. *)
Theorem timestamp_to_age_reads_clock_once (timestamp : json) (self : BurrowClient)
    (w : World) r self1 w1 :
  timestamp_to_age timestamp self w = (r, self1, w1) ->
  self1 = self
  /\ requests w1 = requests w
  /\ stdout w1 = stdout w
  /\ r <> Raise RuntimeError
  /\ ((exists ms date,
         py_int timestamp = Ok ms /\ fromtimestamp ms = Ok date
         /\ clock_reads w1 = S (clock_reads w)
         /\ r = Ok (str_timedelta (datetime_sub (now (clock_reads w)) date)))
      \/ (clock_reads w1 = clock_reads w
          /\ (is_ok (py_int timestamp) = false
              \/ exists ms, py_int timestamp = Ok ms
                            /\ is_ok (fromtimestamp ms) = false))).
Proof.
  unfold timestamp_to_age. rewrite mbind_lift.
  pose proof (py_int_not_runtime timestamp) as Hnr.
  destruct (py_int timestamp) as [ms|e0].
  - rewrite mbind_lift. destruct (fromtimestamp ms) as [date|e1] eqn:Hdate.
    + unfold mbind, read_clock, get_world, set_world, mret. intros [= <- <- <-].
      cbn [requests stdout clock_reads]. repeat split; try discriminate.
      left. exists ms, date. auto.
    + destruct e1; intros [= <- <- <-]; repeat split; try discriminate;
        right; (split; [reflexivity|]); right; exists ms; rewrite ?Hdate; auto.
  - destruct e0; try contradiction; intros [= <- <- <-]; repeat split;
      try discriminate; right; auto.
Qed.

End Timestamps.

(** The last timestamp of the test data on the test clock, and a
    timestamp that is no number. *)
Lemma timestamp_to_date_outcomes_witness :
  (exists ms,
     py_int (JInt 1511780580382) = Ok ms
     /\ ((exists date, @fromtimestamp Fixtures.test_library ms = Ok date
                       /\ "1511780580382" = @str_datetime Fixtures.test_library date)
         \/ (@fromtimestamp Fixtures.test_library ms = Raise RuntimeError
             /\ "1511780580382" = "?")))
  /\ ValueError <> RuntimeError.
Proof.
  destruct (@timestamp_to_date_outcomes Fixtures.test_library (JInt 1511780580382))
    as (Hok & _).
  destruct (@timestamp_to_date_outcomes Fixtures.test_library (JStr "abc")) as (_ & Herr).
  split.
  - apply Hok. reflexivity.
  - apply (Herr ValueError). reflexivity.
Defined.

Lemma timestamp_to_age_reads_clock_once_witness :
  clock_reads (snd (@timestamp_to_age Fixtures.test_library (JInt 1511200836090)
                      Fixtures.client fresh_world)) = 1%nat
  /\ clock_reads (snd (@timestamp_to_age Fixtures.test_library (JStr "abc")
                         Fixtures.client fresh_world)) = 0%nat.
Proof.
  split.
  - destruct (@timestamp_to_age_reads_clock_once Fixtures.test_library
                (JInt 1511200836090) Fixtures.client fresh_world _ _ _ eq_refl)
      as (_ & _ & _ & _ & [(ms & date & _ & _ & Hclock & _)|[_ [Hno|(ms & _ & Hno)]]]).
    + exact Hclock.
    + discriminate Hno.
    + discriminate Hno.
  - destruct (@timestamp_to_age_reads_clock_once Fixtures.test_library
                (JStr "abc") Fixtures.client fresh_world _ _ _ eq_refl)
      as (_ & _ & _ & _ & [(ms & date & Hint & _)|[Hclock _]]).
    + discriminate Hint.
    + exact Hclock.
Defined.

(** ** The normalizer and the filters at their edges *)

Section Edges.
Context `{Externals}.

(** X11. [get_partition_stats] returns for every object and raises
    [AttributeError] for everything else.  Topic, status, owner and
    partition default to "?"; offset and timestamp are read from [end]
    only and are 0 when [end] is missing or is not an object, and so is
    the lag unless the record has [current_lag]; the [start] entry is
    never looked at. *)
Theorem get_partition_stats_edges :
  (forall v : json, is_dict v = false -> get_partition_stats v = Raise AttributeError)
  /\ (forall fields : list (string * json),
        exists st,
          get_partition_stats (JObj fields) = Ok st
          /\ st_topic st = field_or (JStr "?") "topic" fields
          /\ st_status st = field_or (JStr "?") "status" fields
          /\ st_owner st = field_or (JStr "?") "owner" fields
          /\ st_partition st = field_or (JStr "?") "partition" fields
          /\ st_offset st = field_or (JInt 0) "offset" (end_fields fields)
          /\ st_timestamp st = field_or (JInt 0) "timestamp" (end_fields fields)
          /\ (end_fields fields = [] ->
              st_offset st = JInt 0 /\ st_timestamp st = JInt 0
              /\ (assoc "current_lag" fields = None -> st_lag st = JInt 0)))
  /\ (forall (before after : list (string * json)) (v : json),
        get_partition_stats (JObj (before ++ ("start", v) :: after))
        = get_partition_stats (JObj (before ++ ("start", JNull) :: after))).
Proof.
  split; [|split].
  - intros v Hv. destruct v; try reflexivity. discriminate Hv.
  - intros fields. eexists. split; [apply get_partition_stats_obj|].
    cbn [st_topic st_status st_owner st_partition st_offset st_timestamp st_lag].
    repeat (split; [reflexivity|]).
    intros ->. repeat split. intros ->. reflexivity.
  - intros before after v. rewrite !get_partition_stats_obj.
    assert (Hassoc : forall k, k <> "start" ->
              assoc k (before ++ ("start", v) :: after)
              = assoc k (before ++ ("start", JNull) :: after)).
    { intros k Hk. induction before as [|[k' v'] before IH]; simpl.
      - destruct (String.eqb_spec k "start"); [contradiction | reflexivity].
      - destruct (String.eqb k k'); [reflexivity | exact IH]. }
    unfold field_or, end_fields. rewrite !Hassoc by discriminate. reflexivity.
Qed.

(** X12. With a non-empty pattern, a filter rejects every falsy value,
    whatever its type, without looking at the pattern: a malformed
    pattern goes unnoticed then.  For a truthy value the pattern is
    compiled first, so its error comes out even when the value is no
    string; with a pattern that compiles, a truthy value that is not a
    string raises [TypeError]. *)
Theorem filters_on_odd_values (self : BurrowClient) (pattern : string) (value : json) :
  pattern <> "" ->
  (filter_topic self = Some pattern ->
     (truthy value = false -> match_topic self value = Ok false)
     /\ (truthy value = true -> forall e, re_compile pattern = Raise e ->
           match_topic self value = Raise e)
     /\ (truthy value = true -> (forall s, value <> JStr s) ->
           forall r, re_compile pattern = Ok r -> match_topic self value = Raise TypeError))
  /\ (filter_consumer self = Some pattern ->
        (truthy value = false -> match_consumer self value = Ok false)
        /\ (truthy value = true -> forall e, re_compile pattern = Raise e ->
              match_consumer self value = Raise e)
        /\ (truthy value = true -> (forall s, value <> JStr s) ->
              forall r, re_compile pattern = Ok r ->
              match_consumer self value = Raise TypeError)).
Proof.
  intros Hp. unfold match_topic, match_consumer.
  split; intros ->; rewrite (truthy_str _ Hp); cbn [negb].
  - split; [intros ->; reflexivity|].
    split; intros ->; cbn [negb]; unfold re_match.
    + intros e ->. reflexivity.
    + intros Hns r ->. cbn [rbind]. destruct value; try reflexivity.
      exfalso. eapply Hns. reflexivity.
  - split; [intros ->; reflexivity|].
    split; intros ->; cbn [negb]; unfold re_match.
    + intros e ->. reflexivity.
    + intros Hns r ->. cbn [rbind]. destruct value; try reflexivity.
      exfalso. eapply Hns. reflexivity.
Qed.

End Edges.

(** A record whose [end] is a number, and the filter "top" on the values
    0 and 5. *)
Lemma get_partition_stats_edges_witness :
  get_partition_stats (JInt 5) = Raise AttributeError
  /\ exists st,
       get_partition_stats (JObj [("end", JInt 7); ("topic", JStr "t")]) = Ok st
       /\ st_offset st = JInt 0 /\ st_timestamp st = JInt 0 /\ st_lag st = JInt 0.
Proof.
  destruct get_partition_stats_edges as (Herr & Hobj & _).
  split; [apply Herr; reflexivity|].
  destruct (Hobj [("end", JInt 7); ("topic", JStr "t")])
    as (st & Hst & _ & _ & _ & _ & _ & _ & Hend).
  destruct (Hend eq_refl) as (Ho & Ht & Hl).
  exists st. repeat split; auto.
Defined.

Lemma filters_on_odd_values_witness :
  @match_topic Fixtures.test_library
    (set_filter_topic (Some "top") Fixtures.client) (JInt 0) = Ok false
  /\ @match_topic Fixtures.test_library
       (set_filter_topic (Some "top") Fixtures.client) (JInt 5) = Raise TypeError.
Proof.
  destruct (@filters_on_odd_values Fixtures.test_library
              (set_filter_topic (Some "top") Fixtures.client) "top" (JInt 0))
    as [Ht _]; [discriminate|].
  destruct (Ht eq_refl) as (Hfalsy & _).
  destruct (@filters_on_odd_values Fixtures.test_library
              (set_filter_topic (Some "top") Fixtures.client) "top" (JInt 5))
    as [Ht5 _]; [discriminate|].
  destruct (Ht5 eq_refl) as (_ & _ & Htype).
  split; [apply Hfalsy; reflexivity|].
  eapply Htype; [reflexivity | discriminate | reflexivity].
Defined.

(** ** What the status loop accumulates *)

Section Tally.
Context `{Externals}.

(** One turn of the loop, taken apart. *)
Lemma tally_partition_inv (self : BurrowClient) (acc acc' : tally) (p : json) :
  tally_partition self acc p = Ok acc' ->
  exists st passes,
    get_partition_stats p = Ok st
    /\ match_topic self (st_topic st) = Ok passes
    /\ if passes then
         exists above_o above_t,
           py_gt (st_offset st) (t_max_offset acc) = Ok above_o
           /\ py_gt (st_timestamp st) (t_max_timestamp acc) = Ok above_t
           /\ t_max_offset acc' = (if above_o then st_offset st else t_max_offset acc)
           /\ t_max_timestamp acc'
              = (if above_t then st_timestamp st else t_max_timestamp acc)
           /\ (if truthy (st_topic st)
               then exists k, hashable (st_topic st) = Ok k
                              /\ t_topics acc' = dict_count k (t_topics acc)
               else t_topics acc' = t_topics acc)
       else acc' = acc.
Proof.
  unfold tally_partition.
  destruct (get_partition_stats p) as [st|e]; cbn [rbind]; [|discriminate].
  destruct (match_topic self (st_topic st)) as [passes|e] eqn:Hpass; cbn [rbind];
    [|discriminate].
  intros Hacc. exists st, passes. split; [reflexivity|]. split; [exact Hpass|].
  destruct passes; cbn [negb] in Hacc; [|injection Hacc as <-; reflexivity].
  destruct (py_gt (st_offset st) (t_max_offset acc)) as [ao|e] eqn:Hao;
    cbn [rbind] in Hacc; [|discriminate].
  destruct (py_gt (st_timestamp st) (t_max_timestamp acc)) as [at_|e] eqn:Hat;
    cbn [rbind] in Hacc; [|discriminate].
  exists ao, at_. split; [reflexivity|]. split; [reflexivity|].
  destruct (truthy (st_topic st)).
  - destruct (hashable (st_topic st)) as [k|e]; cbn [rbind] in Hacc; [|discriminate].
    destruct (if truthy (st_owner st) then _ else _) as [owners|e]; cbn [rbind] in Hacc;
      [|discriminate].
    injection Hacc as <-. cbn. eauto 6.
  - cbn [rbind] in Hacc.
    destruct (if truthy (st_owner st) then _ else _) as [owners|e]; cbn [rbind] in Hacc;
      [|discriminate].
    injection Hacc as <-. cbn. auto.
Qed.

Lemma passing_stats_cons (self : BurrowClient) (p : json) (ps : list json) st passes :
  get_partition_stats p = Ok st ->
  match_topic self (st_topic st) = Ok passes ->
  passing_stats self (p :: ps)
  = if passes then st :: passing_stats self ps else passing_stats self ps.
Proof.
  intros Hst Hp. unfold passing_stats. cbn [omap list_omap].
  rewrite Hst. unfold passes_topic. rewrite Hp. destruct passes; reflexivity.
Qed.

Lemma tally_partitions_max (self : BurrowClient) (ps : list json) :
  forall (acc acc' : tally) (mo mt : Z),
    tally_partitions self acc ps = Ok acc' ->
    t_max_offset acc = JInt mo -> t_max_timestamp acc = JInt mt ->
    Forall (fun st => exists o t, st_offset st = JInt o /\ st_timestamp st = JInt t)
           (passing_stats self ps) ->
    t_max_offset acc'
    = JInt (list_max mo (map (fun st => as_int (st_offset st)) (passing_stats self ps)))
    /\ t_max_timestamp acc'
       = JInt (list_max mt (map (fun st => as_int (st_timestamp st))
                              (passing_stats self ps))).
Proof.
  induction ps as [|p ps IH]; intros acc acc' mo mt; cbn [tally_partitions].
  - intros [= <-] Ho Ht _. auto.
  - destruct (tally_partition self acc p) as [acc1|e] eqn:Hstep; cbn [rbind]; [|discriminate].
    intros Hrest Ho Ht Hints.
    apply tally_partition_inv in Hstep as (st & passes & Hst & Hpass & Hstep).
    rewrite (passing_stats_cons _ _ _ _ _ Hst Hpass) in *.
    destruct passes.
    + destruct Hstep as (ao & at_ & Hao & Hat & Hmo & Hmt & _).
      inversion Hints as [|? ? (o & t & Hso & Hts) Hints']; subst.
      rewrite Ho, Hso in Hao. rewrite Ht, Hts in Hat.
      cbn in Hao, Hat. injection Hao as <-. injection Hat as <-.
      cbn [map]. rewrite Hso, Hts. cbn [as_int]. unfold list_max. cbn [fold_left].
      apply IH with (acc := acc1); try assumption.
      * rewrite Hmo, Ho, Hso. destruct (Z.ltb_spec mo o); f_equal; lia.
      * rewrite Hmt, Ht, Hts. destruct (Z.ltb_spec mt t); f_equal; lia.
    + subst acc1. apply IH with (acc := acc); assumption.
Qed.

(** X13. For partitions with integer offsets and timestamps, the loop of
    the status summary ends with the greatest offset and the greatest
    timestamp of the partitions that pass the topic filter, or with 0
    when all of them are below 0 or none passes: the results are never
    negative and no passing partition exceeds them. *)
Theorem status_maxima (self : BurrowClient) (partitions : list json) (acc : tally) :
  tally_partitions self empty_tally partitions = Ok acc ->
  Forall (fun st => exists o t, st_offset st = JInt o /\ st_timestamp st = JInt t)
         (passing_stats self partitions) ->
  exists mo mt,
    t_max_offset acc = JInt mo /\ t_max_timestamp acc = JInt mt
    /\ 0 <= mo /\ 0 <= mt
    /\ Forall (fun st => as_int (st_offset st) <= mo
                         /\ as_int (st_timestamp st) <= mt)
              (passing_stats self partitions)
    /\ (mo = 0 \/ exists st, In st (passing_stats self partitions)
                             /\ st_offset st = JInt mo)
    /\ (mt = 0 \/ exists st, In st (passing_stats self partitions)
                             /\ st_timestamp st = JInt mt).
Proof.
  intros Hacc Hints.
  destruct (tally_partitions_max self partitions empty_tally acc 0 0 Hacc eq_refl eq_refl Hints)
    as [Ho Ht].
  set (os := map (fun st => as_int (st_offset st)) (passing_stats self partitions)) in *.
  set (ts := map (fun st => as_int (st_timestamp st)) (passing_stats self partitions)) in *.
  destruct (list_max_spec 0 os) as [Hino Hallo].
  destruct (list_max_spec 0 ts) as [Hint Hallt].
  exists (list_max 0 os), (list_max 0 ts).
  split; [exact Ho|]. split; [exact Ht|].
  inversion Hallo as [|? ? H0o Hallo']; subst.
  inversion Hallt as [|? ? H0t Hallt']; subst.
  split; [exact H0o|]. split; [exact H0t|]. split.
  { rewrite List.Forall_forall in *. intros st Hst. split.
    - apply Hallo'. subst os. apply in_map_iff. eauto.
    - apply Hallt'. subst ts. apply in_map_iff. eauto. }
  rewrite List.Forall_forall in Hints.
  split.
  - destruct Hino as [Hz|Hin]; [left; symmetry; exact Hz|]. right.
    subst os. apply in_map_iff in Hin as (st & Hst & Hin). exists st. split; [exact Hin|].
    destruct (Hints st Hin) as (o & t & Hso & _). rewrite Hso in Hst. cbn in Hst.
    congruence.
  - destruct Hint as [Hz|Hin]; [left; symmetry; exact Hz|]. right.
    subst ts. apply in_map_iff in Hin as (st & Hst & Hin). exists st. split; [exact Hin|].
    destruct (Hints st Hin) as (o & t & _ & Hts). rewrite Hts in Hst. cbn in Hst.
    congruence.
Qed.

End Tally.

(** Two partitions of one topic, one of them below the other. *)
Lemma status_maxima_witness :
  let partitions := [Fixtures.partition_of "topicA" (Some "alice") 0;
                     Fixtures.partition_entry] in
  exists acc mo mt,
    tally_partitions (H:=Fixtures.test_library) Fixtures.client empty_tally partitions
    = Ok acc
    /\ t_max_offset acc = JInt mo /\ t_max_timestamp acc = JInt mt
    /\ 0 <= mo /\ 0 <= mt.
Proof.
  intros partitions.
  set (acc := match tally_partitions (H:=Fixtures.test_library) Fixtures.client
                      empty_tally partitions with
              | Ok a => a
              | Raise _ => empty_tally
              end).
  destruct (status_maxima (H:=Fixtures.test_library) Fixtures.client partitions acc)
    as (mo & mt & Ho & Ht & Hmo & Hmt & _).
  - vm_compute. reflexivity.
  - vm_compute. repeat constructor; eexists; eexists; split; reflexivity.
  - exists acc, mo, mt. split; [vm_compute; reflexivity|]. auto.
Defined.

Section Counts.
Context `{Externals}.

Lemma py_eqb_str (v : json) (t : string) : py_eqb v (JStr t) = true -> v = JStr t.
Proof.
  destruct v; cbn; try discriminate. intros Heq. apply String.eqb_eq in Heq. congruence.
Qed.

Lemma scalar_eqb_str_r (k : scalar) (t : string) :
  scalar_eqb k (SStr t) = true -> k = SStr t.
Proof.
  unfold scalar_eqb. intros Heq. apply py_eqb_str in Heq.
  destruct k; cbn in Heq; congruence.
Qed.

Lemma scalar_eqb_str_refl (t : string) : scalar_eqb (SStr t) (SStr t) = true.
Proof. unfold scalar_eqb. cbn. apply String.eqb_refl. Qed.

Lemma dict_get_absent (t : string) (d : list (scalar * Z)) :
  dict_mem (SStr t) d = false -> dict_get (SStr t) d = 0.
Proof.
  induction d as [|[k n] d IH]; cbn; [reflexivity|].
  destruct (scalar_eqb k (SStr t)); cbn; [discriminate|exact IH].
Qed.

Lemma dict_get_app (t : string) (k : scalar) (d : list (scalar * Z)) :
  dict_get (SStr t) (d ++ [(k, 1)])
  = if dict_mem (SStr t) d then dict_get (SStr t) d
    else if scalar_eqb k (SStr t) then 1 else 0.
Proof.
  induction d as [|[k' n] d IH]; simpl; [reflexivity|].
  destruct (scalar_eqb k' (SStr t)); cbn; [reflexivity|exact IH].
Qed.

Lemma dict_get_incr (t : string) (k : scalar) (d : list (scalar * Z)) :
  dict_mem k d = true ->
  dict_get (SStr t) (dict_incr k d)
  = dict_get (SStr t) d + (if scalar_eqb k (SStr t) then 1 else 0).
Proof.
  induction d as [|[k' n] d IH]; cbn; [discriminate|].
  destruct (scalar_eqb k' k) eqn:Hk; cbn.
  - intros _. destruct (scalar_eqb k' (SStr t)) eqn:Ht.
    + apply scalar_eqb_str_r in Ht. subst k'. apply scalar_eqb_str in Hk. subst k.
      rewrite scalar_eqb_str_refl. reflexivity.
    + destruct (scalar_eqb k (SStr t)) eqn:Hkt; [|lia].
      apply scalar_eqb_str_r in Hkt. subst k. apply scalar_eqb_str_r in Hk. subst k'.
      rewrite scalar_eqb_str_refl in Ht. discriminate.
  - intros Hmem. destruct (scalar_eqb k' (SStr t)) eqn:Ht; [|exact (IH Hmem)].
    apply scalar_eqb_str_r in Ht. subst k'.
    destruct (scalar_eqb k (SStr t)) eqn:Hkt; [|lia].
    apply scalar_eqb_str_r in Hkt. subst k. rewrite scalar_eqb_str_refl in Hk. discriminate.
Qed.

Lemma dict_get_count (t : string) (k : scalar) (d : list (scalar * Z)) :
  dict_get (SStr t) (dict_count k d)
  = dict_get (SStr t) d + (if scalar_eqb k (SStr t) then 1 else 0).
Proof.
  unfold dict_count. destruct (dict_mem k d) eqn:Hmem; cbn [negb].
  - apply dict_get_incr. exact Hmem.
  - rewrite dict_get_app. destruct (dict_mem (SStr t) d) eqn:Ht.
    + destruct (scalar_eqb k (SStr t)) eqn:Hkt; [|lia].
      apply scalar_eqb_str_r in Hkt. subst k. congruence.
    + rewrite (dict_get_absent _ _ Ht). reflexivity.
Qed.

Lemma count_topic_cons (t : string) (st : partition_stats) (l : list partition_stats) :
  count_topic t (st :: l)
  = (if py_eqb (st_topic st) (JStr t) then 1 else 0) + count_topic t l.
Proof.
  unfold count_topic. cbn [List.filter].
  destruct (py_eqb (st_topic st) (JStr t)); cbn [length]; lia.
Qed.

Lemma tally_partitions_counts (self : BurrowClient) (t : string) (ps : list json) :
  t <> "" ->
  forall (acc acc' : tally),
    tally_partitions self acc ps = Ok acc' ->
    dict_get (SStr t) (t_topics acc')
    = dict_get (SStr t) (t_topics acc) + count_topic t (passing_stats self ps).
Proof.
  intros Ht.
  induction ps as [|p ps IH]; intros acc acc'; cbn [tally_partitions].
  - intros [= <-]. unfold count_topic. cbn. lia.
  - destruct (tally_partition self acc p) as [acc1|e] eqn:Hstep; cbn [rbind]; [|discriminate].
    intros Hrest.
    apply tally_partition_inv in Hstep as (st & passes & Hst & Hpass & Hstep).
    rewrite (passing_stats_cons _ _ _ _ _ Hst Hpass).
    rewrite (IH _ _ Hrest).
    destruct passes; [|subst acc1; reflexivity].
    destruct Hstep as (ao & at_ & _ & _ & _ & _ & Htopics).
    rewrite count_topic_cons.
    destruct (truthy (st_topic st)) eqn:Htruthy.
    + destruct Htopics as (k & Hk & ->). rewrite dict_get_count.
      unfold scalar_eqb. rewrite (hashable_json _ _ Hk). cbn [json_of_scalar]. lia.
    + rewrite Htopics.
      destruct (py_eqb (st_topic st) (JStr t)) eqn:Heq; [|lia].
      apply py_eqb_str in Heq. rewrite Heq in Htruthy. cbn in Htruthy.
      destruct (String.eqb_spec t ""); [contradiction|discriminate].
Qed.

(** X14. The topic tally of the status summary counts partitions: under
    a topic name that is not empty it holds the number of partitions of
    that topic that pass the topic filter (nothing when there is none),
    whatever else the list holds. *)
Theorem status_topic_counts (self : BurrowClient) (partitions : list json)
    (acc : tally) (topic : string) :
  tally_partitions self empty_tally partitions = Ok acc ->
  topic <> "" ->
  dict_get (SStr topic) (t_topics acc) = count_topic topic (passing_stats self partitions)
  /\ (dict_mem (SStr topic) (t_topics acc) = false ->
      count_topic topic (passing_stats self partitions) = 0).
Proof.
  intros Hacc Ht.
  pose proof (tally_partitions_counts self topic partitions Ht _ _ Hacc) as Hcount.
  change (dict_get (SStr topic) (t_topics empty_tally)) with 0 in Hcount.
  rewrite Z.add_0_l in Hcount. split; [exact Hcount|].
  intros Habsent. rewrite <- Hcount. apply dict_get_absent. exact Habsent.
Qed.

End Counts.

(** Two partitions of one topic and one of another. *)
Lemma status_topic_counts_witness :
  let partitions := [Fixtures.partition_of "topicA" (Some "alice") 0;
                     Fixtures.partition_of "topicB" None 0;
                     Fixtures.partition_of "topicA" None 1] in
  exists acc,
    tally_partitions (H:=Fixtures.test_library) Fixtures.client empty_tally partitions
    = Ok acc
    /\ dict_get (SStr "topicA") (t_topics acc) = 2.
Proof.
  intros partitions.
  set (acc := match tally_partitions (H:=Fixtures.test_library) Fixtures.client
                      empty_tally partitions with
              | Ok a => a
              | Raise _ => empty_tally
              end).
  destruct (status_topic_counts (H:=Fixtures.test_library) Fixtures.client partitions acc
              "topicA") as [Hcount _].
  - vm_compute. reflexivity.
  - discriminate.
  - exists acc. split; [vm_compute; reflexivity|]. rewrite Hcount. vm_compute. reflexivity.
Defined.

Section TopicsColumn.

Lemma item_lt_named (a b : scalar * Z) :
  named a -> named b ->
  exists r, item_lt a b = Ok r /\ if r then item_le a b else item_le b a.
Proof.
  destruct a as [ka n], b as [kb m]. intros [s Hs] [t Ht]. cbn in Hs, Ht. subst ka kb.
  unfold item_lt, item_le. cbn [fst snd json_of_scalar str_of_scalar].
  rewrite py_lt_arr. cbn [list_lt py_eqb py_lt as_num].
  destruct (String.eqb_spec s t) as [->|Hne].
  - destruct (n =? m); eexists; (split; [reflexivity|]).
    + apply str_le_refl.
    + destruct (n <? m); apply str_le_refl.
  - eexists. split; [reflexivity|].
    destruct (str_ltb s t) eqn:Hlt; [apply str_lt_le; exact Hlt | exact Hlt].
Qed.

(** X15. The topics column of the verbose status summary: for topics
    named by strings it is always produced, and it is the items of the
    tally, each shown as name[count], joined by commas in the order of
    their names. *)
Theorem topics_column_sorted (topics : list (scalar * Z)) :
  Forall named topics ->
  exists sorted,
    topics_string topics = Ok (String.concat "," (map item_text sorted))
    /\ Permutation topics sorted
    /\ StronglySorted item_le sorted.
Proof.
  intros Hnamed.
  destruct (sort_by_total item_lt topics) as [sorted Hsort].
  { intros x y Hx Hy. rewrite List.Forall_forall in Hnamed.
    destruct (item_lt_named x y (Hnamed x Hx) (Hnamed y Hy)) as (r & -> & _).
    reflexivity. }
  exists sorted. split; [|split].
  - unfold topics_string. rewrite Hsort. cbn [rbind]. do 2 f_equal.
    apply map_ext. intros [k n]. reflexivity.
  - eapply sort_by_perm. exact Hsort.
  - eapply (sort_by_sorted item_lt named item_le); [| |exact Hnamed|exact Hsort].
    + intros a b c. unfold item_le. apply str_le_trans.
    + intros x y b Hx Hy Hlt.
      destruct (item_lt_named x y Hx Hy) as (r & Hr & Hle).
      rewrite Hr in Hlt. injection Hlt as <-. exact Hle.
Qed.

End TopicsColumn.

(** Two topics given out of order. *)
Lemma topics_column_sorted_witness :
  topics_string [(SStr "topicB", 1); (SStr "topicA", 2)] = Ok "topicA[2],topicB[1]".
Proof.
  destruct (topics_column_sorted [(SStr "topicB", 1); (SStr "topicA", 2)])
    as (sorted & Hs & _ & _).
  - repeat constructor; eexists; reflexivity.
  - vm_compute. reflexivity.
Defined.

(** ** Loops that add rows to a table *)

Section Loops.
Context {A : Type} (body : PrettyTable -> A -> M PrettyTable).
Context (R : A -> list (list json) -> Prop).
Hypothesis body_adds :
  forall report x c w r c' w',
    body report x c w = (Ok r, c', w') ->
    field_names r = field_names report /\ align r = align report
    /\ exists new, rows r = (rows report ++ new)%list /\ R x new.

Lemma for_each_adds (l : list A) :
  forall report c w tbl c' w',
    for_each l body report c w = (Ok tbl, c', w') ->
    field_names tbl = field_names report /\ align tbl = align report
    /\ exists news, rows tbl = (rows report ++ concat news)%list /\ Forall2 R l news.
Proof using body_adds.
  induction l as [|x l IH]; intros report c w tbl c' w'; cbn [for_each].
  - intros Hret. apply mret_ok in Hret as (-> & _ & _).
    split; [reflexivity|]. split; [reflexivity|].
    exists []. cbn [concat]. rewrite app_nil_r. split; [reflexivity|constructor].
  - intros Hrun. apply mbind_ok in Hrun as (r1 & c1 & w1 & Hstep & Hrest).
    apply body_adds in Hstep as (Hf & Ha & new & Hrows & Hnew).
    apply IH in Hrest as (Hf' & Ha' & news & Hrows' & Hall).
    split; [congruence|]. split; [congruence|].
    exists (new :: news). cbn [concat].
    split; [rewrite Hrows', Hrows, <- app_assoc; reflexivity|].
    constructor; assumption.
Qed.

End Loops.

(** ** Loops, turn by turn *)

Section Traces.
Context {A : Type} (body : PrettyTable -> A -> M PrettyTable).
Context (step : A -> BurrowClient -> World -> list (list json)
                -> BurrowClient -> World -> Prop).
Hypothesis body_steps :
  forall report x c w r c' w',
    body report x c w = (Ok r, c', w') ->
    field_names r = field_names report /\ align r = align report
    /\ exists new, rows r = (rows report ++ new)%list /\ step x c w new c' w'.

Lemma for_each_trace (l : list A) :
  forall report c w tbl c' w',
    for_each l body report c w = (Ok tbl, c', w') ->
    field_names tbl = field_names report /\ align tbl = align report
    /\ exists news,
         rows tbl = (rows report ++ concat news)%list
         /\ loop_trace step l c w news c' w'.
Proof using body_steps.
  induction l as [|x l IH]; intros report c w tbl c' w'; cbn [for_each].
  - intros Hret. apply mret_ok in Hret as (-> & -> & ->).
    split; [reflexivity|]. split; [reflexivity|].
    exists []. cbn [concat]. rewrite app_nil_r. split; [reflexivity|constructor].
  - intros Hrun. apply mbind_ok in Hrun as (r1 & c1 & w1 & Hstep & Hrest).
    apply body_steps in Hstep as (Hf & Ha & new & Hrows & Hnew).
    apply IH in Hrest as (Hf' & Ha' & news & Hrows' & Hall).
    split; [congruence|]. split; [congruence|].
    exists (new :: news). cbn [concat].
    split; [rewrite Hrows', Hrows, <- app_assoc; reflexivity|].
    econstructor; eassumption.
Qed.

End Traces.

(** ** The cluster summary *)

Section ClusterSummary.
Context `{Externals}.

Lemma cluster_row_shape (cluster : string) (details : json) (row : list json) :
  cluster_row cluster details = Ok row ->
  hd JNull row = JStr cluster /\ length row = 6%nat.
Proof.
  unfold cluster_row.
  repeat match goal with
         | |- rbind ?r _ = Ok _ -> _ => destruct r; cbn [rbind]; [|discriminate]
         end.
  intros [= <-]. split; reflexivity.
Qed.

Lemma report_clusters_table_rows (c : BurrowClient) (w : World) tbl c' w' :
  report_clusters_table c w = (Ok tbl, c', w') ->
  exists payload c1 w1 items,
    clusters c w = (Ok payload, c1, w1)
    /\ py_iter payload = Ok items
    /\ field_names tbl
       = ["Cluster"; "Version"; "Client ID"; "Refresh Offsets"; "Refresh Topics"; "Servers"]
    /\ align tbl = "l"
    /\ Forall2 (fun item row => exists name details,
                   item = JStr name /\ cluster_row name details = Ok row)
               items (rows tbl).
Proof.
  unfold report_clusters_table. intros Hrun.
  apply mbind_ok in Hrun as (payload & c1 & w1 & Hclusters & Hrun).
  minv Hrun. rename a into items.
  apply (for_each_adds _
           (fun item new => exists name details row,
                item = JStr name /\ cluster_row name details = Ok row /\ new = [row]))
    in Hrun.
  - destruct Hrun as (Hf & Ha & news & Hrows & Hall).
    exists payload, c1, w1, items.
    split; [exact Hclusters|]. split; [exact E|].
    split; [exact Hf|]. split; [exact Ha|].
    rewrite Hrows. cbn [new_table rows]. change ([] ++ concat news)%list with (concat news).
    clear -Hall.
    induction Hall as [|item new items news (name & details & row & -> & Hrow & ->) _ IH];
      cbn [concat]; [constructor|].
    constructor; [eauto|exact IH].
  - clear. intros report item c w r c' w' Hstep.
    unfold as_name in Hstep. minv Hstep.
    destruct item; try discriminate E. injection E as <-.
    apply mbind_ok in Hstep as (details & c2 & w2 & _ & Hstep).
    minv Hstep. apply mret_ok in Hstep as (-> & _ & _).
    cbn [add_row field_names align rows].
    split; [reflexivity|]. split; [reflexivity|]. eauto 8.
Qed.

(** X16. The cluster summary has one row per cluster, in the order of
    the cluster list: it is drawn without a sort key, so the first
    column is the list as the service gave it.  Every row has the six
    cells of the header. *)
Theorem cluster_summary_in_list_order (c : BurrowClient) (w : World)
    (s : string) (c' : BurrowClient) (w' : World) :
  report_clusters c w = (Ok s, c', w') ->
  exists payload c1 w1 drawn,
    clusters c w = (Ok payload, c1, w1)
    /\ py_iter payload = Ok (map (hd JNull) drawn)
    /\ Forall (fun row => length row = 6%nat) drawn
    /\ s = String.append
             (draw ["Cluster"; "Version"; "Client ID"; "Refresh Offsets";
                    "Refresh Topics"; "Servers"] "l" drawn)
             newline.
Proof.
  unfold report_clusters. intros Hrun.
  apply mbind_ok in Hrun as (tbl & c2 & w2 & Htbl & Hrun).
  minv Hrun. apply mret_ok in Hrun as (-> & _ & _).
  apply report_clusters_table_rows in Htbl
    as (payload & c1 & w1 & items & Hclusters & Hiter & Hf & Ha & Hall).
  unfold get_string in E. cbn [get_rows rbind] in E. injection E as <-.
  exists payload, c1, w1, (rows tbl). rewrite Hf, Ha.
  split; [exact Hclusters|].
  assert (Hshape : map (hd JNull) (rows tbl) = items
                   /\ Forall (fun row => length row = 6%nat) (rows tbl)).
  { clear -Hall.
    induction Hall as [|item row items rs (name & details & -> & Hrow) _ [IH1 IH2]];
      [split; [reflexivity|constructor]|].
    apply cluster_row_shape in Hrow as [Hhd Hlen].
    cbn [map]. rewrite Hhd, IH1. split; [reflexivity|]. constructor; assumption. }
  destruct Hshape as [Hhd Hlen]. rewrite Hhd.
  split; [exact Hiter|]. split; [exact Hlen|reflexivity].
Qed.

End ClusterSummary.

(** The two clusters of the test suite, asked of a fresh client. *)
Lemma cluster_summary_in_list_order_witness :
  exists drawn,
    map (hd JNull) drawn = [JStr "clustername1"; JStr "clustername2"]
    /\ Forall (fun row => length row = 6%nat) drawn.
Proof.
  set (run := report_clusters (H:=Fixtures.test_library) Fixtures.client fresh_world).
  assert (Hrun : run = (fst (fst run), snd (fst run), snd run)) by reflexivity.
  assert (Hok : fst (fst run) = Ok (match fst (fst run) with Ok s => s | Raise _ => "" end))
    by (vm_compute; reflexivity).
  rewrite Hok in Hrun.
  destruct (cluster_summary_in_list_order (H:=Fixtures.test_library) _ _ _ _ _ Hrun)
    as (payload & c1 & w1 & drawn & Hclusters & Hiter & Hlen & _).
  exists drawn. split; [|exact Hlen].
  vm_compute in Hclusters. injection Hclusters as <- _ _.
  cbn [py_iter] in Hiter. injection Hiter as Hiter. symmetry. exact Hiter.
Defined.

(** ** The full report and the command line *)

Section Texts.
Context {A : Type} (body : string -> A -> M string).
Context (R : A -> string -> Prop).
Hypothesis body_appends :
  forall report x c w r c' w',
    body report x c w = (Ok r, c', w') ->
    exists part, r = String.append report part /\ R x part.


End Texts.

Section FullReport.
Context `{Externals}.









End FullReport.



(** ** The consumer report *)

Section ConsumerRows.
Context `{Externals}.

Lemma rmapM_py_get (key : string) (default : json) (es : list (list (string * json))) :
  rmapM (fun entry => py_get entry key default) (map JObj es)
  = Ok (map (field_or default key) es).
Proof.
  induction es as [|e es IH]; [reflexivity|].
  cbn [map rmapM py_get rbind]. rewrite IH. reflexivity.
Qed.

(** X19. A row of the consumer report for an entry whose history holds
    integers: the history is not empty, and the row shows the owner (or
    "?"), the current lag, the least and the greatest offset of the
    history and its greatest timestamp, an entry without an offset or a
    timestamp counting as 0. *)
Theorem consumer_row_extremes (self : BurrowClient) (consumer topic : string)
    (fields : list (string * json)) (es : list (list (string * json)))
    (offsets timestamps : list Z)
    (c : BurrowClient) (w : World) (row : list json) (c' : BurrowClient) (w' : World) :
  consumer_detail_row self consumer topic (JObj fields) c w = (Ok row, c', w') ->
  assoc "offsets" fields = Some (JArr (map JObj es)) ->
  map (field_or (JInt 0) "offset") es = map JInt offsets ->
  map (field_or (JInt 0) "timestamp") es = map JInt timestamps ->
  exists o os t ts lag date age,
    offsets = o :: os /\ timestamps = t :: ts
    /\ format_number self (field_or (JStr "?") "current-lag" fields) = Ok lag
    /\ timestamp_to_date (JInt (list_max t ts)) = Ok date
    /\ row = [text consumer; text topic; field_or (JStr "?") "owner" fields; text lag;
              text (number_text self (list_min o os));
              text (number_text self (list_max o os));
              text (number_text self (list_max t ts));
              text date; text age]
    /\ Forall (fun x => list_min o os <= x <= list_max o os) offsets
    /\ Forall (fun x => x <= list_max t ts) timestamps.
Proof.
  intros Hrow Hoffsets Hos Hts. unfold consumer_detail_row in Hrow.
  cbn [py_get] in Hrow. rewrite Hoffsets in Hrow.
  rewrite !mbind_lift in Hrow. cbn [py_iter] in Hrow.
  rewrite !mbind_lift, !rmapM_py_get, Hos in Hrow.
  rewrite !mbind_lift, Hts in Hrow.
  destruct offsets as [|o os]; [discriminate Hrow|].
  destruct timestamps as [|t ts].
  { destruct es; discriminate. }
  cbn [map py_max py_min] in Hrow.
  rewrite max_from_ints in Hrow.
  rewrite mbind_lift, min_from_ints in Hrow.
  rewrite mbind_lift, max_from_ints in Hrow.
  fold (field_or (JStr "?") "current-lag" fields) in Hrow.
  fold (field_or (JStr "?") "owner" fields) in Hrow.
  rewrite mbind_lift in Hrow.
  destruct (format_number self (field_or (JStr "?") "current-lag" fields)) as [lag|e]
    eqn:Hlag; [|discriminate Hrow].
  repeat (rewrite mbind_lift in Hrow; rewrite ?format_number_int in Hrow).
  destruct (timestamp_to_date (JInt (list_max t ts))) as [date|e] eqn:Hdate;
    [|discriminate Hrow].
  apply mbind_ok in Hrow as (age & c1 & w1 & _ & Hrow).
  apply mret_ok in Hrow as (-> & _ & _).
  exists o, os, t, ts, lag, date, age.
  split; [reflexivity|]. split; [reflexivity|].
  split; [reflexivity|]. split; [exact Hdate|]. split; [reflexivity|].
  destruct (list_max_spec o os) as [_ Hmax].
  destruct (list_min_spec o os) as [_ Hmin].
  destruct (list_max_spec t ts) as [_ Hmaxt].
  split; [|exact Hmaxt].
  rewrite List.Forall_forall in *. intros x Hx. split; [apply Hmin | apply Hmax]; exact Hx.
Qed.

End ConsumerRows.

(** The entry of the test suite: offsets 2526 and 2527. *)
Lemma consumer_row_extremes_witness :
  exists row,
    nth_error row 4 = Some (text "2526") /\ nth_error row 5 = Some (text "2527").
Proof.
  set (fields := [("current-lag", JInt 0);
                  ("offsets", JArr (map JObj
                     [[("lag", JInt 0); ("offset", JInt 2526);
                       ("timestamp", JInt 1511200836090)];
                      [("lag", JInt 0); ("offset", JInt 2527);
                       ("timestamp", JInt 1511321306786)]]));
                  ("owner", JStr "")]).
  set (run := consumer_detail_row (H:=Fixtures.test_library) Fixtures.client
                "group1" "ConsumedTopicName" (JObj fields) Fixtures.client fresh_world).
  set (row := match fst (fst run) with Ok r => r | Raise _ => [] end).
  assert (Hrun : run = (Ok row, snd (fst run), snd run)) by (vm_compute; reflexivity).
  destruct (consumer_row_extremes (H:=Fixtures.test_library) _ _ _ fields _
              [2526; 2527] [1511200836090; 1511321306786] _ _ _ _ _
              Hrun eq_refl eq_refl eq_refl)
    as (o & os & t & ts & lag & date & age & Ho & Ht & _ & _ & Hrow & _).
  injection Ho as <- <-. injection Ht as <- <-.
  exists row. rewrite Hrow. split; vm_compute; reflexivity.
Defined.

(** ** The partition report *)

Section PartitionReport.
Context `{Externals}.

Lemma partition_row_cells (self : BurrowClient) (consumer : string)
    (st : partition_stats) c w row c' w' :
  partition_row self consumer st c w = (Ok row, c', w') ->
  partition_cells self consumer st row.
Proof.
  unfold partition_row. intros Hrow. minv Hrow.
  apply mbind_ok in Hrow as (age & c1 & w1 & _ & Hrow).
  apply mret_ok in Hrow as (-> & _ & _).
  unfold partition_cells. eauto 12.
Qed.

Lemma partition_turns_rows (self : BurrowClient) (name : string)
    (partitions : list json) c w news c' w' :
  loop_trace (partition_turn self name) partitions c w news c' w' ->
  Forall2 (partition_cells self name) (passing_stats self partitions) (concat news).
Proof.
  induction 1 as [|p ps c w new c1 w1 news c' w' (st & passes & Hst & Hpass & Hnew) _ IH].
  - constructor.
  - rewrite (passing_stats_cons _ _ _ _ _ Hst Hpass). cbn [concat].
    destruct passes.
    + destruct Hnew as (row & Hrow & ->). apply partition_row_cells in Hrow.
      constructor; assumption.
    + destruct Hnew as (-> & _ & _). exact IH.
Qed.

Lemma partitions_table_trace (cluster : string) c w tbl c' w' :
  report_consumer_partitions_table cluster c w = (Ok tbl, c', w') ->
  exists payload c0 w0 items groups,
    consumers cluster c w = (Ok payload, c0, w0)
    /\ py_iter payload = Ok items
    /\ loop_trace (partition_step c cluster) items c0 w0 groups c' w'
    /\ rows tbl = concat groups.
Proof.
  unfold report_consumer_partitions_table. intros Hrun. minv Hrun.
  apply mbind_ok in Hrun as (payload & c0 & w0 & Hconsumers & Hrun).
  minv Hrun. rename a into items.
  apply (for_each_trace _ (partition_step c cluster)) in Hrun.
  - destruct Hrun as (_ & _ & groups & Hrows & Htrace).
    exists payload, c0, w0, items, groups. auto.
  - clear. intros report item c0 w0 r c0' w0' Hstep.
    rewrite mbind_lift in Hstep.
    destruct (match_consumer c item) as [passes|e] eqn:Hpass; [|discriminate Hstep].
    unfold partition_step. rewrite Hpass.
    destruct passes; cbn [negb] in Hstep.
    + unfold as_name in Hstep. rewrite mbind_lift in Hstep.
      destruct item; try discriminate Hstep. cbn [as_str] in Hstep.
      apply mbind_ok in Hstep as (data & c1 & w1 & Hdata & Hstep).
      rewrite mbind_lift in Hstep.
      destruct (py_get data "partitions" (JArr [])) as [listed|e] eqn:Hlisted;
        [|discriminate Hstep].
      rewrite mbind_lift in Hstep.
      destruct (py_iter listed) as [partitions|e] eqn:Hiter; [|discriminate Hstep].
      apply (for_each_trace _ (partition_turn c s)) in Hstep.
      * destruct Hstep as (Hf & Ha & news & Hrows & Htrace).
        split; [exact Hf|]. split; [exact Ha|].
        exists (concat news). split; [exact Hrows|].
        exists true. split; [reflexivity|].
        exists s, data, c1, w1, listed, partitions, news. auto 8.
      * clear. intros report p c0 w0 r c0' w0' Hstep.
        rewrite mbind_lift in Hstep.
        destruct (get_partition_stats p) as [st|e] eqn:Hst; [|discriminate Hstep].
        rewrite mbind_lift in Hstep.
        destruct (match_topic c (st_topic st)) as [passes|e] eqn:Hpass;
          [|discriminate Hstep].
        unfold partition_turn. rewrite Hst.
        destruct passes; cbn [negb] in Hstep.
        -- apply mbind_ok in Hstep as (row & c2 & w2 & Hrow & Hstep).
           apply mret_ok in Hstep as (-> & -> & ->).
           split; [reflexivity|]. split; [reflexivity|].
           exists [row]. split; [reflexivity|].
           exists st, true. split; [reflexivity|]. split; [exact Hpass|]. eauto.
        -- apply mret_ok in Hstep as (-> & -> & ->).
           split; [reflexivity|]. split; [reflexivity|].
           exists []. rewrite app_nil_r. split; [reflexivity|].
           exists st, false. auto.
    + apply mret_ok in Hstep as (-> & -> & ->).
      split; [reflexivity|]. split; [reflexivity|].
      exists []. rewrite app_nil_r. split; [reflexivity|].
      exists false. auto.
Qed.

(** X20. The partition report adds rows consumer by consumer, in the
    order of the consumer list.  A consumer that does not pass the
    consumer filter adds nothing and causes no fetch; for one that
    passes, the snapshot is fetched in the state the turns before left,
    and every partition of it that passes the topic filter gets one row,
    in the order of the snapshot, made from its normalized record. *)
Theorem partition_report_rows (cluster : string) (c : BurrowClient) (w : World)
    (tbl : PrettyTable) (c' : BurrowClient) (w' : World) :
  report_consumer_partitions_table cluster c w = (Ok tbl, c', w') ->
  exists payload c0 w0 items groups,
    consumers cluster c w = (Ok payload, c0, w0)
    /\ py_iter payload = Ok items
    /\ loop_trace (partition_step c cluster) items c0 w0 groups c' w'
    /\ rows tbl = concat groups
    /\ forall name partitions c1 w1 news c2 w2,
         loop_trace (partition_turn c name) partitions c1 w1 news c2 w2 ->
         Forall2 (partition_cells c name) (passing_stats c partitions) (concat news).
Proof.
  intros Hrun.
  apply partitions_table_trace in Hrun
    as (payload & c0 & w0 & items & groups & Hconsumers & Hiter & Htrace & Hrows).
  exists payload, c0, w0, items, groups.
  do 4 (split; [assumption|]).
  intros name partitions c1 w1 news c2 w2. apply partition_turns_rows.
Qed.

End PartitionReport.

(** The two consumer groups of the test suite: each snapshot is fetched
    in its turn and has one partition. *)
Lemma partition_report_rows_witness :
  exists groups c' w',
    loop_trace (partition_step (H:=Fixtures.test_library) Fixtures.client "clustername1")
      [JStr "group1"; JStr "group2"]
      (snd (fst (consumers (H:=Fixtures.test_library) "clustername1"
                   Fixtures.client fresh_world)))
      (snd (consumers (H:=Fixtures.test_library) "clustername1"
              Fixtures.client fresh_world))
      groups c' w'
    /\ length (concat groups) = 2%nat
    /\ length (requests w') = 3%nat.
Proof.
  set (run := report_consumer_partitions_table (H:=Fixtures.test_library) "clustername1"
                Fixtures.client fresh_world).
  set (tbl := match fst (fst run) with Ok t => t | Raise _ => new_table [] end).
  assert (Hrun : run = (Ok tbl, snd (fst run), snd run)) by (vm_compute; reflexivity).
  destruct (partition_report_rows (H:=Fixtures.test_library) _ _ _ _ _ _ Hrun)
    as (payload & c0 & w0 & items & groups & Hconsumers & Hiter & Htrace & Hrows & _).
  set (fetch := consumers (H:=Fixtures.test_library) "clustername1"
                  Fixtures.client fresh_world) in *.
  assert (Hfetch : fetch = (Ok (JArr [JStr "group1"; JStr "group2"]),
                            snd (fst fetch), snd fetch)) by (vm_compute; reflexivity).
  rewrite Hfetch in Hconsumers. injection Hconsumers as <- <- <-.
  cbn [py_iter] in Hiter. injection Hiter as <-.
  exists groups, (snd (fst run)), (snd run). split; [exact Htrace|].
  split; [rewrite <- Hrows|]; vm_compute; reflexivity.
Defined.

(** ** The order of the rows of the consumer reports *)

Section SortedReports.
Context `{Externals}.

Lemma keyed_named (l : list (list json)) :
  Forall named_row l -> rmapM (decorate 0) l = Ok (map keyed l).
Proof.
  induction 1 as [|r l (name & rest & ->) _ IH]; [reflexivity|].
  cbn [rmapM decorate nth_error rbind map]. rewrite IH. reflexivity.
Qed.

Lemma keyed_lt_named (r1 r2 : list json) (b : bool) :
  named_row r1 -> named_row r2 ->
  row_lt (keyed r1) (keyed r2) = Ok b ->
  if b then str_le (row_name r1) (row_name r2) else str_le (row_name r2) (row_name r1).
Proof.
  intros (n1 & rest1 & ->) (n2 & rest2 & ->). unfold row_lt, keyed. rewrite py_lt_arr.
  cbn [row_name list_lt py_eqb py_lt].
  destruct (String.eqb_spec n1 n2) as [->|Hne].
  - intros _. destruct b; apply str_le_refl.
  - intros [= <-]. destruct (str_ltb n1 n2) eqn:Hlt; [apply str_lt_le; exact Hlt|exact Hlt].
Qed.

Lemma get_rows_sorted (t : PrettyTable) (column : string) (sorted : list (list json)) :
  index_of column (field_names t) = Some 0%nat ->
  Forall named_row (rows t) ->
  get_rows (Some column) t = Ok sorted ->
  Permutation (rows t) sorted /\ sorted_by_name sorted.
Proof.
  intros Hcol Hnamed. unfold get_rows. rewrite Hcol, (keyed_named _ Hnamed). cbn [rbind].
  unfold sort_rows.
  destruct (sort_by row_lt (map keyed (rows t))) as [keyed_sorted|e] eqn:Hsorted;
    cbn [rbind]; [|discriminate].
  intros [= <-].
  set (P := fun d : list json => exists r, named_row r /\ d = keyed r).
  assert (HP : Forall P (map keyed (rows t))).
  { apply List.Forall_forall. intros d Hd. apply in_map_iff in Hd as (r & <- & Hr).
    exists r. split; [|reflexivity]. rewrite List.Forall_forall in Hnamed. auto. }
  pose proof (sort_by_perm _ _ _ Hsorted) as Hperm.
  assert (HPs : Forall P keyed_sorted) by (apply (Permutation_Forall Hperm); exact HP).
  split.
  - rewrite <- (Permutation_map (@tl json) Hperm), List.map_map. cbn [keyed tl].
    rewrite List.map_id. reflexivity.
  - assert (Hs : StronglySorted (fun a b => str_le (row_name a) (row_name b)) keyed_sorted).
    { eapply (sort_by_sorted row_lt P); [| |exact HP|exact Hsorted].
      - intros a b c. apply str_le_trans.
      - intros x y b (r1 & H1 & ->) (r2 & H2 & ->) Hlt.
        pose proof (keyed_lt_named _ _ _ H1 H2 Hlt) as Hle.
        destruct b; exact Hle. }
    unfold sorted_by_name. clear -Hs HPs.
    induction Hs as [|d l Hs IH Hd]; cbn [map]; [constructor|].
    inversion HPs as [|? ? (r & _ & ->) HPl]; subst.
    constructor; [apply IH; exact HPl|].
    rewrite List.Forall_forall in *. intros x Hx.
    apply in_map_iff in Hx as (d' & <- & Hd').
    destruct (HPl d' Hd') as (r' & _ & ->). cbn [keyed tl].
    exact (Hd _ Hd').
Qed.

Lemma concat_named {A} (l : list A) (news : list (list (list json))) :
  Forall2 (fun _ new => Forall named_row new) l news -> Forall named_row (concat news).
Proof.
  induction 1 as [|x new l news Hnew _ IH]; cbn [concat]; [constructor|].
  apply Forall_app. split; assumption.
Qed.

Lemma drawn_sorted (tbl : PrettyTable) (column s : string) :
  index_of column (field_names tbl) = Some 0%nat ->
  align tbl = "l" ->
  Forall named_row (rows tbl) ->
  get_string (Some column) tbl = Ok s ->
  drawn_by_name tbl (String.append s newline).
Proof.
  intros Hcol Halign Hnamed. unfold get_string.
  destruct (get_rows (Some column) tbl) as [drawn|e] eqn:Hrows; cbn [rbind]; [|discriminate].
  intros [= <-]. destruct (get_rows_sorted _ _ _ Hcol Hnamed Hrows) as [Hperm Hsorted].
  exists drawn. rewrite Halign. auto.
Qed.

Lemma status_table_named (cluster : string) c w tbl c' w' :
  report_consumer_status_table cluster c w = (Ok tbl, c', w') ->
  index_of "Consumer Group" (field_names tbl) = Some 0%nat
  /\ align tbl = "l" /\ Forall named_row (rows tbl).
Proof.
  unfold report_consumer_status_table. intros Hrun. minv Hrun.
  apply mbind_ok in Hrun as (payload & c1 & w1 & _ & Hrun). minv Hrun.
  apply (for_each_adds _ (fun _ new => Forall named_row new)) in Hrun.
  - destruct Hrun as (Hf & Ha & news & Hrows & Hall).
    rewrite Hf, Ha, Hrows. split; [destruct (verbose c); reflexivity|].
    split; [reflexivity|]. apply (concat_named _ _ Hall).
  - clear. intros report item c0 w0 r c0' w0' Hstep. minv Hstep.
    on_filter Hstep.
    + unfold as_name in Hstep. minv Hstep.
      apply mbind_ok in Hstep as (data & c2 & w2 & _ & Hstep).
      apply mbind_ok in Hstep as (row & c3 & w3 & Hrow & Hstep).
      apply mret_ok in Hstep as (-> & _ & _).
      apply status_row_inv in Hrow
        as (? & ? & ? & ? & ? & ? & ? & ? & ? & ? & ? & ? & _ & _ & _ & _ & _ & _ & _ & _
            & _ & _ & _ & _ & Hrow).
      split; [reflexivity|]. split; [reflexivity|].
      exists [row]. split; [reflexivity|]. constructor; [|constructor].
      destruct (verbose c).
      * destruct Hrow as (? & ? & _ & _ & ->). eexists _, _. reflexivity.
      * subst row. eexists _, _. reflexivity.
    + apply mret_ok in Hstep as (-> & _ & _).
      split; [reflexivity|]. split; [reflexivity|].
      exists []. rewrite app_nil_r. split; [reflexivity|constructor].
Qed.

Lemma consumer_detail_row_named (self : BurrowClient) (consumer topic : string)
    (detail : json) c w row c' w' :
  consumer_detail_row self consumer topic detail c w = (Ok row, c', w') -> named_row row.
Proof.
  unfold consumer_detail_row. intros Hrow. minv Hrow.
  apply mbind_ok in Hrow as (age & c1 & w1 & _ & Hrow).
  apply mret_ok in Hrow as (-> & _ & _). eexists _, _. reflexivity.
Qed.

Lemma consumers_table_named (cluster : string) c w tbl c' w' :
  report_consumers_table cluster c w = (Ok tbl, c', w') ->
  index_of "Consumer Group" (field_names tbl) = Some 0%nat
  /\ align tbl = "l" /\ Forall named_row (rows tbl).
Proof.
  unfold report_consumers_table. intros Hrun. minv Hrun.
  apply mbind_ok in Hrun as (payload & c1 & w1 & _ & Hrun). minv Hrun.
  apply (for_each_adds _ (fun _ new => Forall named_row new)) in Hrun.
  - destruct Hrun as (Hf & Ha & news & Hrows & Hall).
    rewrite Hf, Ha, Hrows. split; [reflexivity|].
    split; [reflexivity|]. apply (concat_named _ _ Hall).
  - clear. intros report item c0 w0 r c0' w0' Hstep. minv Hstep.
    on_filter Hstep.
    + unfold as_name in Hstep. minv Hstep.
      apply mbind_ok in Hstep as (data & c2 & w2 & _ & Hstep). minv Hstep.
      apply (for_each_adds _ (fun _ new => Forall named_row new)) in Hstep.
      * destruct Hstep as (Hf & Ha & news & Hrows & Hall).
        split; [exact Hf|]. split; [exact Ha|].
        exists (concat news). split; [exact Hrows|]. apply (concat_named _ _ Hall).
      * clear. intros report [topic details] c0 w0 r c0' w0' Hstep. minv Hstep.
        on_filter Hstep.
        -- minv Hstep.
           apply (for_each_adds _ (fun _ new => Forall named_row new)) in Hstep.
           ++ destruct Hstep as (Hf & Ha & news & Hrows & Hall).
              split; [exact Hf|]. split; [exact Ha|].
              exists (concat news). split; [exact Hrows|]. apply (concat_named _ _ Hall).
           ++ clear. intros report detail c0 w0 r c0' w0' Hstep.
              apply mbind_ok in Hstep as (row & c2 & w2 & Hrow & Hstep).
              apply mret_ok in Hstep as (-> & _ & _).
              apply consumer_detail_row_named in Hrow.
              split; [reflexivity|]. split; [reflexivity|].
              exists [row]. split; [reflexivity|]. constructor; [exact Hrow|constructor].
        -- apply mret_ok in Hstep as (-> & _ & _).
           split; [reflexivity|]. split; [reflexivity|].
           exists []. rewrite app_nil_r. split; [reflexivity|constructor].
    + apply mret_ok in Hstep as (-> & _ & _).
      split; [reflexivity|]. split; [reflexivity|].
      exists []. rewrite app_nil_r. split; [reflexivity|constructor].
Qed.

Lemma partitions_table_named (cluster : string) c w tbl c' w' :
  report_consumer_partitions_table cluster c w = (Ok tbl, c', w') ->
  index_of "Consumer Group" (field_names tbl) = Some 0%nat
  /\ align tbl = "l" /\ Forall named_row (rows tbl).
Proof.
  unfold report_consumer_partitions_table. intros Hrun. minv Hrun.
  apply mbind_ok in Hrun as (payload & c1 & w1 & _ & Hrun). minv Hrun.
  apply (for_each_adds _ (fun _ new => Forall named_row new)) in Hrun.
  - destruct Hrun as (Hf & Ha & news & Hrows & Hall).
    rewrite Hf, Ha, Hrows. split; [reflexivity|].
    split; [reflexivity|]. apply (concat_named _ _ Hall).
  - clear. intros report item c0 w0 r c0' w0' Hstep. minv Hstep.
    on_filter Hstep.
    + unfold as_name in Hstep. minv Hstep.
      apply mbind_ok in Hstep as (data & c2 & w2 & _ & Hstep). minv Hstep.
      apply (for_each_adds _ (fun _ new => Forall named_row new)) in Hstep.
      * destruct Hstep as (Hf & Ha & news & Hrows & Hall).
        split; [exact Hf|]. split; [exact Ha|].
        exists (concat news). split; [exact Hrows|]. apply (concat_named _ _ Hall).
      * clear. intros report p c0 w0 r c0' w0' Hstep. minv Hstep.
        on_filter Hstep.
        -- apply mbind_ok in Hstep as (row & c2 & w2 & Hrow & Hstep).
           apply mret_ok in Hstep as (-> & _ & _).
           apply partition_row_cells in Hrow
             as (? & ? & ? & ? & ? & _ & _ & _ & _ & ->).
           split; [reflexivity|]. split; [reflexivity|].
           eexists. split; [reflexivity|].
           constructor; [eexists _, _; reflexivity|constructor].
        -- apply mret_ok in Hstep as (-> & _ & _).
           split; [reflexivity|]. split; [reflexivity|].
           exists []. rewrite app_nil_r. split; [reflexivity|constructor].
    + apply mret_ok in Hstep as (-> & _ & _).
      split; [reflexivity|]. split; [reflexivity|].
      exists []. rewrite app_nil_r. split; [reflexivity|constructor].
Qed.

(** X21. The consumer report, the status summary and the partition
    report, when they return a text, return their table drawn with the
    rows in the order of the consumer-group names, followed by one line
    feed: the rows drawn are the rows of the table, none lost and none
    added, and no row comes before a row with a smaller name. *)
Theorem consumer_reports_sorted (cluster : string) (c : BurrowClient) (w : World)
    (s : string) (c' : BurrowClient) (w' : World) :
  (report_consumers cluster c w = (Ok s, c', w') ->
   exists tbl, report_consumers_table cluster c w = (Ok tbl, c', w')
               /\ drawn_by_name tbl s)
  /\ (report_consumer_status cluster c w = (Ok s, c', w') ->
      exists tbl, report_consumer_status_table cluster c w = (Ok tbl, c', w')
                  /\ drawn_by_name tbl s)
  /\ (report_consumer_partitions cluster c w = (Ok s, c', w') ->
      exists tbl, report_consumer_partitions_table cluster c w = (Ok tbl, c', w')
                  /\ drawn_by_name tbl s).
Proof.
  split; [|split].
  - unfold report_consumers. intros Hrun.
    apply mbind_ok in Hrun as (tbl & c1 & w1 & Htbl & Hrun).
    minv Hrun. apply mret_ok in Hrun as (-> & -> & ->).
    exists tbl. split; [exact Htbl|].
    apply consumers_table_named in Htbl as (Hcol & Ha & Hnamed).
    eapply drawn_sorted; eassumption.
  - unfold report_consumer_status. intros Hrun.
    apply mbind_ok in Hrun as (tbl & c1 & w1 & Htbl & Hrun).
    minv Hrun. apply mret_ok in Hrun as (-> & -> & ->).
    exists tbl. split; [exact Htbl|].
    apply status_table_named in Htbl as (Hcol & Ha & Hnamed).
    eapply drawn_sorted; eassumption.
  - unfold report_consumer_partitions. intros Hrun.
    apply mbind_ok in Hrun as (tbl & c1 & w1 & Htbl & Hrun).
    minv Hrun. apply mret_ok in Hrun as (-> & -> & ->).
    exists tbl. split; [exact Htbl|].
    apply partitions_table_named in Htbl as (Hcol & Ha & Hnamed).
    eapply drawn_sorted; eassumption.
Qed.

End SortedReports.

(** The status summary of the test suite's cluster. *)
Lemma consumer_reports_sorted_witness :
  exists tbl s,
    fst (fst (report_consumer_status (H:=Fixtures.test_library) "clustername1"
                Fixtures.client fresh_world)) = Ok s
    /\ drawn_by_name (H:=Fixtures.test_library) tbl s
    /\ length (rows tbl) = 2%nat.
Proof.
  set (run := report_consumer_status (H:=Fixtures.test_library) "clustername1"
                Fixtures.client fresh_world).
  set (s := match fst (fst run) with Ok s => s | Raise _ => "" end).
  assert (Hrun : run = (Ok s, snd (fst run), snd run)) by (vm_compute; reflexivity).
  destruct (consumer_reports_sorted (H:=Fixtures.test_library) "clustername1"
              Fixtures.client fresh_world s (snd (fst run)) (snd run))
    as (_ & Hstatus & _).
  destruct (Hstatus Hrun) as (tbl & Htbl & Hdrawn).
  exists tbl, s. split; [vm_compute; reflexivity|]. split; [exact Hdrawn|].
  vm_compute in Htbl. injection Htbl as <-. reflexivity.
Defined.

(** ** What a run leaves alone *)

Section Quiet.
Context `{Externals}.

Lemma same_settings_trans (a b c : BurrowClient) :
  same_settings a b -> same_settings b c -> same_settings a c.
Proof.
  unfold same_settings. intros Hab Hbc.
  repeat match goal with H : _ /\ _ |- _ => destruct H end.
  repeat split; congruence.
Qed.

Lemma same_settings_debug (a b : BurrowClient) : same_settings a b -> debug a = debug b.
Proof. unfold same_settings. intros Hab. tauto. Qed.

Lemma quiet_mret {A} (a : A) : quiet (mret a).
Proof. intros c w r c' w' [= <- <- <-]. split; [apply same_settings_refl|auto]. Qed.

Lemma quiet_lift {A} (r : result A) : quiet (lift r).
Proof. intros c w r' c' w' [= <- <- <-]. split; [apply same_settings_refl|auto]. Qed.

Lemma quiet_get_self : quiet get_self.
Proof. intros c w r c' w' [= <- <- <-]. split; [apply same_settings_refl|auto]. Qed.

Lemma quiet_get_world : quiet get_world.
Proof. intros c w r c' w' [= <- <- <-]. split; [apply same_settings_refl|auto]. Qed.

Lemma quiet_mbind {A B} (m : M A) (k : A -> M B) :
  quiet m -> (forall a, quiet (k a)) -> quiet (mbind m k).
Proof.
  intros Hm Hk c w r c' w'. unfold mbind.
  destruct (m c w) as [[[a|e] c1] w1] eqn:Em.
  - intros Ek. destruct (Hm _ _ _ _ _ Em) as [Hs1 Ho1].
    destruct (Hk a _ _ _ _ _ Ek) as [Hs2 Ho2].
    split; [eapply same_settings_trans; eassumption|].
    intros Hd. rewrite Ho2, Ho1; [reflexivity|exact Hd|].
    rewrite <- (same_settings_debug _ _ Hs1). exact Hd.
  - intros [= <- <- <-]. exact (Hm _ _ _ _ _ Em).
Qed.

Lemma quiet_for_each {A B} (l : list A) (body : B -> A -> M B) :
  (forall acc x, quiet (body acc x)) -> forall acc, quiet (for_each l body acc).
Proof.
  intros Hbody. induction l as [|x l IH]; intros acc; cbn [for_each].
  - apply quiet_mret.
  - apply quiet_mbind; [apply Hbody|exact IH].
Qed.

Lemma quiet_set_self (f : BurrowClient -> BurrowClient) :
  (forall c, same_settings c (f c)) -> quiet (set_self f).
Proof. intros Hf c w r c' w' [= <- <- <-]. split; [apply Hf|auto]. Qed.

Lemma quiet_set_world (f : World -> World) :
  (forall w, stdout (f w) = stdout w) -> quiet (set_world f).
Proof. intros Hf c w r c' w' [= <- <- <-]. split; [apply same_settings_refl|auto]. Qed.

Lemma quiet_request (paths : list string) : quiet (request paths).
Proof.
  intros c w r c' w'.
  unfold request, mbind, get_self, get_world, set_world, lift, output, mret.
  destruct (debug c) eqn:Hd; intros [= <- <- <-];
    (split; [apply same_settings_refl|]); [discriminate|reflexivity].
Qed.

Lemma quiet_read_clock : quiet read_clock.
Proof.
  unfold read_clock. apply quiet_mbind; [apply quiet_get_world|]. intros w.
  apply quiet_mbind; [|intros; apply quiet_mret].
  apply quiet_set_world. reflexivity.
Qed.

Lemma quiet_timestamp_to_age (timestamp : json) : quiet (timestamp_to_age timestamp).
Proof.
  intros c w r c' w'. unfold timestamp_to_age.
  match goal with |- match ?m c w with _ => _ end = _ -> _ => set (inner := m) end.
  assert (Hinner : quiet inner).
  { subst inner. apply quiet_mbind; [apply quiet_lift|]. intros ts.
    apply quiet_mbind; [apply quiet_lift|]. intros d.
    apply quiet_mbind; [apply quiet_read_clock|]. intros now_. apply quiet_mret. }
  destruct (inner c w) as [[[a|e] c1] w1] eqn:Ei.
  - intros [= <- <- <-]. exact (Hinner _ _ _ _ _ Ei).
  - destruct e; intros [= <- <- <-]; exact (Hinner _ _ _ _ _ Ei).
Qed.

Lemma quiet_fetch_cached (c : cache) (key : string) (paths : list string)
    (field : string) (default : json) :
  quiet (fetch_cached c key paths field default).
Proof.
  unfold fetch_cached. apply quiet_mbind; [apply quiet_get_self|]. intros self.
  destruct (cache_of c self !! key); [apply quiet_mret|].
  apply quiet_mbind; [apply quiet_request|]. intros data.
  apply quiet_mbind; [apply quiet_lift|]. intros value.
  apply quiet_mbind; [|intros; apply quiet_mret].
  destruct (truthy value); [|apply quiet_mret].
  apply quiet_set_self. intros c0. unfold same_settings, store. cbn. tauto.
Qed.

Lemma quiet_clusters : quiet clusters.
Proof.
  unfold clusters. apply quiet_mbind; [apply quiet_get_self|]. intros self.
  destruct (truthy (_clusters self)); [apply quiet_mret|].
  apply quiet_mbind; [apply quiet_request|]. intros data.
  apply quiet_mbind; [apply quiet_lift|]. intros value.
  apply quiet_mbind; [|intros; apply quiet_mret].
  destruct (truthy value); [|apply quiet_mret].
  apply quiet_set_self. intros c0. unfold same_settings. cbn. tauto.
Qed.

End Quiet.

(** Take a method apart down to the steps known to be quiet. *)
Ltac quiet_steps :=
  repeat first
    [ apply quiet_mret | apply quiet_lift | apply quiet_get_self | apply quiet_get_world
    | apply quiet_clusters | apply quiet_fetch_cached | apply quiet_timestamp_to_age
    | apply quiet_request
    | apply quiet_mbind; [|intros]
    | apply quiet_for_each; intros
    | match goal with
      | |- quiet (if ?b then _ else _) => destruct b
      | |- quiet (match ?x with _ => _ end) => destruct x
      | |- quiet (let '(_, _) := ?x in _) => destruct x
      end ].

Section QuietReports.
Context `{Externals}.

Lemma quiet_report_clusters : quiet report_clusters.
Proof.
  unfold report_clusters, report_clusters_table, as_name, cluster_details. quiet_steps.
Qed.

Lemma quiet_report_topics (cluster : string) : quiet (report_topics cluster).
Proof.
  unfold report_topics, report_topics_table, report_topics_step, as_name, topics,
    topic_details. quiet_steps.
Qed.

Lemma quiet_report_consumers (cluster : string) : quiet (report_consumers cluster).
Proof.
  unfold report_consumers, report_consumers_table, consumer_detail_row, as_name,
    consumers, consumer_details. quiet_steps.
Qed.

Lemma quiet_report_consumer_status (cluster : string) :
  quiet (report_consumer_status cluster).
Proof.
  unfold report_consumer_status, report_consumer_status_table, status_row, as_name,
    consumers, consumer_status. quiet_steps.
Qed.

Lemma quiet_report_consumer_partitions (cluster : string) :
  quiet (report_consumer_partitions cluster).
Proof.
  unfold report_consumer_partitions, report_consumer_partitions_table, partition_row,
    as_name, consumers, consumer_status. quiet_steps.
Qed.

Lemma quiet_report : quiet report.
Proof.
  unfold report, when, as_name.
  apply quiet_mbind; [apply quiet_get_self|]. intros self.
  apply quiet_mbind.
  { destruct (enable_clusters self); [apply quiet_report_clusters|apply quiet_mret]. }
  intros head.
  apply quiet_mbind; [apply quiet_clusters|]. intros names.
  apply quiet_mbind; [apply quiet_lift|]. intros items.
  apply quiet_for_each. intros acc item.
  destruct (enable_topics self || enable_consumers self
            || enable_consumer_status self || enable_consumer_partitions self);
    [|apply quiet_mret].
  apply quiet_mbind; [apply quiet_lift|]. intros cluster.
  apply quiet_mbind.
  { destruct (enable_topics self); [apply quiet_report_topics|apply quiet_mret]. }
  intros s1. apply quiet_mbind.
  { destruct (enable_consumers self); [apply quiet_report_consumers|apply quiet_mret]. }
  intros s2. apply quiet_mbind.
  { destruct (enable_consumer_status self);
      [apply quiet_report_consumer_status|apply quiet_mret]. }
  intros s3. apply quiet_mbind.
  { destruct (enable_consumer_partitions self);
      [apply quiet_report_consumer_partitions|apply quiet_mret]. }
  intros s4. apply quiet_mret.
Qed.

(** X22. A run of the script never changes a setting of the client, and
    with [debug] off it writes exactly one text, which ends with a line
    feed, after everything else is done; a run that raises has written
    nothing. *)
Theorem main_writes_one_text (args : Args) (w : World)
    (r : result unit) (c' : BurrowClient) (w' : World) :
  arg_debug args = false ->
  main args w = (r, c', w') ->
  same_settings (configure args) c'
  /\ match r with
     | Ok _ => exists line, stdout w' = line :: stdout w /\ ends_with_newline line = true
     | Raise _ => stdout w' = stdout w
     end.
Proof.
  intros Hdebug. unfold main, mbind.
  destruct (report (configure args) w) as [[[text|e] c1] w1] eqn:Hreport.
  - destruct (quiet_report _ _ _ _ _ Hreport) as [Hs Hout].
    unfold output, set_world. intros [= <- <- <-]. split; [exact Hs|].
    cbn [stdout]. rewrite Hout by (destruct args; exact Hdebug).
    eexists. split; [reflexivity|].
    destruct (ends_with_newline text) eqn:He; [exact He|apply ends_with_newline_append].
  - intros [= <- <- <-]. destruct (quiet_report _ _ _ _ _ Hreport) as [Hs Hout].
    split; [exact Hs|]. apply Hout. destruct args; exact Hdebug.
Qed.

End QuietReports.

(** The script run without flags against the test server: the second
    cluster has no consumer list there, and nothing is written. *)
Lemma main_writes_one_text_witness :
  let args := {| arg_url := "http://127.0.0.1:8000"; arg_api := "v3/kafka";
                 arg_clusters := false; arg_topics := false; arg_consumers := false;
                 arg_status := false; arg_partitions := false;
                 arg_filter_topic := None; arg_filter_consumer := None;
                 arg_verbose := false; arg_debug := false; arg_decimal := false |} in
  stdout (snd (main (H:=Fixtures.test_library) args fresh_world)) = []
  /\ exists line,
       stdout (snd (main (H:=one_cluster) args fresh_world)) = [line]
       /\ ends_with_newline line = true.
Proof.
  intros args. split.
  - set (run := main (H:=Fixtures.test_library) args fresh_world).
    assert (Hrun : run = (Raise RuntimeError, snd (fst run), snd run))
      by (vm_compute; reflexivity).
    exact (proj2 (main_writes_one_text (H:=Fixtures.test_library) args fresh_world
                    _ _ _ eq_refl Hrun)).
  - set (run := main (H:=one_cluster) args fresh_world).
    assert (Hrun : run = (Ok tt, snd (fst run), snd run)) by (vm_compute; reflexivity).
    exact (proj2 (main_writes_one_text (H:=one_cluster) args fresh_world
                    _ _ _ eq_refl Hrun)).
Defined.

(** ** The rows of the consumer report *)

Section ConsumerReport.
Context `{Externals}.

Lemma entry_turns_rows (self : BurrowClient) (consumer topic : string)
    (entries : list json) c w news c' w' :
  loop_trace (entry_turn self consumer topic) entries c w news c' w' ->
  length (concat news) = length entries.
Proof.
  induction 1 as [|e es c w new c1 w1 news c' w' (row & _ & ->) _ IH]; [reflexivity|].
  cbn [concat length app]. rewrite IH. reflexivity.
Qed.

Lemma consumers_table_trace (cluster : string) c w tbl c' w' :
  report_consumers_table cluster c w = (Ok tbl, c', w') ->
  exists payload c0 w0 items groups,
    consumers cluster c w = (Ok payload, c0, w0)
    /\ py_iter payload = Ok items
    /\ loop_trace (consumer_step c cluster) items c0 w0 groups c' w'
    /\ rows tbl = concat groups.
Proof.
  unfold report_consumers_table. intros Hrun. minv Hrun.
  apply mbind_ok in Hrun as (payload & c0 & w0 & Hconsumers & Hrun).
  minv Hrun. rename a into items.
  apply (for_each_trace _ (consumer_step c cluster)) in Hrun.
  - destruct Hrun as (_ & _ & groups & Hrows & Htrace).
    exists payload, c0, w0, items, groups. auto.
  - clear. intros report item c0 w0 r c0' w0' Hstep.
    rewrite mbind_lift in Hstep.
    destruct (match_consumer c item) as [passes|e] eqn:Hpass; [|discriminate Hstep].
    unfold consumer_step. rewrite Hpass.
    destruct passes; cbn [negb] in Hstep.
    + unfold as_name in Hstep. rewrite mbind_lift in Hstep.
      destruct item; try discriminate Hstep. cbn [as_str] in Hstep.
      apply mbind_ok in Hstep as (data & c1 & w1 & Hdata & Hstep).
      rewrite mbind_lift in Hstep.
      destruct (py_items data) as [topics|e] eqn:Hitems; [|discriminate Hstep].
      apply (for_each_trace _ (topic_turn c s)) in Hstep.
      * destruct Hstep as (Hf & Ha & news & Hrows & Htrace).
        split; [exact Hf|]. split; [exact Ha|].
        exists (concat news). split; [exact Hrows|].
        exists true. split; [reflexivity|].
        exists s, data, c1, w1, topics, news. auto 8.
      * clear. intros report [topic details] c0 w0 r c0' w0' Hstep.
        rewrite mbind_lift in Hstep.
        destruct (match_topic c (JStr topic)) as [passes|e] eqn:Hpass;
          [|discriminate Hstep].
        unfold topic_turn. cbn [fst snd]. rewrite Hpass.
        destruct passes; cbn [negb] in Hstep.
        -- rewrite mbind_lift in Hstep.
           destruct (py_iter details) as [entries|e] eqn:Hiter; [|discriminate Hstep].
           apply (for_each_trace _ (entry_turn c s topic)) in Hstep.
           ++ destruct Hstep as (Hf & Ha & news & Hrows & Htrace).
              split; [exact Hf|]. split; [exact Ha|].
              exists (concat news). split; [exact Hrows|].
              exists true. split; [reflexivity|].
              exists entries, news. auto.
           ++ clear. intros report detail c0 w0 r c0' w0' Hstep.
              apply mbind_ok in Hstep as (row & c2 & w2 & Hrow & Hstep).
              apply mret_ok in Hstep as (-> & -> & ->).
              split; [reflexivity|]. split; [reflexivity|].
              exists [row]. split; [reflexivity|].
              exists row. auto.
        -- apply mret_ok in Hstep as (-> & -> & ->).
           split; [reflexivity|]. split; [reflexivity|].
           exists []. rewrite app_nil_r. split; [reflexivity|].
           exists false. auto.
    + apply mret_ok in Hstep as (-> & -> & ->).
      split; [reflexivity|]. split; [reflexivity|].
      exists []. rewrite app_nil_r. split; [reflexivity|].
      exists false. auto.
Qed.

(** X23. The consumer report adds rows consumer by consumer, in the
    order of the consumer list, and for a consumer topic by topic, in
    the order of its details.  A consumer or a topic that does not pass
    its filter adds nothing; for a consumer that passes, the details are
    fetched in the state the turns before left, and every entry of the
    list of a passing topic gets one row of its own, in the order of the
    list: entries of one topic are not merged. *)
Theorem consumer_report_rows (cluster : string) (c : BurrowClient) (w : World)
    (tbl : PrettyTable) (c' : BurrowClient) (w' : World) :
  report_consumers_table cluster c w = (Ok tbl, c', w') ->
  exists payload c0 w0 items groups,
    consumers cluster c w = (Ok payload, c0, w0)
    /\ py_iter payload = Ok items
    /\ loop_trace (consumer_step c cluster) items c0 w0 groups c' w'
    /\ rows tbl = concat groups
    /\ forall name topic entries c1 w1 news c2 w2,
         loop_trace (entry_turn c name topic) entries c1 w1 news c2 w2 ->
         length (concat news) = length entries.
Proof.
  intros Hrun.
  apply consumers_table_trace in Hrun
    as (payload & c0 & w0 & items & groups & Hconsumers & Hiter & Htrace & Hrows).
  exists payload, c0, w0, items, groups.
  do 4 (split; [assumption|]).
  intros name topic entries c1 w1 news c2 w2. apply entry_turns_rows.
Qed.

End ConsumerReport.

(** The two consumer groups of the test suite: the details of each are
    fetched in its turn, and each has one topic with one entry. *)
Lemma consumer_report_rows_witness :
  exists groups c' w',
    loop_trace (consumer_step (H:=Fixtures.test_library) Fixtures.client "clustername1")
      [JStr "group1"; JStr "group2"]
      (snd (fst (consumers (H:=Fixtures.test_library) "clustername1"
                   Fixtures.client fresh_world)))
      (snd (consumers (H:=Fixtures.test_library) "clustername1"
              Fixtures.client fresh_world))
      groups c' w'
    /\ length (concat groups) = 2%nat
    /\ length (requests w') = 3%nat.
Proof.
  set (run := report_consumers_table (H:=Fixtures.test_library) "clustername1"
                Fixtures.client fresh_world).
  set (tbl := match fst (fst run) with Ok t => t | Raise _ => new_table [] end).
  assert (Hrun : run = (Ok tbl, snd (fst run), snd run)) by (vm_compute; reflexivity).
  destruct (consumer_report_rows (H:=Fixtures.test_library) _ _ _ _ _ _ Hrun)
    as (payload & c0 & w0 & items & groups & Hconsumers & Hiter & Htrace & Hrows & _).
  set (fetch := consumers (H:=Fixtures.test_library) "clustername1"
                  Fixtures.client fresh_world) in *.
  assert (Hfetch : fetch = (Ok (JArr [JStr "group1"; JStr "group2"]),
                            snd (fst fetch), snd fetch)) by (vm_compute; reflexivity).
  rewrite Hfetch in Hconsumers. injection Hconsumers as <- <- <-.
  cbn [py_iter] in Hiter. injection Hiter as <-.
  exists groups, (snd (fst run)), (snd run). split; [exact Htrace|].
  split; [rewrite <- Hrows|]; vm_compute; reflexivity.
Defined.

(** ** More on the topic report *)

Section TopicReport.
Context `{Externals}.

(** X24. In verbose mode a row of the topic report shows the number of
    offsets and all of them, formatted and joined by commas.  A topic
    whose answer has no [offsets] aborts the report in either mode: the
    empty default is not kept, and [max] of it raises [ValueError] after
    the one request was sent. *)
Theorem topic_report_verbose_and_missing_offsets :
  (forall (self : BurrowClient) (topic : string) (z : Z) (zs : list Z),
      verbose self = true ->
      topic_row self topic (JArr (map JInt (z :: zs)))
      = Ok [text topic; JInt (Z.of_nat (length (z :: zs)));
            text (String.concat "," (map (number_text self) (z :: zs)))])
  /\ (forall (self : BurrowClient) (cluster topic : string) (report : PrettyTable)
             (c : BurrowClient) (w : World) (fields : list (string * json)),
        cache_of TopicDetails c !! pair_key cluster topic = None ->
        match_topic self (JStr topic) = Ok true ->
        http_get_json (requests w) (address c [cluster; "topic"; topic])
        = Ok (JObj fields) ->
        assoc "offsets" fields = None ->
        exists w1,
          report_topics_step self cluster report (JStr topic) c w
          = (Raise ValueError, c, w1)
          /\ requests w1 = address c [cluster; "topic"; topic] :: requests w).
Proof.
  split.
  - intros self topic z zs Hv. unfold topic_row. cbn [py_iter rbind].
    rewrite rmapM_format_ints. cbn [map py_max py_min].
    rewrite max_from_ints, min_from_ints. cbn [rbind]. rewrite Hv.
    cbn [length]. rewrite List.length_map. reflexivity.
  - intros self cluster topic report c w fields Hmiss Hpass Hanswer Hnone.
    unfold report_topics_step. rewrite mbind_lift, Hpass. cbn [negb].
    unfold as_name. rewrite mbind_lift. cbn [as_str].
    destruct (request_sends [cluster; "topic"; topic] c w) as (w1 & Hreq & Hsent).
    exists w1. split; [|exact Hsent].
    assert (Hdetails : topic_details cluster topic c w = (Ok (JArr []), c, w1)).
    { unfold topic_details, fetch_cached. rewrite mbind_get_self, Hmiss.
      unfold mbind at 1. rewrite Hreq, Hanswer.
      rewrite mbind_lift. cbn [py_get]. rewrite Hnone. reflexivity. }
    unfold mbind at 1. rewrite Hdetails. reflexivity.
Qed.

End TopicReport.

(** The test server with the offsets of topicA left out of the answer. *)
Lemma topic_report_verbose_and_missing_offsets_witness :
  let E := Fixtures.library
             (Fixtures.answering ["clustername1"; "topic"; "topicA"]
                (JObj [("error", JBool false)]) Fixtures.test_table) in
  fst (fst (report_topics_step (H:=E) Fixtures.client "clustername1"
              (new_table []) (JStr "topicA") Fixtures.client fresh_world))
  = Raise ValueError.
Proof.
  intros E.
  destruct (proj2 (topic_report_verbose_and_missing_offsets (H:=E))
              Fixtures.client "clustername1" "topicA" (new_table []) Fixtures.client
              fresh_world [("error", JBool false)])
    as (w1 & -> & _); reflexivity.
Defined.

(** ** The rows of the status summary *)

Section StatusReport.
Context `{Externals}.

(** The cells of a finished row, from the snapshot it was made for. *)
Lemma status_row_cells (self : BurrowClient) (consumer : string) (data : json)
    c w row c' w' :
  status_row self consumer data c w = (Ok row, c', w') -> summary_cells self data row.
Proof.
  intros Hrow.
  apply status_row_inv in Hrow
    as (lag & status & total_lag & pj & partitions & acc & lag_t & total_t & offset_t
        & ts_t & date & age & Hlag & Hstatus & Htotal & Hpj & Hparts & Hacc & Hlag_t
        & Htotal_t & Hoff & Hts & Hdate & Hage & Hrow).
  destruct data as [| | | | |fields]; try discriminate Hstatus.
  cbn [py_get] in Hstatus, Htotal, Hpj.
  injection Htotal as <-. injection Hpj as <-.
  exists fields, lag_t, total_t, partitions. split; [reflexivity|].
  assert (Hcols : nth_error row 2 = Some (text lag_t)
                  /\ nth_error row 3 = Some (text total_t)).
  { destruct (verbose self); [destruct Hrow as (? & ? & _ & _ & ->)|subst row];
      split; reflexivity. }
  destruct Hcols as [Hc2 Hc3].
  split; [exact Hc2|]. split; [exact Hc3|]. split.
  { rewrite summary_lag_obj in Hlag.
    destruct (assoc "maxlag" fields) as [maxlag|].
    - destruct (truthy maxlag).
      + unfold rmap in Hlag. destruct (get_partition_stats maxlag) as [st|e];
          cbn [rbind] in Hlag; [|discriminate Hlag].
        injection Hlag as <-. exists st. split; [reflexivity | exact Hlag_t].
      + injection Hlag as <-. rewrite format_number_zero in Hlag_t. congruence.
    - injection Hlag as <-. rewrite format_number_zero in Hlag_t. congruence. }
  split; [exact Htotal_t|]. split; [exact Hparts|].
  intros Hv. rewrite Hv in Hrow. destruct Hrow as (owners_t & topics_t & Hown & _ & ->).
  destruct (owners_column _ _ _ _ Hacc Hown) as (owners & -> & Hsorted & Hmem).
  exists owners. split; [reflexivity|]. split; [exact Hsorted | exact Hmem].
Qed.

Lemma status_row_shape (self : BurrowClient) (consumer : string) (data : json)
    c w row c' w' :
  status_row self consumer data c w = (Ok row, c', w') ->
  row_name row = consumer /\ length row = length (status_header self).
Proof.
  intros Hrow.
  apply status_row_inv in Hrow
    as (? & ? & ? & ? & ? & ? & ? & ? & ? & ? & ? & ? & _ & _ & _ & _ & _ & _ & _ & _
        & _ & _ & _ & _ & Hrow).
  unfold status_header. destruct (verbose self).
  - destruct Hrow as (? & ? & _ & _ & ->). split; reflexivity.
  - subst row. split; reflexivity.
Qed.

Lemma status_table_trace (cluster : string) c w tbl c' w' :
  report_consumer_status_table cluster c w = (Ok tbl, c', w') ->
  exists payload c0 w0 items news,
    consumers cluster c w = (Ok payload, c0, w0)
    /\ py_iter payload = Ok items
    /\ loop_trace (status_step c cluster) items c0 w0 news c' w'
    /\ rows tbl = concat news
    /\ field_names tbl = status_header c.
Proof.
  unfold report_consumer_status_table. intros Hrun. minv Hrun.
  apply mbind_ok in Hrun as (payload & c0 & w0 & Hconsumers & Hrun).
  minv Hrun. rename a into items.
  apply (for_each_trace _ (status_step c cluster)) in Hrun.
  - destruct Hrun as (Hf & _ & news & Hrows & Htrace).
    exists payload, c0, w0, items, news. auto.
  - clear. intros report item c0 w0 r c0' w0' Hstep.
    rewrite mbind_lift in Hstep.
    destruct (match_consumer c item) as [passes|e] eqn:Hpass; [|discriminate Hstep].
    unfold status_step. rewrite Hpass.
    destruct passes; cbn [negb] in Hstep.
    + unfold as_name in Hstep. rewrite mbind_lift in Hstep.
      destruct item; try discriminate Hstep. cbn [as_str] in Hstep.
      apply mbind_ok in Hstep as (data & c1 & w1 & Hdata & Hstep).
      apply mbind_ok in Hstep as (row & c2 & w2 & Hrow & Hstep).
      apply mret_ok in Hstep as (-> & -> & ->).
      split; [reflexivity|]. split; [reflexivity|].
      exists [row]. split; [reflexivity|].
      exists true. split; [reflexivity|].
      exists s, data, c1, w1, row.
      split; [reflexivity|]. split; [exact Hdata|]. split; [exact Hrow|].
      split; [|reflexivity]. eapply status_row_cells. exact Hrow.
    + apply mret_ok in Hstep as (-> & -> & ->).
      split; [reflexivity|]. split; [reflexivity|].
      exists []. rewrite app_nil_r. split; [reflexivity|].
      exists false. auto.
Qed.

Lemma status_trace_names (self : BurrowClient) (cluster : string) (items : list json)
    c w news c' w' :
  loop_trace (status_step self cluster) items c w news c' w' ->
  map JStr (map row_name (concat news)) = List.filter (passes_consumer self) items
  /\ Forall (fun row => length row = length (status_header self)) (concat news).
Proof.
  induction 1 as [|item items c w new c1 w1 news c' w' (passes & Hpass & Hnew) _ [IH1 IH2]].
  - split; [reflexivity|constructor].
  - cbn [List.filter concat]. unfold passes_consumer at 1. rewrite Hpass.
    destruct passes.
    + destruct Hnew as (name & data & c2 & w2 & row & -> & _ & Hrow & _ & ->).
      apply status_row_shape in Hrow as [Hname Hlen].
      change ([row] ++ concat news)%list with (row :: concat news).
      cbn [map]. rewrite Hname, IH1. split; [reflexivity|]. constructor; assumption.
    + destruct Hnew as (-> & _ & _). split; assumption.
Qed.

(** X25. The status summary has one row for each name of the consumer
    list that passes the consumer filter, in the order of the list: the
    first column of the table is the list of those names.  The snapshot
    of a consumer is fetched in the state the turns before left, and its
    row is made of that snapshot; a consumer that does not pass causes no
    fetch.  Every row has as many cells as the header, eight, or ten in
    verbose mode. *)
Theorem status_report_rows (cluster : string) (c : BurrowClient) (w : World)
    (tbl : PrettyTable) (c' : BurrowClient) (w' : World) :
  report_consumer_status_table cluster c w = (Ok tbl, c', w') ->
  exists payload c0 w0 items news,
    consumers cluster c w = (Ok payload, c0, w0)
    /\ py_iter payload = Ok items
    /\ loop_trace (status_step c cluster) items c0 w0 news c' w'
    /\ rows tbl = concat news
    /\ map JStr (map row_name (rows tbl)) = List.filter (passes_consumer c) items
    /\ Forall (fun row => length row = length (field_names tbl)) (rows tbl)
    /\ length (field_names tbl) = (if verbose c then 10 else 8)%nat.
Proof.
  intros Hrun.
  apply status_table_trace in Hrun
    as (payload & c0 & w0 & items & news & Hconsumers & Hiter & Htrace & Hrows & Hf).
  exists payload, c0, w0, items, news.
  do 4 (split; [assumption|]).
  destruct (status_trace_names _ _ _ _ _ _ _ _ Htrace) as [Hnames Hlen].
  rewrite Hrows, Hf. split; [exact Hnames|]. split; [exact Hlen|].
  unfold status_header. destruct (verbose c); reflexivity.
Qed.

End StatusReport.

(** The two consumer groups of the test suite. *)
Lemma status_report_rows_witness :
  exists tbl news c' w',
    loop_trace (status_step (H:=Fixtures.test_library) Fixtures.client "clustername1")
      [JStr "group1"; JStr "group2"]
      (snd (fst (consumers (H:=Fixtures.test_library) "clustername1"
                   Fixtures.client fresh_world)))
      (snd (consumers (H:=Fixtures.test_library) "clustername1"
              Fixtures.client fresh_world))
      news c' w'
    /\ rows tbl = concat news
    /\ map row_name (rows tbl) = ["group1"; "group2"]
    /\ Forall (fun row => length row = 8%nat) (rows tbl).
Proof.
  set (run := report_consumer_status_table (H:=Fixtures.test_library) "clustername1"
                Fixtures.client fresh_world).
  set (tbl := match fst (fst run) with Ok t => t | Raise _ => new_table [] end).
  assert (Hrun : run = (Ok tbl, snd (fst run), snd run)) by (vm_compute; reflexivity).
  destruct (status_report_rows (H:=Fixtures.test_library) _ _ _ _ _ _ Hrun)
    as (payload & c0 & w0 & items & news & Hconsumers & Hiter & Htrace & Hrows & _
        & Hlen & Hcols).
  set (fetch := consumers (H:=Fixtures.test_library) "clustername1"
                  Fixtures.client fresh_world) in *.
  assert (Hfetch : fetch = (Ok (JArr [JStr "group1"; JStr "group2"]),
                            snd (fst fetch), snd fetch)) by (vm_compute; reflexivity).
  rewrite Hfetch in Hconsumers. injection Hconsumers as <- <- <-.
  cbn [py_iter] in Hiter. injection Hiter as <-.
  exists tbl, news, (snd (fst run)), (snd run).
  split; [exact Htrace|]. split; [exact Hrows|].
  split; [vm_compute; reflexivity|].
  rewrite Hcols in Hlen. exact Hlen.
Defined.

(** ** The topic report, as returned *)

Section TopicReportRows.
Context `{Externals}.

Lemma topics_table_trace (cluster : string) c w tbl c' w' :
  report_topics_table cluster c w = (Ok tbl, c', w') ->
  exists payload c0 w0 names news,
    topics cluster c w = (Ok payload, c0, w0)
    /\ py_iter payload = Ok names
    /\ loop_trace (topic_step c cluster) names c0 w0 news c' w'
    /\ rows tbl = concat news
    /\ field_names tbl = topic_header c
    /\ align tbl = "l".
Proof.
  unfold report_topics_table. intros Hrun. minv Hrun.
  apply mbind_ok in Hrun as (payload & c0 & w0 & Htopics & Hrun).
  minv Hrun. rename a into names.
  apply (for_each_trace _ (topic_step c cluster)) in Hrun.
  - destruct Hrun as (Hf & Ha & news & Hrows & Htrace).
    exists payload, c0, w0, names, news. auto 8.
  - clear. intros report item c0 w0 r c0' w0' Hstep.
    unfold report_topics_step in Hstep. rewrite mbind_lift in Hstep.
    destruct (match_topic c item) as [passes|e] eqn:Hpass; [|discriminate Hstep].
    unfold topic_step. rewrite Hpass.
    destruct passes; cbn [negb] in Hstep.
    + unfold as_name in Hstep. rewrite mbind_lift in Hstep.
      destruct item; try discriminate Hstep. cbn [as_str] in Hstep.
      apply mbind_ok in Hstep as (details & c1 & w1 & Hdetails & Hstep).
      rewrite mbind_lift in Hstep.
      destruct (topic_row c s details) as [row|e] eqn:Hrow; [|discriminate Hstep].
      apply mret_ok in Hstep as (-> & -> & ->).
      split; [reflexivity|]. split; [reflexivity|].
      exists [row]. split; [reflexivity|].
      exists true. split; [reflexivity|].
      exists s, details, row. auto.
    + apply mret_ok in Hstep as (-> & -> & ->).
      split; [reflexivity|]. split; [reflexivity|].
      exists []. rewrite app_nil_r. split; [reflexivity|].
      exists false. auto.
Qed.

Lemma topic_trace_rows (self : BurrowClient) (cluster : string) (names : list json)
    c w news c' w' :
  loop_trace (topic_step self cluster) names c w news c' w' ->
  Forall topic_row_shape (concat news)
  /\ map JStr (map row_name (concat news)) = List.filter (passes_topic self) names.
Proof.
  induction 1 as [|item items c w new c1 w1 news c' w' (passes & Hpass & Hnew) _ [IH1 IH2]].
  - split; [constructor|reflexivity].
  - cbn [List.filter concat]. unfold passes_topic at 1. rewrite Hpass.
    destruct passes.
    + destruct Hnew as (topic & details & row & -> & _ & Hrow & ->).
      apply topic_row_has_shape in Hrow as [Hshape Hname].
      change ([row] ++ concat news)%list with (row :: concat news).
      cbn [map]. rewrite Hname, IH2. split; [constructor; assumption|reflexivity].
    + destruct Hnew as (-> & _ & _). split; assumption.
Qed.

Lemma topic_shape_named (l : list (list json)) :
  Forall topic_row_shape l -> Forall named_row l.
Proof.
  apply List.Forall_impl. intros row (name & count & cells & ->). eexists _, _. reflexivity.
Qed.

Lemma topic_header_column (self : BurrowClient) :
  index_of "Topic" (topic_header self) = Some 0%nat.
Proof. unfold topic_header. destruct (verbose self); reflexivity. Qed.

Lemma report_topics_drawn (cluster : string) c w s c' w' :
  report_topics cluster c w = (Ok s, c', w') ->
  exists payload c0 w0 names news drawn,
    topics cluster c w = (Ok payload, c0, w0)
    /\ py_iter payload = Ok names
    /\ loop_trace (topic_step c cluster) names c0 w0 news c' w'
    /\ map JStr (map row_name (concat news)) = List.filter (passes_topic c) names
    /\ Permutation (concat news) drawn
    /\ sorted_by_name drawn
    /\ s = String.append (draw (topic_header c) "l" drawn) newline.
Proof.
  unfold report_topics. intros Hrun.
  apply mbind_ok in Hrun as (tbl & c1 & w1 & Htbl & Hrun).
  rewrite mbind_lift in Hrun.
  destruct (get_string (Some "Topic") tbl) as [s0|e] eqn:Hdraw; [|discriminate Hrun].
  apply mret_ok in Hrun as (-> & -> & ->).
  apply topics_table_trace in Htbl
    as (payload & c0 & w0 & names & news & Htopics & Hiter & Htrace & Hrows & Hf & Ha).
  destruct (topic_trace_rows _ _ _ _ _ _ _ _ Htrace) as [Hshape Hnames].
  destruct (drawn_sorted tbl "Topic" s0) as (drawn & Hperm & Hsorted & Htext).
  - rewrite Hf. apply topic_header_column.
  - exact Ha.
  - rewrite Hrows. apply topic_shape_named. exact Hshape.
  - exact Hdraw.
  - exists payload, c0, w0, names, news, drawn.
    rewrite Hrows, Hf in *. auto 10.
Qed.

Lemma report_topics_draws (cluster : string) c w tbl c' w' :
  report_topics_table cluster c w = (Ok tbl, c', w') ->
  exists s, report_topics cluster c w = (Ok s, c', w').
Proof.
  intros Htbl. unfold report_topics, mbind at 1. rewrite Htbl.
  apply topics_table_trace in Htbl
    as (payload & c0 & w0 & names & news & _ & _ & Htrace & Hrows & Hf & _).
  destruct (topic_trace_rows _ _ _ _ _ _ _ _ Htrace) as [Hshape _].
  destruct (get_rows_by_name tbl "Topic") as (sorted & Hsorted & _).
  - rewrite Hf. apply topic_header_column.
  - rewrite Hrows. exact Hshape.
  - rewrite mbind_lift. unfold get_string. rewrite Hsorted. cbn [rbind].
    eexists. reflexivity.
Qed.

End TopicReportRows.

(** C7. A row of the compact topic report shows the number of entries of
    the topic's offset list and the formatted minimum and maximum of that
    list; for integer offsets these are the least and the greatest of the
    integers.  The text [report_topics] returns is the table drawn with
    one row for each name of the topic list that passes the filter, the
    row of a topic being made from the offsets [topic_details] returns
    for it in the state the turns before left, and with the rows in the
    order of the topic names, whatever the order of the topic list; once
    the rows are made, drawing them never fails.  On the test server the
    text shows topicA and then topicB, each with 4 partitions, minimum
    2290903 and maximum 3902933, also when the server lists topicB
    first. *)
Theorem topic_summary_rows :
  (forall (self : BurrowClient) (topic : string) (z : Z) (zs : list Z),
      verbose self = false ->
      topic_row self topic (JArr (map JInt (z :: zs)))
      = Ok [text topic; JInt (Z.of_nat (length (z :: zs)));
            text (number_text self (list_min z zs));
            text (number_text self (list_max z zs))]
      /\ In (list_min z zs) (z :: zs)
      /\ Forall (fun x => list_min z zs <= x) (z :: zs)
      /\ In (list_max z zs) (z :: zs)
      /\ Forall (fun x => x <= list_max z zs) (z :: zs))
  /\ (forall (self : BurrowClient) (topic : string) (details : json) (row : list json),
        verbose self = false ->
        topic_row self topic details = Ok row ->
        exists offsets vmin vmax tmin tmax,
          py_iter details = Ok offsets
          /\ py_min offsets = Ok vmin
          /\ py_max offsets = Ok vmax
          /\ format_number self vmin = Ok tmin
          /\ format_number self vmax = Ok tmax
          /\ row = [text topic; JInt (Z.of_nat (length offsets)); text tmin; text tmax])
  /\ (forall (E : Externals) (cluster : string) c w s c' w',
        report_topics cluster c w = (Ok s, c', w') ->
        exists payload c0 w0 names news drawn,
          topics cluster c w = (Ok payload, c0, w0)
          /\ py_iter payload = Ok names
          /\ loop_trace (topic_step c cluster) names c0 w0 news c' w'
          /\ map JStr (map row_name (concat news)) = List.filter (passes_topic c) names
          /\ Permutation (concat news) drawn
          /\ sorted_by_name drawn
          /\ s = String.append (draw (topic_header c) "l" drawn) newline)
  /\ (forall (E : Externals) (cluster : string) c w tbl c' w',
        report_topics_table cluster c w = (Ok tbl, c', w') ->
        exists s, report_topics cluster c w = (Ok s, c', w'))
  /\ fst (fst (@report_topics Fixtures.test_library "clustername1"
                 Fixtures.client fresh_world))
     = Ok (String.append
             (@draw Fixtures.test_library
                ["Topic"; "Partitions"; "Min Offset"; "Max Offset"] "l"
                [[text "topicA"; JInt 4; text "2290903"; text "3902933"];
                 [text "topicB"; JInt 4; text "2290903"; text "3902933"]])
             newline)
  /\ fst (fst (@report_topics Fixtures.topics_reversed "clustername1"
                 Fixtures.client fresh_world))
     = Ok (String.append
             (@draw Fixtures.topics_reversed
                ["Topic"; "Partitions"; "Min Offset"; "Max Offset"] "l"
                [[text "topicA"; JInt 4; text "2290903"; text "3902933"];
                 [text "topicB"; JInt 4; text "2290903"; text "3902933"]])
             newline)
  /\ topic_row Fixtures.client "topicA"
       (JArr [JInt 2290903; JInt 2898892; JInt 3902933; JInt 2328823])
     = Ok [text "topicA"; JInt 4; text "2290903"; text "3902933"].
Proof.
  split.
  { intros self topic z zs Hv. split; [apply topic_row_ints; exact Hv|].
    destruct (list_min_spec z zs) as [? ?]. destruct (list_max_spec z zs) as [? ?]. auto. }
  split.
  { intros self topic details row Hv Hrow.
    apply topic_row_inv in Hrow as (offsets & vmin & vmax & texts & Hit & Hmin & Hmax & _ & Hrow).
    rewrite Hv in Hrow. destruct Hrow as (tmin & tmax & Htmin & Htmax & ->).
    exists offsets, vmin, vmax, tmin, tmax. auto 10. }
  split; [intros E cluster c w s c' w'; apply report_topics_drawn|].
  split; [intros E cluster c w tbl c' w'; apply report_topics_draws|].
  repeat split; vm_compute; reflexivity.
Qed.

(** The offsets of the test data, and the report of the test server that
    lists topicB first. *)
Lemma topic_summary_rows_witness :
  topic_row Fixtures.client "topicA" (JArr (map JInt [2290903; 2898892; 3902933; 2328823]))
  = Ok [text "topicA"; JInt 4; text "2290903"; text "3902933"]
  /\ exists news drawn,
       map row_name (concat news) = ["topicB"; "topicA"]
       /\ Permutation (concat news) drawn
       /\ sorted_by_name drawn
       /\ fst (fst (@report_topics Fixtures.topics_reversed "clustername1"
                      Fixtures.client fresh_world))
          = Ok (String.append
                  (@draw Fixtures.topics_reversed
                     ["Topic"; "Partitions"; "Min Offset"; "Max Offset"] "l" drawn)
                  newline).
Proof.
  destruct topic_summary_rows as (Hrow & _ & Hreport & _).
  split.
  - apply (Hrow Fixtures.client "topicA" 2290903 [2898892; 3902933; 2328823]).
    reflexivity.
  - set (run := @report_topics Fixtures.topics_reversed "clustername1"
                  Fixtures.client fresh_world).
    set (s := match fst (fst run) with Ok s => s | Raise _ => "" end).
    assert (Hrun : run = (Ok s, snd (fst run), snd run)) by (vm_compute; reflexivity).
    destruct (Hreport Fixtures.topics_reversed _ _ _ _ _ _ Hrun)
      as (payload & c0 & w0 & names & news & drawn & Htopics & Hiter & _ & Hnames
          & Hperm & Hsorted & Hs).
    exists news, drawn.
    assert (Hpayload : payload = JArr [JStr "topicB"; JStr "topicA"]).
    { vm_compute in Htopics. injection Htopics as <- _ _. reflexivity. }
    subst payload. cbn [py_iter] in Hiter. injection Hiter as <-.
    split.
    { assert (Hpass : List.filter (passes_topic (H:=Fixtures.topics_reversed)
                                     Fixtures.client)
                                  [JStr "topicB"; JStr "topicA"]
                      = map JStr ["topicB"; "topicA"]) by (vm_compute; reflexivity).
      rewrite Hpass in Hnames. clear -Hnames.
      revert Hnames. generalize (map row_name (concat news)). intros l Hl.
      destruct l as [|n1 [|n2 [|n3 ns]]]; try discriminate Hl.
      injection Hl as -> ->. reflexivity. }
    split; [exact Hperm|]. split; [exact Hsorted|].
    rewrite Hrun. cbn [fst]. rewrite Hs. reflexivity.
Defined.

(** ** The status summary, as returned *)

Section StatusReportDrawn.
Context `{Externals}.

Lemma report_consumer_status_drawn (cluster : string) c w s c' w' :
  report_consumer_status cluster c w = (Ok s, c', w') ->
  exists payload c0 w0 items news drawn,
    consumers cluster c w = (Ok payload, c0, w0)
    /\ py_iter payload = Ok items
    /\ loop_trace (status_step c cluster) items c0 w0 news c' w'
    /\ Permutation (concat news) drawn
    /\ sorted_by_name drawn
    /\ s = String.append (draw (status_header c) "l" drawn) newline.
Proof.
  unfold report_consumer_status. intros Hrun.
  apply mbind_ok in Hrun as (tbl & c1 & w1 & Htbl & Hrun).
  rewrite mbind_lift in Hrun.
  destruct (get_string (Some "Consumer Group") tbl) as [s0|e] eqn:Hdraw;
    [|discriminate Hrun].
  apply mret_ok in Hrun as (-> & -> & ->).
  destruct (status_table_named _ _ _ _ _ _ Htbl) as (Hcol & Ha & Hnamed).
  apply status_table_trace in Htbl
    as (payload & c0 & w0 & items & news & Hconsumers & Hiter & Htrace & Hrows & Hf).
  destruct (drawn_sorted tbl "Consumer Group" s0 Hcol Ha Hnamed Hdraw)
    as (drawn & Hperm & Hsorted & Htext).
  exists payload, c0, w0, items, news, drawn.
  rewrite Hrows, Hf in *. auto 10.
Qed.

End StatusReportDrawn.

(** C6. The text [report_consumer_status] returns is the table drawn
    with one row for each consumer of the consumer list that passes the
    consumer filter, in the order of the names.  The row of a consumer is
    made of the snapshot [consumer_status] returns for it in the state
    the turns before left: its lag column is the formatted lag of the
    normalized [maxlag] record when the snapshot has a non-empty one and
    "0" otherwise; its total-lag column is the formatted [totallag] of
    the snapshot, 0 when absent; and in verbose mode its owners column is
    the comma-joined list, strictly increasing (so sorted and without
    repetition), of exactly the non-empty owners of the partitions that
    pass the topic filter.  The lag of a snapshot with a non-empty
    [maxlag] is that of the normalized record, whenever the record can
    be normalized.  On the test server, a snapshot with the owners ""
    and "alice" is shown with the owners "alice"; one with [totallag] 0
    and no [maxlag] with lag "0" and total lag "0"; one whose [maxlag]
    has the lag 7 and whose [totallag] is 12 with lag "7" and total lag
    "12". *)
Theorem status_summary_row :
  (forall (E : Externals) (cluster : string) c w s c' w',
      report_consumer_status cluster c w = (Ok s, c', w') ->
      exists payload c0 w0 items news drawn,
        consumers cluster c w = (Ok payload, c0, w0)
        /\ py_iter payload = Ok items
        /\ loop_trace (status_step c cluster) items c0 w0 news c' w'
        /\ Permutation (concat news) drawn
        /\ sorted_by_name drawn
        /\ s = String.append (draw (status_header c) "l" drawn) newline)
  /\ (forall (E : Externals) (self : BurrowClient) (consumer : string) (data : json)
             c w row c' w',
        status_row self consumer data c w = (Ok row, c', w') ->
        summary_cells self data row)
  /\ (forall fields : list (string * json),
        summary_lag (JObj fields)
        = match assoc "maxlag" fields with
          | Some maxlag =>
              if truthy maxlag then rmap st_lag (get_partition_stats maxlag)
              else Ok (JInt 0)
          | None => Ok (JInt 0)
          end)
  /\ (let self := set_verbose true Fixtures.client in
      fst (fst (@report_consumer_status (status_server Fixtures.STATUS_TWO_OWNERS)
                  "clustername1" self fresh_world))
      = Ok (String.append
              (@draw (status_server Fixtures.STATUS_TWO_OWNERS) (status_header self) "l"
                 [[text "group1"; text "OK"; text "0"; text "0"; text "2542";
                   text "1511780580382"; text "1511780580382"; text "0";
                   text "alice"; text "topicA[2]"];
                  [text "group2"; text "WARN"; text "0"; text "0"; text "2542";
                   text "1511780580382"; text "1511780580382"; text "0";
                   text ""; text "topicA[1]"]])
              newline))
  /\ fst (fst (@report_consumer_status (status_server Fixtures.STATUS_WITHOUT_MAXLAG)
                 "clustername1" Fixtures.client fresh_world))
     = Ok (String.append
             (@draw (status_server Fixtures.STATUS_WITHOUT_MAXLAG)
                (status_header Fixtures.client) "l"
                [[text "group1"; text "OK"; text "0"; text "0"; text "0"; text "0";
                  text "0"; text "1511780580382"];
                 [text "group2"; text "WARN"; text "0"; text "0"; text "2542";
                  text "1511780580382"; text "1511780580382"; text "0"]])
             newline)
  /\ fst (fst (@report_consumer_status (status_server STATUS_WITH_MAXLAG)
                 "clustername1" Fixtures.client fresh_world))
     = Ok (String.append
             (@draw (status_server STATUS_WITH_MAXLAG)
                (status_header Fixtures.client) "l"
                [[text "group1"; text "WARN"; text "7"; text "12"; text "2542";
                  text "1511780580382"; text "1511780580382"; text "0"];
                 [text "group2"; text "WARN"; text "0"; text "0"; text "2542";
                  text "1511780580382"; text "1511780580382"; text "0"]])
             newline).
Proof.
  split; [intros E cluster c w s c' w'; apply report_consumer_status_drawn|].
  split; [intros E self consumer data c w row c' w'; apply status_row_cells|].
  split; [exact summary_lag_obj|].
  repeat split; vm_compute; reflexivity.
Qed.

(** The summary of the test server for a snapshot with a [maxlag] record
    of lag 7, and the row made of that snapshot. *)
Lemma status_summary_row_witness :
  (exists news drawn c' w',
     loop_trace (status_step (H:=status_server STATUS_WITH_MAXLAG)
                   Fixtures.client "clustername1")
       [JStr "group1"; JStr "group2"]
       (snd (fst (consumers (H:=status_server STATUS_WITH_MAXLAG) "clustername1"
                    Fixtures.client fresh_world)))
       (snd (consumers (H:=status_server STATUS_WITH_MAXLAG) "clustername1"
               Fixtures.client fresh_world))
       news c' w'
     /\ Permutation (concat news) drawn
     /\ sorted_by_name drawn
     /\ fst (fst (@report_consumer_status (status_server STATUS_WITH_MAXLAG)
                    "clustername1" Fixtures.client fresh_world))
        = Ok (String.append
                (@draw (status_server STATUS_WITH_MAXLAG)
                   (status_header Fixtures.client) "l" drawn)
                newline))
  /\ summary_cells (H:=status_server STATUS_WITH_MAXLAG) Fixtures.client
       STATUS_WITH_MAXLAG
       [text "group1"; text "WARN"; text "7"; text "12"; text "2542";
        text "1511780580382"; text "1511780580382"; text "0"].
Proof.
  destruct status_summary_row as (Hreport & Hcells & _).
  split.
  - set (run := @report_consumer_status (status_server STATUS_WITH_MAXLAG)
                  "clustername1" Fixtures.client fresh_world).
    set (s := match fst (fst run) with Ok s => s | Raise _ => "" end).
    assert (Hrun : run = (Ok s, snd (fst run), snd run)) by (vm_compute; reflexivity).
    destruct (Hreport (status_server STATUS_WITH_MAXLAG) _ _ _ _ _ _ Hrun)
      as (payload & c0 & w0 & items & news & drawn & Hconsumers & Hiter & Htrace
          & Hperm & Hsorted & Hs).
    set (fetch := consumers (H:=status_server STATUS_WITH_MAXLAG) "clustername1"
                    Fixtures.client fresh_world) in *.
    assert (Hfetch : fetch = (Ok (JArr [JStr "group1"; JStr "group2"]),
                              snd (fst fetch), snd fetch)) by (vm_compute; reflexivity).
    rewrite Hfetch in Hconsumers. injection Hconsumers as <- <- <-.
    cbn [py_iter] in Hiter. injection Hiter as <-.
    exists news, drawn, (snd (fst run)), (snd run).
    split; [exact Htrace|]. split; [exact Hperm|]. split; [exact Hsorted|].
    rewrite Hrun. cbn [fst]. rewrite Hs. reflexivity.
  - apply (Hcells (status_server STATUS_WITH_MAXLAG) Fixtures.client "group1"
             STATUS_WITH_MAXLAG Fixtures.client fresh_world _
             Fixtures.client {| requests := []; clock_reads := 1; stdout := [] |}).
    vm_compute. reflexivity.
Defined.
